(** * mynt: the content-indexing and rendering pipeline of [mynt/core.py]

    A shallow embedding of the [Mynt] class of [src/mynt/core.py] and the
    properties its specification states about it.

    Conventions.
    - Python text is [string]; one character is one code point below 256.
    - The methods of [unicode] the source calls ([replace], [split],
      [endswith]) are defined in the module [Py] as executable functions;
      [lower], which follows the case table of the interpreter, is a field of
      [backends], and [Py.lower] is that table on the code points below 256.
    - Code that raises returns a [result]; the exception classes are the
      constructors of [exn].
    - Collaborators that live outside [core.py] (the markup converter, the
      template renderer, pygments, [mynt.utils.normpath], the containers of
      [mynt.containers], the file objects of [mynt.fs]) are either fields of
      the record [backends] or small models carrying a doc comment that says
      what they stand for. *)

From Stdlib Require Import ZArith Ascii String List Lia Bool Arith Sorted Permutation.
From stdpp Require Import base option list gmap strings fin_maps.

Local Open Scope Z_scope.
Local Open Scope nat_scope.

(* ===================================================================== *)
(** * Python string methods *)
(* ===================================================================== *)

Module Py.

(** [s.startswith(p)]. *)
Fixpoint startswith (s p : string) {struct p} : bool :=
  match p, s with
  | EmptyString, _ => true
  | String a p', String b s' => if Ascii.eqb a b then startswith s' p' else false
  | String _ _, EmptyString => false
  end.

(** [s.endswith(p)]: some suffix of [s] equals [p]. *)
Fixpoint endswith (s p : string) : bool :=
  String.eqb s p ||
  match s with
  | EmptyString => false
  | String _ s' => endswith s' p
  end.

(** The text left after its first [n] characters, [s[n:]]. *)
Fixpoint drop (n : nat) (s : string) : string :=
  match n, s with
  | O, _ => s
  | S n', String _ s' => drop n' s'
  | S _, EmptyString => EmptyString
  end.

(** [s.replace(old, new)] for a non-empty [old]: the occurrences of [old] are
    found from left to right and do not overlap.  [skip] counts the characters
    of an occurrence that are still to be passed over. *)
Fixpoint replace_from (skip : nat) (old new s : string) : string :=
  match s with
  | EmptyString => EmptyString
  | String c s' =>
      match skip with
      | S k => replace_from k old new s'
      | O =>
          if startswith s old
          then new +:+ replace_from (String.length old - 1) old new s'
          else String c (replace_from 0 old new s')
      end
  end.

(** [s.replace(old, new)].  For an empty [old] Python puts [new] before every
    character and at the end. *)
Fixpoint interleave (new s : string) : string :=
  match s with
  | EmptyString => new
  | String c s' => new +:+ String c (interleave new s')
  end.

Definition replace (old new s : string) : string :=
  match old with
  | EmptyString => interleave new s
  | String _ _ => replace_from 0 old new s
  end.

(** [s.split(sep)] for a one-character separator: always at least one
    piece, and a trailing separator leaves an empty last piece. *)
Fixpoint split (sep : ascii) (s : string) : list string :=
  match s with
  | EmptyString => [EmptyString]
  | String c s' =>
      if Ascii.eqb c sep then EmptyString :: split sep s'
      else match split sep s' with
           | h :: t => String c h :: t
           | [] => [String c EmptyString]
           end
  end.

(** [c.lower()] for a code point below 256: the capitals [A] to [Z], and
    the capitals of Latin-1 from 192 to 222 without the multiplication sign
    215, are 32 below their small letters; every other character is kept. *)
Definition lower_char (c : ascii) : ascii :=
  let n := nat_of_ascii c in
  if ((65 <=? n) && (n <=? 90)) ||
     ((192 <=? n) && (n <=? 222) && negb (n =? 215))
  then ascii_of_nat (n + 32) else c.

(** [s.lower()] on such a text. *)
Fixpoint lower (s : string) : string :=
  match s with
  | EmptyString => EmptyString
  | String c s' => String (lower_char c) (lower s')
  end.

(** [c in s] for a character. *)
Fixpoint contains_char (c : ascii) (s : string) : bool :=
  match s with
  | EmptyString => false
  | String a s' => Ascii.eqb a c || contains_char c s'
  end.

End Py.

(* ===================================================================== *)
(** * Exceptions and results *)
(* ===================================================================== *)

(** The exception classes that can leave the methods of [Mynt]. *)
Inductive exn : Type :=
| OptionException (args : list string)
| ConfigException (args : list string)
| RendererException (args : list string)
| PostException (args : list string)
| ParserException (args : list string)
| ClassNotFound (args : list string)
| AttributeError (args : list string)
| KeyError (args : list string)
| TypeError (args : list string)
| ValueError (args : list string)
| IOError (args : list string)
| OSError (args : list string).

Inductive result (A : Type) : Type :=
| Ok (a : A)
| Raise (e : exn).
Arguments Ok {A} a.
Arguments Raise {A} e.

(** Sequencing: an exception raised by the first computation skips the rest.
    The instances give [result] the notation [x ← r; k]. *)
#[export] Instance result_ret : MRet result := fun A a => Ok a.
#[export] Instance result_bind : MBind result := fun A B k r =>
  match r with
  | Ok a => k a
  | Raise e => Raise e
  end.

(** A [for] loop whose body can raise: the first exception ends the loop. *)
Fixpoint for_each {A S : Type} (body : S -> A -> result S) (l : list A) (s : S)
  : result S :=
  match l with
  | [] => Ok s
  | x :: l' => s' ← body s x; for_each body l' s'
  end.

(* ===================================================================== *)
(** * URL resolution: [_get_tag_url] and [_get_path] *)
(* ===================================================================== *)

(** ['{0}/{1}{2}'.format(tags_url, name, end)]. *)
Definition _get_tag_url (tags_url name : string) : string :=
  let end_ := if Py.endswith tags_url "/" then "/" else ".html" in
  tags_url +:+ "/" +:+ name +:+ end_.

Section GetPath.
(** [mynt.utils.normpath] is not among the sources; it is a parameter
    here, applied to the list of its arguments. *)
Variable normpath : list string -> string.

Definition _get_path (dest_path url : string) : string :=
  let parts := [dest_path] ++ Py.split "/" url in
  let parts := if Py.endswith url "/" then parts ++ ["index.html"] else parts in
  normpath parts.
End GetPath.

(** A sample [normpath] for the examples: the segments of all the
    arguments after the first, the empty ones and the dots left out, joined
    by ["/"] under the first argument. *)
Fixpoint join_segments (l : list string) : string :=
  match l with
  | [] => ""
  | [x] => x
  | x :: l' => x +:+ "/" +:+ join_segments l'
  end.

Definition keep_segment (s : string) : bool :=
  negb (String.eqb s "") && negb (String.eqb s ".").

Definition sample_normpath (parts : list string) : string :=
  match parts with
  | [] => "."
  | root :: rest =>
      join_segments
        (root :: filter (fun s => Is_true (keep_segment s))
                   (concat (map (Py.split "/") rest)))
  end.

(* ===================================================================== *)
(** * Dates and [strftime] *)
(* ===================================================================== *)

(** A [datetime], by the fields the source reads. *)
Record datetime : Type := { year : nat; month : nat; day : nat }.

Definition digit_char (n : nat) : ascii := ascii_of_nat (48 + n).

Definition is_digit (c : ascii) : bool :=
  let n := nat_of_ascii c in (48 <=? n) && (n <=? 57).

(** [str(n)] for a natural number: its decimal digits. *)
Fixpoint digits_onto (fuel n : nat) (acc : string) : string :=
  match fuel with
  | O => acc
  | S fuel' =>
      let acc' := String (digit_char (n mod 10)) acc in
      if n / 10 =? 0 then acc' else digits_onto fuel' (n / 10) acc'
  end.

Definition str_of_nat (n : nat) : string := digits_onto (S n) n "".

(** Two digits, zero-padded: what [%m] and [%d] print. *)
Definition two_digits (n : nat) : string :=
  if n <? 10 then "0" +:+ str_of_nat n else str_of_nat n.

Section Strftime.
(** What the platform's [strftime] prints for the conversions the source
    never writes itself: [other d (String c "")] for [%c], and [other d ""]
    for a [%] that ends the format. *)
Variable other : datetime -> string -> string.

Definition directive (d : datetime) (c : ascii) : string :=
  if Ascii.eqb c "Y" then str_of_nat (year d)
  else if Ascii.eqb c "m" then two_digits (month d)
  else if Ascii.eqb c "d" then two_digits (day d)
  else if Ascii.eqb c "%" then "%"
  else other d (String c EmptyString).

(** The scan of the format: [pending] says that the previous character
    was a [%] that opens a conversion. *)
Fixpoint strftime_from (pending : bool) (d : datetime) (fmt : string) : string :=
  match fmt with
  | EmptyString => if pending then other d EmptyString else EmptyString
  | String c rest =>
      if pending then directive d c +:+ strftime_from false d rest
      else if Ascii.eqb c "%" then strftime_from true d rest
      else String c (strftime_from false d rest)
  end.

(** [d.strftime(fmt)].  Python 2 refuses the years before 1900. *)
Definition strftime (d : datetime) (fmt : string) : result string :=
  if year d <? 1900
  then Raise (ValueError ["year is before 1900; the datetime strftime() methods require year >= 1900"])
  else Ok (strftime_from false d fmt).
End Strftime.

(** Texts made of decimal digits, and texts without percent signs and
    digits. *)
Fixpoint all_digits (s : string) : bool :=
  match s with
  | EmptyString => true
  | String c s' => is_digit c && all_digits s'
  end.

Definition plain_char (c : ascii) : bool :=
  negb (Ascii.eqb c "%") && negb (is_digit c).

Fixpoint plain (s : string) : bool :=
  match s with
  | EmptyString => true
  | String c s' => plain_char c && plain s'
  end.

Definition date_code (c : ascii) : Prop := c = "Y"%char \/ c = "m"%char \/ c = "d"%char.

(** [linked d other a b]: the format [a] is made of plain characters, doubled
    percent signs and the conversions [%Y], [%m], [%d], and [b] is what it
    prints for the date [d]. *)
Inductive linked (other : datetime -> string -> string) (d : datetime)
  : string -> string -> Prop :=
| linked_nil : linked other d "" ""
| linked_char c a b :
    c <> "%"%char -> linked other d a b -> linked other d (String c a) (String c b)
| linked_percent a b :
    linked other d a b -> linked other d (String "%" (String "%" a)) (String "%" b)
| linked_code c a b :
    date_code c -> linked other d a b ->
    linked other d (String "%" (String c a)) (directive other d c +:+ b).

(* ===================================================================== *)
(** * URL resolution: [_get_post_url] *)
(* ===================================================================== *)

(** The keys of the dictionary [subs]. *)
Inductive placeholder : Type :=
| p_year | p_month | p_day | p_i_month | p_i_day | p_title.

Definition key (p : placeholder) : string :=
  match p with
  | p_year => "<year>"
  | p_month => "<month>"
  | p_day => "<day>"
  | p_i_month => "<i_month>"
  | p_i_day => "<i_day>"
  | p_title => "<title>"
  end.

(** The values of [subs]. *)
Definition subs (d : datetime) (slug : string) (p : placeholder) : string :=
  match p with
  | p_year => "%Y"
  | p_month => "%m"
  | p_day => "%d"
  | p_i_month => str_of_nat (month d)
  | p_i_day => str_of_nat (day d)
  | p_title => slug
  end.

Section PostUrl.
Variable other : datetime -> string -> string.
(** The order in which [subs.iteritems()] visits the keys. *)
Variable order : list placeholder.

Definition _get_post_url (posts_url : string) (d : datetime) (slug : string)
  : result string :=
  let link := Py.replace "%" "%%" posts_url in
  let link :=
    fold_left (fun link p => Py.replace (key p) (subs d slug p) link) order link in
  strftime other d link.
End PostUrl.

(** What a placeholder stands for in the resolved URL. *)
Definition resolved (d : datetime) (slug : string) (p : placeholder) : string :=
  match p with
  | p_year => str_of_nat (year d)
  | p_month => two_digits (month d)
  | p_day => two_digits (day d)
  | p_i_month => str_of_nat (month d)
  | p_i_day => str_of_nat (day d)
  | p_title => slug
  end.

(** The URL the specification describes, written from its words: the
    placeholders of the pattern give way to what they stand for, and every
    other character of the pattern, [%] included, stays as it is. *)
Definition expand (order : list placeholder) (posts_url : string) (d : datetime)
    (slug : string) : string :=
  fold_left (fun link p => Py.replace (key p) (resolved d slug p) link) order posts_url.

(** A platform and a visiting order for the examples. *)
Definition sample_other (d : datetime) (conv : string) : string := "%" +:+ conv.
Definition sample_order : list placeholder :=
  [p_year; p_month; p_day; p_i_month; p_i_day; p_title].

(* ===================================================================== *)
(** * Regular expressions: the fragment of [re] the source uses *)
(* ===================================================================== *)

Module Re.

(** The constructs that occur in the two patterns of [core.py].  A
    repetition is always over a character class, as in the source. *)
Inductive regex : Type :=
| Bos                                              (* \A *)
| Lit (text : string)                              (* literal text *)
| Rep (greedy plus : bool) (cls : ascii -> bool)   (* c*  c+  c*?  c+? *)
| Cat (r1 r2 : regex)
| Opt (r : regex)                                  (* r?  (greedy) *)
| Group (n : nat) (r : regex).                     (* the n-th ( ) *)

Definition seq (l : list regex) : regex := foldr Cat (Lit "") l.

(** The text of the groups that took part in a match. *)
Definition captures := list (nat * string).

Definition group (n : nat) (caps : captures) : option string :=
  snd <$> find (fun p => Nat.eqb (fst p) n) caps.

(** A match: where it ends and what it captured. *)
Definition answer : Type := nat * captures.

(** A lazy repetition offers the shortest run first. *)
Fixpoint rep_lazy (cls : ascii -> bool) (pos : nat) (s : string)
    (k : nat -> string -> option answer) : option answer :=
  match k pos s with
  | Some a => Some a
  | None =>
      match s with
      | String c s' => if cls c then rep_lazy cls (S pos) s' k else None
      | EmptyString => None
      end
  end.

(** A greedy repetition offers the longest run first. *)
Fixpoint rep_greedy (cls : ascii -> bool) (pos : nat) (s : string)
    (k : nat -> string -> option answer) : option answer :=
  match s with
  | String c s' =>
      if cls c then
        match rep_greedy cls (S pos) s' k with
        | Some a => Some a
        | None => k pos s
        end
      else k pos s
  | EmptyString => k pos s
  end.

Definition rep (greedy : bool) (cls : ascii -> bool) (pos : nat) (s : string)
    (k : nat -> string -> option answer) : option answer :=
  if greedy then rep_greedy cls pos s k else rep_lazy cls pos s k.

(** The backtracking matcher: [run r pos s caps k] matches [r] at offset
    [pos], where [s] is the text from [pos] on, and hands every way of
    matching, in the order of preference, to the continuation [k] until one
    of them succeeds. *)
Fixpoint run (r : regex) (pos : nat) (s : string) (caps : captures)
    (k : nat -> string -> captures -> option answer) : option answer :=
  match r with
  | Bos => if Nat.eqb pos 0 then k pos s caps else None
  | Lit t =>
      if Py.startswith s t
      then k (pos + String.length t) (Py.drop (String.length t) s) caps
      else None
  | Rep greedy plus cls =>
      if plus then
        match s with
        | String c s' =>
            if cls c then rep greedy cls (S pos) s' (fun p' t => k p' t caps) else None
        | EmptyString => None
        end
      else rep greedy cls pos s (fun p' t => k p' t caps)
  | Cat r1 r2 => run r1 pos s caps (fun p' s' c' => run r2 p' s' c' k)
  | Opt r' =>
      match run r' pos s caps k with
      | Some a => Some a
      | None => k pos s caps
      end
  | Group n r' =>
      run r' pos s caps
        (fun p' s' c' => k p' s' ((n, String.substring 0 (p' - pos) s) :: c'))
  end.

(** [re.match] at one offset. *)
Definition match_at (r : regex) (pos : nat) (s : string) : option answer :=
  run r pos s [] (fun p' _ c' => Some (p', c')).

(** [re.search(r, s)]: the first offset at which [r] matches. *)
Fixpoint search_from (r : regex) (pos : nat) (s : string) : option answer :=
  match match_at r pos s with
  | Some a => Some a
  | None =>
      match s with
      | String _ s' => search_from r (S pos) s'
      | EmptyString => None
      end
  end.

Definition search (r : regex) (s : string) : option answer := search_from r 0 s.

(** [re.sub(r, repl, s)] with a function [repl]: the matches are found from
    left to right, do not overlap, and each is replaced by what [repl]
    returns for it.  [skip] counts the characters of the current match that
    are still to be passed over.  An empty match is treated as no match: the
    pattern this is used with starts with literal text. *)
Fixpoint sub_from (skip : nat) (r : regex) (repl : captures -> result string)
    (pos : nat) (s : string) : result string :=
  match s with
  | EmptyString => Ok EmptyString
  | String c s' =>
      match skip with
      | S k => sub_from k r repl (S pos) s'
      | O =>
          match match_at r pos s with
          | Some (stop, caps) =>
              if stop <=? pos
              then rest ← sub_from 0 r repl (S pos) s'; Ok (String c rest)
              else
                out ← repl caps;
                rest ← sub_from (stop - pos - 1) r repl (S pos) s';
                Ok (out +:+ rest)
          | None => rest ← sub_from 0 r repl (S pos) s'; Ok (String c rest)
          end
      end
  end.

Definition sub (r : regex) (repl : captures -> result string) (s : string)
  : result string := sub_from 0 r repl 0 s.

(** Character classes. *)
Definition any : ascii -> bool := fun _ => true.              (* . with re.S *)
Definition not_gt : ascii -> bool := fun c => negb (Ascii.eqb c ">"). (* [^>] *)

End Re.

(* ===================================================================== *)
(** * The syntax-highlight pass: [_highlight] and [_pygmentize] *)
(* ===================================================================== *)

(** The double quote character, as a text. *)
Definition dquote : string := String (ascii_of_nat 34) EmptyString.

(** The replacements of [_highlight], in the order of the source. *)
Definition entities : list (string * string) :=
  [("&amp;", "&"); ("&gt;", ">"); ("&lt;", "<"); ("&quot;", dquote)].

(** The loop [for pattern, replace in [...]: code = code.replace(pattern, replace)]. *)
Definition unescape (code : string) : string :=
  fold_left (fun code pr => Py.replace (fst pr) (snd pr) code) entities code.

(** What the specification asks of the same step, written from its words:
    one pass over the text in which every occurrence of one of the four
    entities becomes its one literal character and nothing else changes. *)
Fixpoint unescape_once_from (skip : nat) (s : string) : string :=
  match s with
  | EmptyString => EmptyString
  | String c s' =>
      match skip with
      | S k => unescape_once_from k s'
      | O =>
          match find (fun pr => Py.startswith s (fst pr)) entities with
          | Some (pattern, literal) =>
              literal +:+ unescape_once_from (String.length pattern - 1) s'
          | None => String c (unescape_once_from 0 s')
          end
      end
  end.

Definition unescape_once (s : string) : string := unescape_once_from 0 s.

(** The inverse direction, the escaping that produced the block content:
    every special character becomes its entity. *)
Fixpoint escape (s : string) : string :=
  match s with
  | EmptyString => EmptyString
  | String c s' =>
      (if Ascii.eqb c "&" then "&amp;"
       else if Ascii.eqb c ">" then "&gt;"
       else if Ascii.eqb c "<" then "&lt;"
       else if Ascii.eqb c (ascii_of_nat 34) then "&quot;"
       else String c EmptyString) +:+ escape s'
  end.

(** [HtmlFormatter(linenos = ...)]. *)
Inductive linenos_mode : Type := linenos_off | linenos_table | linenos_inline.
Record HtmlFormatter : Type := { linenos : linenos_mode }.

(** The pattern of [_pygmentize]:
    [<pre[^>]+lang="([^>]+)"[^>]*><code>(.+?)</code></pre>] with [re.S]. *)
Definition pre_code_re : Re.regex :=
  Re.seq [ Re.Lit "<pre"; Re.Rep true true Re.not_gt;
           Re.Lit ("lang=" +:+ dquote);
           Re.Group 1 (Re.Rep true true Re.not_gt);
           Re.Lit dquote; Re.Rep true false Re.not_gt;
           Re.Lit "><code>";
           Re.Group 2 (Re.Rep false true Re.any);
           Re.Lit "</code></pre>" ].

(** The two-level container of a highlighted block. *)
Definition code_container (inner : string) : string :=
  "<div class=" +:+ dquote +:+ "code" +:+ dquote +:+ "><div>" +:+ inner +:+ "</div></div>".

(** [try: ... except ClassNotFound: ...]. *)
Definition except_ClassNotFound {A : Type} (body handler : result A) : result A :=
  match body with
  | Raise (ClassNotFound _) => handler
  | _ => body
  end.

Section Highlight.
(** pygments: the lexers, the registry [get_lexer_by_name], which raises
    [ClassNotFound] for a name it does not know, and [highlight]. *)
Variable lexer : Type.
Variable get_lexer_by_name : string -> result lexer.
Variable highlight : string -> lexer -> HtmlFormatter -> string.

(** The body of [_highlight], from the two groups of the match. *)
Definition _highlight_groups (language code : string) : result string :=
  let formatter := {| linenos := linenos_table |} in
  let code := unescape code in
  code ← except_ClassNotFound
            (lx ← get_lexer_by_name language; Ok (highlight code lx formatter))
            (lx ← get_lexer_by_name "text"; Ok (highlight code lx formatter));
  Ok (code_container code).

(** [_highlight(match)]: [language, code = match.groups()]. *)
Definition _highlight (m : Re.captures) : result string :=
  match Re.group 1 m, Re.group 2 m with
  | Some language, Some code => _highlight_groups language code
  | _, _ => Raise (AttributeError ["'NoneType' object has no attribute 'replace'"])
  end.

Definition _pygmentize (pygmentize : bool) (html : string) : result string :=
  if negb pygmentize then Ok html
  else Re.sub pre_code_re _highlight html.
End Highlight.

(** The pattern of the excerpt, [\A.*?(<p>.+?</p>)?] with [re.M | re.S]. *)
Definition excerpt_re : Re.regex :=
  Re.seq [ Re.Bos; Re.Rep false false Re.any;
           Re.Opt (Re.Group 1 (Re.seq [ Re.Lit "<p>"; Re.Rep false true Re.any;
                                        Re.Lit "</p>" ])) ].

(** [re.search(excerpt_re, content).group(1)]. *)
Definition excerpt_of (content : string) : result (option string) :=
  match Re.search excerpt_re content with
  | Some (_, caps) => Ok (Re.group 1 caps)
  | None => Raise (AttributeError ["'NoneType' object has no attribute 'group'"])
  end.

(** The excerpt the specification describes, written from its words: the
    first [<p>...</p>] block of the content, wherever it starts. *)
Definition first_paragraph_re : Re.regex :=
  Re.Group 1 (Re.seq [ Re.Lit "<p>"; Re.Rep false true Re.any; Re.Lit "</p>" ]).

Definition first_paragraph (content : string) : option string :=
  match Re.search first_paragraph_re content with
  | Some (_, caps) => Re.group 1 caps
  | None => None
  end.

(** A small pygments for the examples: two registered lexers, and a
    [highlight] that shows which lexer and which line-number mode it got. *)
Definition sample_get_lexer_by_name (name : string) : result string :=
  if String.eqb name "python" || String.eqb name "text" then Ok name
  else Raise (ClassNotFound [name]).

Definition sample_highlight (code lx : string) (f : HtmlFormatter) : string :=
  (match linenos f with
   | linenos_table => "<table>"
   | linenos_inline => "<inline>"
   | linenos_off => "<plain>"
   end) +:+ lx +:+ ":" +:+ code.

(* ===================================================================== *)
(** * [list.sort]: a stable sort by key *)
(* ===================================================================== *)

Section Sort.
Context {A : Type}.
Variable le : A -> A -> bool.

(** [x] goes in front of the first element it is not above, so in front of
    the elements equal to it. *)
Fixpoint insert_sorted (x : A) (l : list A) : list A :=
  match l with
  | [] => [x]
  | y :: l' => if le x y then x :: l else y :: insert_sorted x l'
  end.

(** The elements are inserted from the last to the first: among equal
    elements the order of the input is kept, as [list.sort] guarantees. *)
Definition stable_sort (l : list A) : list A := foldr insert_sorted [] l.
End Sort.

(** [l.sort(key = key, reverse = reverse)], the keys compared by [leb].
    With [reverse] every comparison is turned around; equal elements keep
    their order in both directions. *)
Definition sort_by {A K : Type} (leb : K -> K -> bool) (key : A -> K)
    (reverse : bool) (l : list A) : list A :=
  stable_sort
    (fun x y => if reverse then leb (key y) (key x) else leb (key x) (key y)) l.

(** The order a stable sort leaves behind: by [le], and among the elements
    [le] does not tell apart by the order [R] the input was in. *)
Definition then_by {A : Type} (le : A -> A -> bool) (R : A -> A -> Prop)
    (x y : A) : Prop :=
  le x y = true /\ (le y x = true -> R x y).

(** The comparison [sort_by] sorts with. *)
Definition key_le {A K : Type} (leb : K -> K -> bool) (key : A -> K)
    (reverse : bool) (x y : A) : bool :=
  if reverse then leb (key y) (key x) else leb (key x) (key y).

(* ===================================================================== *)
(** * The containers of [mynt.containers] *)
(* ===================================================================== *)

(** Modelled from the spec: the metadata block of a post, of
    [mynt.containers.Post], which is not among the sources ("raw metadata
    map (string to value, arbitrary user-defined keys plus required title,
    layout)").  The keys the pipeline reads are fields; a key that
    [data.update] would lay over a derived one is an option of the derived
    key's type; the other keys are [fm_extra]. *)
Record frontmatter : Type := {
  fm_title : option string;
  fm_layout : option string;
  fm_tags : option (list string);
  fm_content : option string;
  fm_date : option string;
  fm_excerpt : option string;
  fm_timestamp : option Z;
  fm_url : option string;
  fm_extra : list (string * string)
}.

(** Modelled from the spec: a parsed post, [mynt.containers.Post]
    ("metadata map, body text, date (derived from filename), slug"). *)
Record post : Type := {
  post_frontmatter : frontmatter;
  post_bodymatter : string;
  post_date : datetime;
  post_slug : string
}.

(** The dictionary [data] that [_parse] builds for a post. *)
Record data : Type := {
  data_content : string;
  data_date : string;
  data_excerpt : option string;
  data_tags : list string;
  data_timestamp : Z;
  data_url : string;
  data_title : option string;
  data_layout : option string;
  data_extra : list (string * string)
}.

(** [data.update(post.frontmatter)]. *)
Definition update (d : data) (fm : frontmatter) : data :=
  {| data_content := default (data_content d) (fm_content fm);
     data_date := default (data_date d) (fm_date fm);
     data_excerpt := match fm_excerpt fm with Some e => Some e | None => data_excerpt d end;
     data_tags := default (data_tags d) (fm_tags fm);
     data_timestamp := default (data_timestamp d) (fm_timestamp fm);
     data_url := default (data_url d) (fm_url fm);
     data_title := match fm_title fm with Some t => Some t | None => data_title d end;
     data_layout := match fm_layout fm with Some t => Some t | None => data_layout d end;
     data_extra := fm_extra fm ++ data_extra d |}.

(** The dictionary [_parse] builds for a tag. *)
Record tag : Type := {
  tag_name : string;
  tag_count : nat;
  tag_posts : list data;
  tag_url : string
}.

(** What [self.tags] holds under a name: the list of posts while the posts
    are read, the dictionary of the tag once the collection is final. *)
Inductive tag_value : Type :=
| TagPosts (posts : list data)
| TagData (t : tag).

(** Modelled from the spec: the collection [mynt.containers.Tags], which is
    not among the sources ("name is unique within the tag collection"; the
    final order is the order in which [_parse] stores the tags).  A mapping
    that keeps its keys in the order of their first insertion and iterates
    as pairs [(name, value)]. *)
Definition Tags : Type := list (string * tag_value).

Definition tags_get (name : string) (T : Tags) : option tag_value :=
  snd <$> find (fun e => String.eqb (fst e) name) T.

(** [name in tags]. *)
Definition tags_contains (name : string) (T : Tags) : bool :=
  match tags_get name T with Some _ => true | None => false end.

(** [tags[name] = v]: a known name keeps its place, a new one goes last. *)
Fixpoint tags_set (name : string) (v : tag_value) (T : Tags) : Tags :=
  match T with
  | [] => [(name, v)]
  | e :: T' =>
      if String.eqb (fst e) name then (name, v) :: T'
      else e :: tags_set name v T'
  end.

(** Modelled from the spec: [mynt.containers.Archives], "a time-based
    grouping of posts derived purely from the already-sorted post list".
    It is represented by the list it is built from. *)
Record Archives : Type := { archived : list data }.

(** Modelled from the spec: [mynt.containers.Page], "an output unit: a
    destination path + final byte content". *)
Record Page : Type := { page_path : string; page_content : string }.

(** The dictionary [config], with the keys of the class attribute. *)
Record config : Type := {
  assets_url : string;
  base_url : string;
  date_format : string;
  markup : string;
  parser : string;
  posts_url : string;
  pygmentize : bool;
  renderer : string;
  tag_layout : option string;
  tags_url : string
}.

Definition set_base_url (u : string) (c : config) : config :=
  {| assets_url := assets_url c; base_url := u; date_format := date_format c;
     markup := markup c; parser := parser c; posts_url := posts_url c;
     pygmentize := pygmentize c; renderer := renderer c;
     tag_layout := tag_layout c; tags_url := tags_url c |}.

(** The names of a collection, in its order. *)
Definition keys (T : Tags) : list string := map fst T.

(** How a final collection holds a tag. *)
Definition stored (t : tag) : string * tag_value := (tag_name t, TagData t).

(** The order of a final collection: more members first, and among tags
    with as many members the smaller lowercased name first.  [lower] is
    [unicode.lower]. *)
Definition by_count (a b : tag) : bool := Nat.leb (tag_count b) (tag_count a).
Definition by_name (lower : string -> string) (a b : tag) : bool :=
  String.leb (lower (tag_name a)) (lower (tag_name b)).

(* ===================================================================== *)
(** * The file system of [mynt.fs] *)
(* ===================================================================== *)

(** Modelled from the spec: the file-system collaborator ("directory listing
    (recursive, yielding file paths with extensions), file existence, read,
    write, recursive copy, recursive delete"), [mynt.fs], which is not among
    the sources.  A tree is a finite map from paths to what is there; the
    directories above a file need no entry of their own, an empty directory
    has the entry [Dir]. *)
Inductive node : Type :=
| Dir
| File (content : string).

#[export] Instance node_eq_dec : EqDecision node.
Proof. solve_decision. Defined.

(** [p] lies beneath [d]. *)
Definition beneath (d p : string) : bool := Py.startswith p (d +:+ "/").

(** [p] is [d] or lies beneath it. *)
Definition under (d p : string) : bool := String.eqb p d || beneath d p.

(** What is at or beneath [d]. *)
Definition subtree (d : string) (m : gmap string node) : gmap string node :=
  filter (fun e => Is_true (under d (fst e))) m.

Definition is_file_node (n : node) : bool :=
  match n with
  | File _ => true
  | Dir => false
  end.

(** [Directory(d).exists], a directory is at [d]: no file is there, and
    something is at or beneath [d]. *)
Definition dir_exists (d : string) (m : gmap string node) : bool :=
  match m !! d with
  | Some (File _) => false
  | _ => match map_to_list (subtree d m) with
         | [] => false
         | _ :: _ => true
         end
  end.

(** A file is where a directory above [p] would have to be. *)
Definition blocked (p : string) (m : gmap string node) : bool :=
  match map_to_list
          (filter (fun e => Is_true (beneath (fst e) p && is_file_node (snd e))) m) with
  | [] => false
  | _ :: _ => true
  end.

(** [Directory(d).rm()]: the recursive delete. *)
Definition rm (d : string) (m : gmap string node) : gmap string node :=
  filter (fun e => ~ Is_true (under d (fst e))) m.

(** [Directory(d).mk()]: nothing is done when the directory is there;
    making it fails when a file is in its place or in the place of a
    directory above it. *)
Definition mk (d : string) (m : gmap string node) : result (gmap string node) :=
  if dir_exists d m then Ok m
  else match m !! d with
       | Some (File _) => Raise (OSError ["File exists"; d])
       | _ => if blocked d m then Raise (OSError ["Not a directory"; d])
              else Ok (<[d := Dir]> m)
       end.

(** The tree in which the destination has been removed and made anew. *)
Definition cleared (d : string) (m : gmap string node) : gmap string node :=
  <[d := Dir]> (rm d m).

(** The content lands in the file, the directories above it created as
    needed. *)
Definition write (p content : string) (m : gmap string node) : gmap string node :=
  <[p := File content]> m.

(** A file as the listing of a directory yields it. *)
Record file : Type := { file_path : string; file_content : string }.

Definition as_file (e : string * node) : option file :=
  match snd e with
  | File c => Some {| file_path := fst e; file_content := c |}
  | Dir => None
  end.

(** A name the listing passes over: it starts with ["_"] or ["."]. *)
Definition hidden (name : string) : bool :=
  Py.startswith name "_" || Py.startswith name ".".

(** [p] lies beneath [d] and none of its names below [d] is hidden. *)
Definition listed (d p : string) : bool :=
  beneath d p &&
  forallb (fun name => negb (hidden name))
          (Py.split "/" (Py.drop (String.length d + 1) p)).

(** Modelled from the spec: [for f in Directory(d)], the recursive listing
    of [mynt.fs.Directory], which is not among the sources.  It yields the
    files beneath [d] and passes over the files and the directories whose
    name starts with ["_"] or ["."]: the layouts, the posts and the assets,
    which are kept in such directories of the source, are not among its
    template files ("excluding post/tag layouts").  Nothing is yielded when
    no directory is at [d]. *)
Definition listing (d : string) (m : gmap string node) : list file :=
  if dir_exists d m
  then omap as_file
         (map_to_list (filter (fun e => Is_true (listed d (fst e))) m))
  else [].

(** Writing to [p]: it fails when a file is in the place of a directory
    above [p], or a directory in the place of [p]. *)
Definition write_file (p content : string) (m : gmap string node)
  : result (gmap string node) :=
  if blocked p m then Raise (OSError ["Not a directory"; p])
  else if dir_exists p m then Raise (IOError ["Is a directory"; p])
  else Ok (write p content m).

(** Modelled from the spec: [Page.mk()] of [mynt.containers] and [mynt.fs],
    which are not among the sources ("write every page's content to its
    destination path, creating intermediate directories as needed").  The
    page is written only when no file is at its path yet. *)
Definition page_mk (m : gmap string node) (pg : Page) : result (gmap string node) :=
  match m !! page_path pg with
  | Some (File _) => Ok m
  | _ => write_file (page_path pg) (page_content pg) m
  end.

(** Modelled from the spec: [File(a).cp(p)] ("copy the asset tree
    verbatim").  The content is read when the copy is made, and a file at
    [p] is written over. *)
Definition cp (a p : string) (m : gmap string node) : result (gmap string node) :=
  match m !! a with
  | Some (File c) => write_file p c m
  | _ => Raise (IOError ["No such file or directory"; a])
  end.

(* ===================================================================== *)
(** * The collaborators *)
(* ===================================================================== *)

(** The command line, after [_get_opts]. *)
Record options : Type := {
  opt_src : string;
  opt_dest : string;
  opt_level : string;
  opt_force : bool;
  opt_base_url : option string
}.

(** What has been handed to [renderer.register]. *)
Record registered : Type := {
  reg_site : option config;
  reg_posts : option (list data);
  reg_tags : option Tags
}.

(** The second argument of [renderer.render]. *)
Inductive context : Type :=
| NoContext
| PostContext (p : data)
| TagContext (t : tag).

(** Everything [core.py] imports or loads through an entry point, and
    [unicode.lower], whose case table is the interpreter's.  The renderer is
    created on the source directory and sees the tree beneath it; it and the
    parser are functions of their arguments. *)
Record backends : Type := {
  lower : string -> string;
  normpath : list string -> string;
  extension : string -> string;
  strftime_other : datetime -> string -> string;
  iteritems_order : list placeholder;
  timegm : datetime -> Z;
  Post : file -> result post;
  Config : string -> result (config -> config);
  parse : string -> result string;
  from_string : registered -> gmap string node -> string -> frontmatter -> result string;
  render : registered -> gmap string node -> string -> context -> result string;
  lexer : Type;
  get_lexer_by_name : string -> result lexer;
  highlight : string -> lexer -> HtmlFormatter -> string
}.

(* ===================================================================== *)
(** * The class [Mynt] *)
(* ===================================================================== *)

(** The attributes of the class object.  [_parser] and [_renderer] stay
    [None] there; [archives] stays the empty list. *)
Record class_attrs : Type := {
  cls_config : config;
  cls_archives : list data;
  cls_pages : list Page;
  cls_posts : list data;
  cls_tags : Tags
}.

(** The class as the module defines it. *)
Definition Mynt_class : class_attrs :=
  {| cls_config :=
       {| assets_url := "/assets"; base_url := "/"; date_format := "%A, %B %d, %Y";
          markup := "markdown"; parser := "misaka";
          posts_url := "/<year>/<month>/<day>/<title>/"; pygmentize := true;
          renderer := "jinja"; tag_layout := None; tags_url := "/" |};
     cls_archives := [];
     cls_pages := [];
     cls_posts := [];
     cls_tags := [] |}.

(** The attributes of an instance: what [__init__] and the methods assign
    on [self].  [self_archives] is [None] until [_parse] assigns it;
    [self_registered] is the state of the instance's renderer. *)
Record Mynt : Type := {
  opts : options;
  src : string;
  dest : string;
  self_archives : option Archives;
  self_registered : registered
}.

(** Attribute lookup, [self.name]: the instance first, then the class.
    Only [archives] is ever assigned on an instance. *)
Inductive archives_attr : Type :=
| ClassArchives (l : list data)
| OwnArchives (a : Archives).

Definition archives (cls : class_attrs) (self : Mynt) : archives_attr :=
  match self_archives self with
  | Some a => OwnArchives a
  | None => ClassArchives (cls_archives cls)
  end.

Definition posts (cls : class_attrs) (self : Mynt) : list data := cls_posts cls.
Definition pages (cls : class_attrs) (self : Mynt) : list Page := cls_pages cls.
Definition tags (cls : class_attrs) (self : Mynt) : Tags := cls_tags cls.

Definition with_collections (cls : class_attrs) (pg : list Page) (ps : list data)
    (T : Tags) : class_attrs :=
  {| cls_config := cls_config cls; cls_archives := cls_archives cls;
     cls_pages := pg; cls_posts := ps; cls_tags := T |}.

Definition with_config (cls : class_attrs) (c : config) : class_attrs :=
  {| cls_config := c; cls_archives := cls_archives cls;
     cls_pages := cls_pages cls; cls_posts := cls_posts cls; cls_tags := cls_tags cls |}.

Definition register_index (self : Mynt) (ps : list data) (T : Tags) : Mynt :=
  {| opts := opts self; src := src self; dest := dest self;
     self_archives := self_archives self;
     self_registered := {| reg_site := reg_site (self_registered self);
                           reg_posts := Some ps; reg_tags := Some T |} |}.

Definition set_archives (self : Mynt) (a : Archives) : Mynt :=
  {| opts := opts self; src := src self; dest := dest self;
     self_archives := Some a; self_registered := self_registered self |}.

Section Pipeline.
Variable B : backends.

(** The search for [config.yml], then [config.yaml], in [__init__]; the
    first file found is loaded and ends the search. *)
Fixpoint load_config (exts : list string) (src_path : string)
    (m : gmap string node) (c : config) : result config :=
  match exts with
  | [] => Ok c
  | ext :: exts' =>
      let path := normpath B [src_path; "config" +:+ ext] in
      match m !! path with
      | Some (File content) =>
          match Config B content with
          | Ok upd => Ok (upd c)
          | Raise (ConfigException args) =>
              Raise (ConfigException [hd "" args; "src: " +:+ path])
          | Raise e => Raise e
          end
      | _ => load_config exts' src_path m c
      end
  end.

Definition is_root (p : string) : bool := String.eqb p "/" || String.eqb p "//".

(** [Mynt(args)].  [self.config.update] and [self.config[opt] = ...] change
    the dictionary of the class. *)
Definition __init__ (m : gmap string node) (cls : class_attrs) (o : options)
  : result (class_attrs * Mynt) :=
  if String.eqb (opt_src o) (opt_dest o)
  then Raise (OptionException ["Source and destination must differ."])
  else if is_root (opt_src o) || is_root (opt_dest o)
  then Raise (OptionException ["Root is not a valid source or destination."])
  else
    c ← load_config [".yml"; ".yaml"] (opt_src o) m (cls_config cls);
    let c := match opt_base_url o with Some u => set_base_url u c | None => c end in
    Ok (with_config cls c,
        {| opts := o; src := opt_src o; dest := opt_dest o;
           self_archives := None;
           self_registered := {| reg_site := Some c; reg_posts := None; reg_tags := None |} |}).

(** [self.tags[name].append(d)]. *)
Definition tags_append (name : string) (d : data) (T : Tags) : result Tags :=
  match tags_get name T with
  | Some (TagPosts l) => Ok (tags_set name (TagPosts (l ++ [d])) T)
  | Some (TagData _) => Raise (AttributeError ["'dict' object has no attribute 'append'"])
  | None => Raise (KeyError [name])
  end.

(** The body of [for tag in data['tags']]. *)
Definition index_tag (d : data) (T : Tags) (name : string) : result Tags :=
  let T := if tags_contains name T then T else tags_set name (TagPosts []) T in
  tags_append name d T.

(** The body of [for f in path] in [_parse]. *)
Definition parse_file (c : config) (self : Mynt) (m : gmap string node)
    (st : list data * Tags) (f : file) : result (list data * Tags) :=
  p ← Post B f;
  text ← from_string B (self_registered self) (subtree (src self) m)
           (post_bodymatter p) (post_frontmatter p);
  content ← parse B text;
  excerpt ← excerpt_of content;
  date_text ← strftime (strftime_other B) (post_date p) (date_format c);
  url ← _get_post_url (strftime_other B) (iteritems_order B) (posts_url c)
          (post_date p) (post_slug p);
  let d := {| data_content := content; data_date := date_text;
              data_excerpt := excerpt; data_tags := [];
              data_timestamp := timegm B (post_date p); data_url := url;
              data_title := None; data_layout := None; data_extra := [] |} in
  let d := update d (post_frontmatter p) in
  let d := {| data_content := data_content d; data_date := data_date d;
              data_excerpt := data_excerpt d;
              data_tags := sort_by String.leb (lower B) false (data_tags d);
              data_timestamp := data_timestamp d; data_url := data_url d;
              data_title := data_title d; data_layout := data_layout d;
              data_extra := data_extra d |} in
  T ← for_each (index_tag d) (data_tags d) (snd st);
  Ok (fst st ++ [d], T).

(** The body of [for name, posts in self.tags]. *)
Definition collect_tag (c : config) (sorting : list tag) (e : string * tag_value)
  : result (list tag) :=
  match snd e with
  | TagPosts ps =>
      let ps := sort_by Z.leb data_timestamp true ps in
      Ok (sorting ++ [{| tag_name := fst e; tag_count := length ps;
                         tag_posts := ps;
                         tag_url := _get_tag_url (tags_url c) (fst e) |}])
  | TagData _ => Raise (AttributeError ["'dict' object has no attribute 'sort'"])
  end.

(** The two sorts of [sorting], by name and then by count. *)
Definition sort_tags (sorting : list tag) : list tag :=
  sort_by Nat.leb tag_count true
    (sort_by String.leb (fun t => lower B (tag_name t)) false sorting).

(** [self.tags.clear()] and [for tag in sorting: self.tags[tag['name']] = tag]. *)
Definition store_tags (sorting : list tag) : Tags :=
  fold_left (fun T t => tags_set (tag_name t) (TagData t) T) sorting [].

Definition _parse (m : gmap string node) (cls : class_attrs) (self : Mynt)
  : result (class_attrs * Mynt) :=
  let c := cls_config cls in
  let path := normpath B [src self; "_posts"] in
  st ← for_each (parse_file c self m) (listing path m) (cls_posts cls, cls_tags cls);
  match fst st with
  | [] => Ok (with_collections cls (cls_pages cls) (fst st) (snd st), self)
  | _ :: _ =>
      let ps := sort_by Z.leb data_timestamp true (fst st) in
      let self := set_archives self {| archived := ps |} in
      sorting ← for_each (collect_tag c) (snd st) [];
      Ok (with_collections cls (cls_pages cls) ps (store_tags (sort_tags sorting)), self)
  end.

Definition highlighted (c : config) (html : string) : result string :=
  _pygmentize (lexer B) (get_lexer_by_name B) (highlight B) (pygmentize c) html.

Definition required (k : string) (v : option string) : result string :=
  match v with
  | Some s => Ok s
  | None => Raise (KeyError [k])
  end.

(** The body of [for post in self.posts] in [_render]: a
    [RendererException] of the renderer or of the highlight pass is raised
    again with the layout and the title. *)
Definition render_post (c : config) (self : Mynt) (m : gmap string node)
    (pg : list Page) (p : data) : result (list Page) :=
  layout ← required "layout" (data_layout p);
  match html ← render B (self_registered self) (subtree (src self) m) layout
                 (PostContext p);
        highlighted c html with
  | Ok html =>
      Ok (pg ++ [{| page_path := _get_path (normpath B) (dest self) (data_url p);
                    page_content := html |}])
  | Raise (RendererException args) =>
      title ← required "title" (data_title p);
      Raise (RendererException
               [hd "" args; layout +:+ " in post '" +:+ title +:+ "'"])
  | Raise e => Raise e
  end.

Definition is_template (ext : string) : bool :=
  String.eqb ext ".html" || String.eqb ext ".htm" || String.eqb ext ".xml".

(** The body of [for f in self.src]. *)
Definition render_template (c : config) (self : Mynt) (m : gmap string node)
    (pg : list Page) (f : file) : result (list Page) :=
  if negb (is_template (extension B (file_path f))) then Ok pg
  else
    let template := Py.replace (src self) "" (file_path f) in
    html ← render B (self_registered self) (subtree (src self) m) template NoContext;
    html ← highlighted c html;
    Ok (pg ++ [{| page_path := normpath B [dest self; template];
                  page_content := html |}]).

(** The body of [for name, data in self.tags]. *)
Definition render_tag (c : config) (self : Mynt) (m : gmap string node)
    (layout : string) (pg : list Page) (e : string * tag_value) : result (list Page) :=
  match snd e with
  | TagData t =>
      html ← render B (self_registered self) (subtree (src self) m) layout
               (TagContext t);
      html ← highlighted c html;
      Ok (pg ++ [{| page_path := _get_path (normpath B) (dest self) (tag_url t);
                    page_content := html |}])
  | TagPosts _ => Raise (TypeError ["list indices must be integers, not unicode"])
  end.

(** The truth value of [self.config['tag_layout'] and self.tags]. *)
Definition tag_pages_wanted (c : config) (T : Tags) : option string :=
  match tag_layout c, T with
  | Some layout, _ :: _ => if String.eqb layout "" then None else Some layout
  | _, _ => None
  end.

Definition _render (m : gmap string node) (cls : class_attrs) (self : Mynt)
  : result (class_attrs * Mynt) :=
  st ← _parse m cls self;
  let cls := fst st in
  let c := cls_config cls in
  let self := register_index (snd st) (cls_posts cls) (cls_tags cls) in
  pg ← for_each (render_post c self m) (cls_posts cls) (cls_pages cls);
  pg ← for_each (render_template c self m) (listing (src self) m) pg;
  pg ← match tag_pages_wanted c (cls_tags cls) with
       | Some layout => for_each (render_tag c self m layout) (cls_tags cls) pg
       | None => Ok pg
       end;
  Ok (with_collections cls pg (cls_posts cls) (cls_tags cls), self).

(** The body of [for page in self.pages]: the tree so far and how the
    loop ended. *)
Fixpoint write_pages (pgs : list Page) (m : gmap string node)
  : gmap string node * result unit :=
  match pgs with
  | [] => (m, Ok tt)
  | pg :: pgs' =>
      match page_mk m pg with
      | Ok m' => write_pages pgs' m'
      | Raise e => (m, Raise e)
      end
  end.

(** The body of [for asset in assets_src]. *)
Fixpoint copy_assets (assets_src assets_dest : string) (assets : list file)
    (m : gmap string node) : gmap string node * result unit :=
  match assets with
  | [] => (m, Ok tt)
  | a :: assets' =>
      match cp (file_path a)
               (Py.replace assets_src assets_dest (file_path a)) m with
      | Ok m' => copy_assets assets_src assets_dest assets' m'
      | Raise e => (m, Raise e)
      end
  end.

(** The writing part of [generate]: every page, then the assets. *)
Definition materialize (m : gmap string node) (cls : class_attrs) (self : Mynt)
  : gmap string node * result (class_attrs * Mynt) :=
  let assets_src := normpath B [src self; "_assets"] in
  let assets_dest :=
    normpath B (dest self :: Py.split "/" (assets_url (cls_config cls))) in
  match write_pages (cls_pages cls) m with
  | (m, Raise e) => (m, Raise e)
  | (m, Ok _) =>
      if dir_exists assets_src m
      then match copy_assets assets_src assets_dest (listing assets_src m) m with
           | (m', Ok _) => (m', Ok (cls, self))
           | (m', Raise e) => (m', Raise e)
           end
      else (m, Ok (cls, self))
  end.

(** The places this run copies its assets to, and the paths it writes: its
    pages and those copies. *)
Definition copied (m : gmap string node) (cls : class_attrs) (self : Mynt)
  : list string :=
  let assets_src := normpath B [src self; "_assets"] in
  let assets_dest :=
    normpath B (dest self :: Py.split "/" (assets_url (cls_config cls))) in
  map (fun a => Py.replace assets_src assets_dest (file_path a))
      (listing assets_src (fst (write_pages (cls_pages cls) m))).

Definition written (m : gmap string node) (cls : class_attrs) (self : Mynt)
  : list string :=
  map page_path (cls_pages cls) ++ copied m cls self.

(** [generate()].  The result is the tree the call leaves behind and how the
    call ended. *)
Definition generate (m : gmap string node) (cls : class_attrs) (self : Mynt)
  : gmap string node * result (class_attrs * Mynt) :=
  match _render m cls self with
  | Raise e => (m, Raise e)
  | Ok st =>
      let cls := fst st in
      let self := snd st in
      if dir_exists (dest self) m && negb (opt_force (opts self))
      then (m, Raise (OptionException
                        ["Destination already exists.";
                         "the -f option must be used to force generation by deleting the destination"]))
      else
        let m := if dir_exists (dest self) m then rm (dest self) m else m in
        match mk (dest self) m with
        | Ok m => materialize m cls self
        | Raise e => (m, Raise e)
        end
  end.

(** One run of the program: an instance is made and asked to generate. *)
Definition run (m : gmap string node) (cls : class_attrs) (o : options)
  : gmap string node * result (class_attrs * Mynt) :=
  match __init__ m cls o with
  | Raise e => (m, Raise e)
  | Ok st => generate m (fst st) (snd st)
  end.


End Pipeline.


(* ===================================================================== *)
(** * A small site for the examples *)
(* ===================================================================== *)

(** The number a text of digits writes. *)
Definition nat_of_digits (s : string) : nat :=
  fold_left (fun n c => 10 * n + (nat_of_ascii c - 48)) (list_ascii_of_string s) 0.

Definition sample_extension (p : string) : string :=
  if Py.endswith p ".html" then ".html"
  else if Py.endswith p ".xml" then ".xml"
  else if Py.endswith p ".md" then ".md"
  else "".

(** A post file of the examples reads [year|month|day|slug|tags|body], the
    tags separated by commas. *)
Definition sample_Post (f : file) : result post :=
  match Py.split "|" (file_content f) with
  | [y; mo; dy; slug; tgs; body] =>
      Ok {| post_frontmatter :=
              {| fm_title := Some slug; fm_layout := Some "post.html";
                 fm_tags := if String.eqb tgs "" then None else Some (Py.split "," tgs);
                 fm_content := None; fm_date := None; fm_excerpt := None;
                 fm_timestamp := None; fm_url := None; fm_extra := [] |};
            post_bodymatter := body;
            post_date := {| year := nat_of_digits y; month := nat_of_digits mo;
                            day := nat_of_digits dy |};
            post_slug := slug |}
  | _ => Raise (PostException ["Invalid post filename."])
  end.

(** A configuration file of the examples names the tag layout, or nothing. *)
Definition sample_Config (content : string) : result (config -> config) :=
  Ok (fun c =>
        {| assets_url := assets_url c; base_url := base_url c;
           date_format := "%Y-%m-%d"; markup := markup c; parser := parser c;
           posts_url := posts_url c; pygmentize := pygmentize c;
           renderer := renderer c;
           tag_layout := if String.eqb content "" then None else Some content;
           tags_url := tags_url c |}).

(** A renderer that shows the template, how many posts are registered and
    what the context holds; the template [broken.html] does not render. *)
Definition sample_render (r : registered) (view : gmap string node)
    (template : string) (ctx : context) : result string :=
  if String.eqb template "broken.html"
  then Raise (RendererException ["unexpected end of template"])
  else Ok (template +:+ " posts=" +:+
           str_of_nat (length (default [] (reg_posts r))) +:+
           match ctx with
           | NoContext => ""
           | PostContext p => " post=" +:+ data_url p +:+ " " +:+ data_content p
           | TagContext t => " tag=" +:+ tag_name t +:+ " count=" +:+ str_of_nat (tag_count t)
           end).

(** A stand-in for [calendar.timegm] that is monotone in the date. *)
Definition sample_timegm (d : datetime) : Z :=
  (Z.of_nat ((year d * 12 + month d) * 31 + day d) * 86400)%Z.

Definition sample_backends : backends :=
  {| lower := Py.lower;
     normpath := sample_normpath;
     extension := sample_extension;
     strftime_other := sample_other;
     iteritems_order := sample_order;
     timegm := sample_timegm;
     Post := sample_Post;
     Config := sample_Config;
     parse := fun text => Ok ("<p>" +:+ text +:+ "</p>");
     from_string := fun _ _ body _ => Ok body;
     render := sample_render;
     lexer := string;
     get_lexer_by_name := sample_get_lexer_by_name;
     highlight := sample_highlight |}.

(** Two names outside ASCII: the capital E with acute accent and the small
    a with grave accent. *)
Definition E_acute : string := String (ascii_of_nat 201) "".
Definition a_grave : string := String (ascii_of_nat 224) "".

(** The source tree of the specification's scenario: two posts, tagged
    [go, Systems] and [go], one page template, a tag layout and an asset. *)
Definition sample_tree : gmap string node :=
  list_to_map
    [ ("site/config.yml", File "tag.html");
      ("site/_posts/2020-01-05-first.md", File "2020|1|5|first|go,Systems|Hello");
      ("site/_posts/2021-03-02-second.md", File "2021|3|2|second|go|World");
      ("site/index.html", File "{{ posts }}");
      ("site/_assets/style.css", File "body {}") ].

(** A source tree whose one post has no tag. *)
Definition plain_tree : gmap string node :=
  list_to_map
    [ ("site/_posts/2020-01-05-first.md", File "2020|1|5|first||Hello");
      ("site/index.html", File "{{ posts }}") ].

Definition sample_options (force : bool) : options :=
  {| opt_src := "site"; opt_dest := "out"; opt_level := "INFO";
     opt_force := force; opt_base_url := None |}.

(** An instance with nothing assigned yet. *)
Definition blank_self (o : options) : Mynt :=
  {| opts := o; src := opt_src o; dest := opt_dest o; self_archives := None;
     self_registered := {| reg_site := None; reg_posts := None; reg_tags := None |} |}.

Definition or_blank (o : options) (r : result (class_attrs * Mynt))
  : class_attrs * Mynt :=
  match r with
  | Ok st => st
  | Raise _ => (Mynt_class, blank_self o)
  end.

(** The class and the instance after [Mynt(args)] on the sample tree, and
    after [_parse]. *)
Definition sample_started : class_attrs * Mynt :=
  Eval vm_compute in
    or_blank (sample_options true)
      (__init__ sample_backends sample_tree Mynt_class (sample_options true)).

Definition sample_parsed : class_attrs * Mynt :=
  Eval vm_compute in
    or_blank (sample_options true)
      (_parse sample_backends sample_tree (fst sample_started) (snd sample_started)).

Definition sample_entry (i : nat) : string * tag_value :=
  default ("", TagPosts []) (cls_tags (fst sample_parsed) !! i).

(** A tree in which the destination is there already, with a file of an
    earlier generation. *)
Definition stale_tree : gmap string node :=
  <["out/old.html" := File "old"]> plain_tree.

Definition stale_started (force : bool) : class_attrs * Mynt :=
  or_blank (sample_options force)
    (__init__ sample_backends stale_tree Mynt_class (sample_options force)).



(** A first run on the tree without tags: the instance, the tree the run
    leaves and the state it ends in; then an instance made afterwards in the
    same process. *)
Definition plain_started : class_attrs * Mynt :=
  Eval vm_compute in
    or_blank (sample_options true)
      (__init__ sample_backends plain_tree Mynt_class (sample_options true)).

Definition first_tree : gmap string node :=
  Eval vm_compute in
    fst (run sample_backends plain_tree Mynt_class (sample_options true)).

Definition first_state : class_attrs * Mynt :=
  Eval vm_compute in
    or_blank (sample_options true)
      (snd (run sample_backends plain_tree Mynt_class (sample_options true))).

Definition second_started : class_attrs * Mynt :=
  Eval vm_compute in
    or_blank (sample_options true)
      (__init__ sample_backends first_tree (fst first_state) (sample_options true)).

(* ===================================================================== *)
(** * Notions the further properties are stated with *)
(* ===================================================================== *)

(** The order [sort(key = timestamp, reverse = True)] leaves posts in. *)
Definition newest_first (a b : data) : Prop :=
  (data_timestamp b <= data_timestamp a)%Z.

(** The order [sort(key = unicode.lower)] leaves names in. *)
Definition lower_le (lower : string -> string) (a b : string) : Prop :=
  String.leb (lower a) (lower b) = true.


(** [p in s] for texts: [p] occurs somewhere in [s]. *)
Fixpoint occurs (p s : string) : bool :=
  Py.startswith s p ||
  match s with
  | EmptyString => false
  | String _ s' => occurs p s'
  end.

(** What [collect_tag] makes of an entry of the collection. *)
Definition collected (c : config) (e : string * tag_value) (t : tag) : Prop :=
  exists l, e = (tag_name t, TagPosts l) /\
            tag_posts t = sort_by Z.leb data_timestamp true l /\
            tag_count t = length (tag_posts t) /\
            tag_url t = _get_tag_url (tags_url c) (tag_name t).

(** The state of the index while the posts are read: under every name the
    collection holds the list of the posts read so far that carry it, and
    every name a post carries is there.  While the tags of the post [d] are
    gone through, [d] is under the names already [seen]. *)
Definition index_during (ps : list data) (d : data) (seen : list string)
    (T : Tags) : Prop :=
  (forall n v, tags_get n T = Some v ->
     exists l, v = TagPosts l /\
       forall p, p ∈ l <-> (p ∈ ps /\ n ∈ data_tags p) \/ (p = d /\ n ∈ seen)) /\
  (forall p n, p ∈ ps -> n ∈ data_tags p -> tags_get n T <> None) /\
  (forall n, n ∈ seen -> tags_get n T <> None) /\
  NoDup (keys T).

Definition index_of (ps : list data) (T : Tags) : Prop :=
  (forall n v, tags_get n T = Some v ->
     exists l, v = TagPosts l /\ forall p, p ∈ l <-> p ∈ ps /\ n ∈ data_tags p) /\
  (forall p n, p ∈ ps -> n ∈ data_tags p -> tags_get n T <> None) /\
  NoDup (keys T).

(** The paths of the pages [_render] makes: for the posts, for the template
    files of the source and for the tags. *)
Definition post_paths (B : backends) (self : Mynt) (ps : list data) : list string :=
  flat_map (fun p => [_get_path (normpath B) (dest self) (data_url p)]) ps.

Definition template_paths (B : backends) (self : Mynt) (fs : list file) : list string :=
  flat_map (fun f => if is_template (extension B (file_path f))
                     then [normpath B [dest self; Py.replace (src self) "" (file_path f)]]
                     else []) fs.

Definition tag_paths (B : backends) (self : Mynt) (T : Tags) : list string :=
  flat_map (fun e => match snd e with
                     | TagData t => [_get_path (normpath B) (dest self) (tag_url t)]
                     | TagPosts _ => []
                     end) T.

(** A file is at the path. *)
Definition is_file (p : string) (m : gmap string node) : Prop :=
  exists c, m !! p = Some (File c).

(** Escaping only the characters that [which] selects: the texts between
    [escape] and the original while the entities are replaced one kind after
    the other. *)
Definition entity_of (c : ascii) : option string :=
  if Ascii.eqb c "&" then Some "&amp;"
  else if Ascii.eqb c ">" then Some "&gt;"
  else if Ascii.eqb c "<" then Some "&lt;"
  else if Ascii.eqb c (ascii_of_nat 34) then Some "&quot;"
  else None.

Fixpoint escape_only (which : ascii -> bool) (s : string) : string :=
  match s with
  | EmptyString => EmptyString
  | String c s' =>
      match entity_of c with
      | Some e => if which c then e +:+ escape_only which s'
                  else String c (escape_only which s')
      | None => String c (escape_only which s')
      end
  end.

(** The groups that take part in every match of a pattern. *)
Fixpoint always_captured (r : Re.regex) : list nat :=
  match r with
  | Re.Bos | Re.Lit _ | Re.Rep _ _ _ | Re.Opt _ => []
  | Re.Cat r1 r2 => always_captured r1 ++ always_captured r2
  | Re.Group n r' => n :: always_captured r'
  end.

(** What the file system raises. *)
Definition io_error (e : exn) : Prop :=
  (exists args, e = IOError args) \/ (exists args, e = OSError args).

(** More of the sample site: a source without posts, a class that already
    holds a finished tag, and the sample tree with a second configuration
    file. *)
Definition empty_site : gmap string node :=
  list_to_map [ ("site/index.html", File "{{ posts }}") ].

Definition tagged_class : class_attrs :=
  with_collections Mynt_class [] []
    [("go", TagData {| tag_name := "go"; tag_count := 0; tag_posts := [];
                       tag_url := "//go/" |})].

Definition yaml_tree : gmap string node :=
  <["site/config.yaml" := File "other.html"]> sample_tree.

Definition sample_post : data :=
  default {| data_content := ""; data_date := ""; data_excerpt := None;
             data_tags := []; data_timestamp := 0%Z; data_url := "";
             data_title := None; data_layout := None; data_extra := [] |}
          (head (cls_posts (fst sample_parsed))).

Definition first_page : Page :=
  default {| page_path := ""; page_content := "" |} (head (cls_pages (fst first_state))).

(** A post whose layout is the template that does not render. *)
Definition broken_post : data :=
  {| data_content := "<p>Soon</p>"; data_date := ""; data_excerpt := None;
     data_tags := []; data_timestamp := 0%Z; data_url := "/draft/";
     data_title := Some "Draft"; data_layout := Some "broken.html";
     data_extra := [] |}.

(* ===================================================================== *)
(** * Properties *)
(* ===================================================================== *)

Example get_tag_url_dir : _get_tag_url "/tags/" "go" = "/tags//go/".
Proof. reflexivity. Qed.
Example get_tag_url_default : _get_tag_url "/" "go" = "//go/".
Proof. reflexivity. Qed.
Example get_tag_url_file : _get_tag_url "/tag" "go" = "/tag/go.html".
Proof. reflexivity. Qed.
Example split_trailing : Py.split "/" "/2020/01/" = [""; "2020"; "01"; ""].
Proof. reflexivity. Qed.
Example get_path_dir :
  _get_path sample_normpath "out" "/2020/01/05/hello/" = "out/2020/01/05/hello/index.html".
Proof. vm_compute. reflexivity. Qed.
Example get_path_file :
  _get_path sample_normpath "out" "/tag/go.html" = "out/tag/go.html".
Proof. vm_compute. reflexivity. Qed.

Ltac step_bind H :=
  repeat match type of H with
         | mbind _ ?r = Ok _ =>
             let E := fresh "E" in destruct r eqn:E; cbn in H; [|discriminate]
         end.

(** ** Facts about the string methods *)

#[local] Arguments String.append !_ _ / : simpl nomatch.

Lemma append_nil_r (s : string) : s +:+ "" = s.
Proof. induction s as [|c s IH]; simpl; [reflexivity | by rewrite IH]. Qed.

Lemma append_assoc (a b c : string) : (a +:+ b) +:+ c = a +:+ b +:+ c.
Proof. induction a as [|x a IH]; simpl; [reflexivity | by rewrite IH]. Qed.

Lemma append_length (a b : string) :
  String.length (a +:+ b) = String.length a + String.length b.
Proof. induction a as [|x a IH]; simpl; [reflexivity | by rewrite IH]. Qed.

(** [endswith] decides "is of the form [a +:+ p]". *)
Lemma endswith_spec (s p : string) :
  Py.endswith s p = true <-> exists a, s = a +:+ p.
Proof.
  split.
  - induction s as [|c s IH]; cbn [Py.endswith]; intros H.
    + apply orb_true_iff in H as [H|H]; [|discriminate].
      apply String.eqb_eq in H. exists "". by subst.
    + apply orb_true_iff in H as [H|H].
      * apply String.eqb_eq in H. exists "". by subst.
      * destruct (IH H) as [a ->]. by exists (String c a).
  - intros [a ->]. induction a as [|c a IH].
    + destruct p; cbn [Py.endswith String.append]; by rewrite String.eqb_refl.
    + cbn [Py.endswith String.append]. rewrite IH. apply orb_true_r.
Qed.

Lemma endswith_false_spec (s p : string) :
  Py.endswith s p = false <-> ~ exists a, s = a +:+ p.
Proof.
  rewrite <- endswith_spec. destruct (Py.endswith s p); split; congruence.
Qed.

Lemma split_nonempty (sep : ascii) (s : string) : Py.split sep s <> [].
Proof.
  induction s as [|c s IH]; simpl; [discriminate|].
  destruct (Ascii.eqb c sep); [discriminate|].
  destruct (Py.split sep s); [contradiction | discriminate].
Qed.

(** Splitting a text that has a separator in the middle: the pieces of the
    two halves, one after the other. *)
Lemma split_app (sep : ascii) (a b : string) :
  Py.split sep (a +:+ String sep b) = Py.split sep a ++ Py.split sep b.
Proof.
  induction a as [|c a IH]; simpl.
  - by rewrite Ascii.eqb_refl.
  - destruct (Ascii.eqb c sep); [by rewrite IH|].
    rewrite IH. pose proof (split_nonempty sep a) as Hne.
    destruct (Py.split sep a); [contradiction | reflexivity].
Qed.

(** A text that ends with the separator has an empty last piece. *)
Lemma split_trailing_sep (sep : ascii) (a : string) :
  Py.split sep (a +:+ String sep "") = Py.split sep a ++ [""].
Proof. by rewrite split_app. Qed.

(** Joining the pieces with the separator gives the text back. *)
Lemma join_split (s : string) : join_segments (Py.split "/" s) = s.
Proof.
  induction s as [|c s IH]; [reflexivity|].
  simpl. pose proof (split_nonempty "/" s) as Hne.
  destruct (Ascii.eqb_spec c "/") as [->|Hc].
  - destruct (Py.split "/" s) eqn:E; [contradiction|].
    change (join_segments ("" :: s0 :: l)) with ("" +:+ "/" +:+ join_segments (s0 :: l)).
    by rewrite IH.
  - destruct (Py.split "/" s) as [|h t] eqn:E; [contradiction|].
    destruct t; simpl in *; by rewrite <- IH.
Qed.

(** ** C4: the tag URL *)

(** C4.  The tag URL is the [tags_url] pattern, a ["/"], the tag name and an
    ending: ["/"] when the pattern ends with ["/"] (the name becomes a path
    segment of its own, itself closed by ["/"]), [".html"] otherwise.  In both
    cases the segments of the URL are those of the pattern followed by those
    of the name with its ending. *)
Theorem get_tag_url_shape (tags_url name : string) :
  ((exists a, tags_url = a +:+ "/") /\
   _get_tag_url tags_url name = tags_url +:+ "/" +:+ name +:+ "/" /\
   Py.endswith (_get_tag_url tags_url name) "/" = true /\
   Py.split "/" (_get_tag_url tags_url name)
     = Py.split "/" tags_url ++ Py.split "/" name ++ [""])
  \/
  ((~ exists a, tags_url = a +:+ "/") /\
   _get_tag_url tags_url name = tags_url +:+ "/" +:+ name +:+ ".html" /\
   Py.split "/" (_get_tag_url tags_url name)
     = Py.split "/" tags_url ++ Py.split "/" (name +:+ ".html")).
Proof.
  unfold _get_tag_url.
  destruct (Py.endswith tags_url "/") eqn:E.
  - left. split; [by apply endswith_spec|]. split; [reflexivity|]. split.
    + apply endswith_spec. exists (tags_url +:+ "/" +:+ name).
      by rewrite !append_assoc.
    + change (tags_url +:+ "/" +:+ name +:+ "/")
        with (tags_url +:+ String "/" (name +:+ String "/" "")).
      by rewrite split_app, split_trailing_sep.
  - right. split; [by apply endswith_false_spec|]. split; [reflexivity|].
    change (tags_url +:+ "/" +:+ name +:+ ".html")
      with (tags_url +:+ String "/" (name +:+ ".html")).
    by rewrite split_app.
Qed.

(** ** C9: the destination path of a URL *)

(** C9.  The path of a page is [normpath] applied to the destination root
    followed by the ["/"]-separated segments of the URL; ["index.html"] is one
    more, last component exactly when the URL ends with ["/"], and nothing is
    added otherwise. *)
Theorem get_path_index (normpath : list string -> string) (dest_path url : string) :
  ((exists a, url = a +:+ "/") /\
   _get_path normpath dest_path url
     = normpath (dest_path :: Py.split "/" url ++ ["index.html"]) /\
   last (dest_path :: Py.split "/" url ++ ["index.html"]) = Some "index.html")
  \/
  ((~ exists a, url = a +:+ "/") /\
   _get_path normpath dest_path url = normpath (dest_path :: Py.split "/" url)).
Proof.
  unfold _get_path.
  destruct (Py.endswith url "/") eqn:E.
  - left. split; [by apply endswith_spec|]. split; [reflexivity|].
    rewrite app_comm_cons. apply last_snoc.
  - right. split; [by apply endswith_false_spec|]. reflexivity.
Qed.

(** ** The excerpt and the highlight pass on small inputs *)

Example excerpt_leading_paragraph :
  excerpt_of "<p>Hello</p><p>World</p>" = Ok (Some "<p>Hello</p>").
Proof. vm_compute. reflexivity. Qed.

Example unescape_plain : unescape "a &lt; b &amp;&amp; c &gt; d" = "a < b && c > d".
Proof. vm_compute. reflexivity. Qed.

Example pygmentize_document :
  _pygmentize string sample_get_lexer_by_name sample_highlight true
    ("<p>x</p><pre lang=" +:+ dquote +:+ "python" +:+ dquote +:+ "><code>a &lt; b</code></pre>!")
  = Ok ("<p>x</p>" +:+ code_container "<table>python:a < b" +:+ "!").
Proof. vm_compute. reflexivity. Qed.

(** ** C7: the excerpt *)

(** The search never fails: the optional group lets the pattern match the
    empty text at offset 0. *)
Lemma excerpt_of_total (content : string) : exists e, excerpt_of content = Ok e.
Proof.
  unfold excerpt_of, Re.search.
  assert (exists a, Re.search_from excerpt_re 0 content = Some a) as [[stop caps] ->];
    [|by eauto].
  destruct content as [|c content]; cbn.
  - by eauto.
  - match goal with |- context [match ?x with Some _ => _ | None => _ end] =>
      destruct x; by eauto end.
Qed.

(** The lazy [.*?] never has to give a character to anything: when the
    content does not start with [<p>], the optional group just stays out of
    the match and the excerpt is [None]. *)
Lemma excerpt_none_unless_leading (content : string) :
  Py.startswith content "<p>" = false -> excerpt_of content = Ok None.
Proof.
  intros H. unfold excerpt_of, Re.search.
  destruct content as [|c content]; [reflexivity|].
  cbn. cbn in H. rewrite H. reflexivity.
Qed.

(** C7.  A content whose first paragraph comes after a heading: the
    specification's excerpt is the paragraph, the source's is [None]. *)
Theorem excerpt_ignores_later_paragraph :
  first_paragraph "<h1>T</h1><p>Hello</p>" = Some "<p>Hello</p>" /\
  excerpt_of "<h1>T</h1><p>Hello</p>" = Ok None.
Proof. split; vm_compute; reflexivity. Qed.

(** ** C6: unescaping before highlighting *)

(** The specification's one-pass unescaping undoes the escaping. *)
Lemma unescape_once_escape (s : string) : unescape_once (escape s) = s.
Proof.
  unfold unescape_once. induction s as [|c s IH]; [reflexivity|].
  cbn [escape].
  destruct (Ascii.eqb_spec c "&") as [->|H1]; [cbn; by rewrite IH|].
  destruct (Ascii.eqb_spec c ">") as [->|H2]; [cbn; by rewrite IH|].
  destruct (Ascii.eqb_spec c "<") as [->|H3]; [cbn; by rewrite IH|].
  destruct (Ascii.eqb_spec c (ascii_of_nat 34)) as [->|H4]; [cbn; by rewrite IH|].
  cbn [unescape_once_from find entities Py.startswith fst snd String.append].
  apply Ascii.eqb_neq in H1. rewrite (Ascii.eqb_sym "&" c), H1.
  by rewrite IH.
Qed.

(** C6.  The source replaces [&amp;] first, so the [&] it produces can
    start another entity: the escaped form of the text [&lt;] is handed to
    the lexer as [<]. *)
Theorem unescape_decodes_twice :
  escape "&lt;" = "&amp;lt;" /\
  unescape_once "&amp;lt;" = "&lt;" /\
  unescape "&amp;lt;" = "<".
Proof. repeat split; vm_compute; reflexivity. Qed.

(** ** C5: the fallback to the plain-text lexer *)

(** C5.  A matched block whose language has no registered lexer is
    highlighted with the lexer registered as ["text"], with a formatter whose
    line numbers are a table, and wrapped in the two-level container. *)
Theorem highlight_falls_back_to_text
    (lexer : Type) (get_lexer_by_name : string -> result lexer)
    (highlight : string -> lexer -> HtmlFormatter -> string)
    (m : Re.captures) (language code name : string) (text_lexer : lexer) :
  Re.group 1 m = Some language ->
  Re.group 2 m = Some code ->
  get_lexer_by_name language = Raise (ClassNotFound [name]) ->
  get_lexer_by_name "text" = Ok text_lexer ->
  _highlight lexer get_lexer_by_name highlight m
  = Ok ("<div class=" +:+ dquote +:+ "code" +:+ dquote +:+ "><div>"
        +:+ highlight (unescape code) text_lexer {| linenos := linenos_table |}
        +:+ "</div></div>").
Proof.
  intros H1 H2 Hl Ht. unfold _highlight, _highlight_groups.
  rewrite H1, H2, Hl. cbn. rewrite Ht. reflexivity.
Qed.

Lemma highlight_falls_back_to_text_witness :
  _highlight string sample_get_lexer_by_name sample_highlight
    [(2, "a &lt; b"); (1, "nosuchlang")]
  = Ok ("<div class=" +:+ dquote +:+ "code" +:+ dquote +:+ "><div>"
        +:+ sample_highlight (unescape "a &lt; b") "text" {| linenos := linenos_table |}
        +:+ "</div></div>").
Proof.
  apply (highlight_falls_back_to_text string sample_get_lexer_by_name sample_highlight
           [(2, "a &lt; b"); (1, "nosuchlang")] "nosuchlang" "a &lt; b" "nosuchlang" "text");
    reflexivity.
Defined.

(** ** C3: percent characters in the post URL pattern *)

(** *** Decimal digits *)

Lemma digit_char_is_digit (n : nat) : n < 10 -> is_digit (digit_char n) = true.
Proof.
  intros H. do 10 (destruct n as [|n]; [reflexivity|]). lia.
Qed.

Lemma digits_onto_spec (fuel n : nat) (acc : string) :
  all_digits acc = true ->
  (fuel = 0 -> acc <> "") ->
  all_digits (digits_onto fuel n acc) = true /\ digits_onto fuel n acc <> "".
Proof.
  revert n acc. induction fuel as [|fuel IH]; intros n acc Hacc Hne; cbn [digits_onto].
  - split; [assumption | by apply Hne].
  - assert (all_digits (String (digit_char (n mod 10)) acc) = true) as Hacc'.
    { cbn [all_digits]. rewrite digit_char_is_digit, Hacc; [reflexivity|].
      apply Nat.mod_upper_bound. lia. }
    destruct (n / 10 =? 0).
    + split; [assumption | discriminate].
    + apply IH; [assumption | discriminate].
Qed.

Lemma str_of_nat_digits (n : nat) :
  all_digits (str_of_nat n) = true /\ str_of_nat n <> "".
Proof. apply digits_onto_spec; [reflexivity | discriminate]. Qed.

Lemma two_digits_digits (n : nat) :
  all_digits (two_digits n) = true /\ two_digits n <> "".
Proof.
  unfold two_digits. destruct (str_of_nat_digits n) as [H1 H2].
  destruct (n <? 10); [|by split].
  cbn [String.append all_digits]. rewrite H1. split; [reflexivity | discriminate].
Qed.

(** *** Replacing, one occurrence at a time *)

Lemma replace_from_skip (n : nat) (old new s : string) :
  Py.replace_from n old new s = Py.replace_from 0 old new (Py.drop n s).
Proof.
  revert n. induction s as [|c s IH]; intros [|n]; try reflexivity.
  cbn [Py.replace_from Py.drop]. apply IH.
Qed.

Lemma replace_cons (o : ascii) (old new : string) (c : ascii) (s : string) :
  Py.replace (String o old) new (String c s)
  = if Py.startswith (String c s) (String o old)
    then new +:+ Py.replace (String o old) new (Py.drop (String.length (String o old)) (String c s))
    else String c (Py.replace (String o old) new s).
Proof.
  unfold Py.replace. cbn [Py.replace_from].
  destruct (Py.startswith (String c s) (String o old)); [|reflexivity].
  rewrite replace_from_skip.
  replace (String.length (String o old) - 1) with (String.length old)
    by (cbn [String.length]; lia).
  reflexivity.
Qed.

Lemma replace_nil (o : ascii) (old new : string) :
  Py.replace (String o old) new "" = "".
Proof. reflexivity. Qed.

Lemma drop_length_le (n : nat) (s : string) :
  String.length (Py.drop n s) <= String.length s - n.
Proof.
  revert s. induction n as [|n IH]; intros [|c s]; cbn; try lia. apply IH.
Qed.

(** *** Formats and what they print *)

Section Linked.
Variable other : datetime -> string -> string.
Variable d : datetime.

Lemma directive_code_digits (c : ascii) :
  date_code c ->
  all_digits (directive other d c) = true /\ directive other d c <> "".
Proof.
  intros [-> | [-> | ->]]; unfold directive; cbn [Ascii.eqb Bool.eqb];
    [apply str_of_nat_digits | apply two_digits_digits | apply two_digits_digits].
Qed.

Lemma linked_strftime (a b : string) :
  linked other d a b -> strftime_from other false d a = b.
Proof.
  induction 1 as [|c a b Hc _ IH|a b _ IH|c a b Hc _ IH]; cbn [strftime_from].
  - reflexivity.
  - apply Ascii.eqb_neq in Hc. by rewrite Hc, IH.
  - rewrite Ascii.eqb_refl. unfold directive. cbn [Ascii.eqb Bool.eqb]. by rewrite IH.
  - rewrite Ascii.eqb_refl. by rewrite IH.
Qed.

Lemma linked_app (a b a' b' : string) :
  linked other d a b -> linked other d a' b' -> linked other d (a +:+ a') (b +:+ b').
Proof.
  intros H H'. induction H as [|c a b Hc _ IH|a b _ IH|c a b Hc _ IH]; cbn [String.append].
  - assumption.
  - by constructor.
  - by constructor.
  - rewrite append_assoc. by constructor.
Qed.

(** A text without percent signs is a format that prints itself. *)
Lemma linked_plain (s : string) : Py.contains_char "%" s = false -> linked other d s s.
Proof.
  induction s as [|c s IH]; cbn [Py.contains_char]; intros H; [constructor|].
  apply orb_false_iff in H as [H1 H2]. apply Ascii.eqb_neq in H1.
  constructor; auto.
Qed.

Lemma digits_no_percent (s : string) :
  all_digits s = true -> Py.contains_char "%" s = false.
Proof.
  induction s as [|c s IH]; cbn [all_digits Py.contains_char]; intros H; [reflexivity|].
  apply andb_true_iff in H as [H1 H2]. rewrite (IH H2), orb_false_r.
  apply Ascii.eqb_neq. intros ->. discriminate.
Qed.

(** Escaping the percent signs of a pattern gives a format that prints the
    pattern. *)
Lemma linked_escape (p : string) : linked other d (Py.replace "%" "%%" p) p.
Proof.
  induction p as [|c p IH]; [constructor|].
  rewrite replace_cons. cbn [Py.startswith String.length Py.drop].
  destruct (Ascii.eqb_spec "%" c) as [<-|Hc].
  - cbn [String.append]. by constructor.
  - constructor; [congruence | assumption].
Qed.

(** *** Replacing a placeholder in a format and in what it prints *)

Lemma is_digit_neq (x c : ascii) :
is_digit x = false -> is_digit c = true -> Ascii.eqb x c = false.
Proof. intros Hx Hc. apply Ascii.eqb_neq. intros ->. congruence. Qed.

(** A text of plain characters starts a format exactly when it starts what
  the format prints, and what follows it is linked again. *)
Lemma linked_startswith (k a b : string) :
plain k = true -> linked other d a b ->
Py.startswith a k = Py.startswith b k /\
(Py.startswith a k = true ->
 linked other d (Py.drop (String.length k) a) (Py.drop (String.length k) b)).
Proof.
revert a b. induction k as [|x k IH]; intros a b Hk Hab.
- split; [reflexivity | intros _; exact Hab].
- cbn [plain] in Hk. apply andb_true_iff in Hk as [Hx Hk].
  unfold plain_char in Hx. apply andb_true_iff in Hx as [Hx1 Hx2].
  apply negb_true_iff in Hx1, Hx2.
  destruct Hab as [|c a b Hc Hab|a b Hab|c a b Hc Hab];
    cbn [Py.startswith String.length Py.drop].
  + split; [reflexivity | discriminate].
  + destruct (Ascii.eqb x c); [by apply IH | split; [reflexivity | discriminate]].
  + rewrite Hx1. split; [reflexivity | discriminate].
  + rewrite Hx1. destruct (directive_code_digits c Hc) as [Hd Hne].
    destruct (directive other d c) as [|dg D]; [contradiction|].
    cbn [String.append Py.startswith]. cbn [all_digits] in Hd.
    apply andb_true_iff in Hd as [Hd _].
    rewrite (is_digit_neq x dg Hx2 Hd). split; [reflexivity | discriminate].
Qed.

(** No occurrence of a key that starts with a plain character begins inside
  a run of digits. *)
Lemma replace_digits (x : ascii) (k v D s : string) :
is_digit x = false -> all_digits D = true ->
Py.replace (String x k) v (D +:+ s) = D +:+ Py.replace (String x k) v s.
Proof.
intros Hx. induction D as [|dg D IH]; cbn [all_digits String.append]; intros HD;
  [reflexivity|].
apply andb_true_iff in HD as [Hdg HD].
rewrite replace_cons. cbn [Py.startswith].
rewrite (is_digit_neq x dg Hx Hdg). by rewrite IH.
Qed.

Lemma linked_replace_bounded (n : nat) (x : ascii) (k v v' a b : string) :
plain (String x k) = true -> x <> "Y"%char -> x <> "m"%char -> x <> "d"%char ->
linked other d v v' ->
String.length a <= n ->
linked other d a b ->
linked other d (Py.replace (String x k) v a) (Py.replace (String x k) v' b).
Proof.
intros Hk HY Hm Hd Hv. revert a b.
assert (Ascii.eqb x "%" = false /\ is_digit x = false) as [Hx1 Hx2].
{ cbn [plain] in Hk. apply andb_true_iff in Hk as [Hx _].
  unfold plain_char in Hx. apply andb_true_iff in Hx as [Hx1 Hx2].
  by apply negb_true_iff in Hx1, Hx2. }
induction n as [|n IH]; intros a b Hn Hab.
- destruct Hab; cbn [String.length] in Hn; try lia. constructor.
- destruct (linked_startswith (String x k) a b Hk Hab) as [Hsw Hdrop].
  destruct Hab as [|c a b Hc Hab|a b Hab|c a b Hc Hab].
  + constructor.
  + rewrite !replace_cons, <- Hsw.
    destruct (Py.startswith (String c a) (String x k)) eqn:E.
    * apply linked_app; [assumption|]. apply IH; [|by apply Hdrop].
      pose proof (drop_length_le (String.length (String x k)) (String c a)) as Hle.
      cbn [String.length] in Hle, Hn |- *. lia.
    * apply linked_char; [assumption|]. apply IH; [|assumption].
      cbn [String.length] in Hn. lia.
  + rewrite (replace_cons x k v "%" (String "%" a)).
    rewrite (replace_cons x k v' "%" b).
    cbn [Py.startswith]. rewrite Hx1.
    rewrite (replace_cons x k v "%" a). cbn [Py.startswith]. rewrite Hx1.
    apply linked_percent. apply IH; [|assumption]. cbn [String.length] in Hn. lia.
  + rewrite (replace_cons x k v "%" (String c a)). cbn [Py.startswith]. rewrite Hx1.
    rewrite (replace_cons x k v c a). cbn [Py.startswith].
    assert (Ascii.eqb x c = false) as ->.
    { apply Ascii.eqb_neq. destruct Hc as [-> | [-> | ->]]; assumption. }
    destruct (directive_code_digits c Hc) as [HD _].
    rewrite replace_digits by assumption.
    apply linked_code; [assumption|]. apply IH; [|assumption].
    cbn [String.length] in Hn. lia.
Qed.

Lemma linked_replace (p : placeholder) (slug a b : string) :
Py.contains_char "%" slug = false ->
linked other d a b ->
linked other d (Py.replace (key p) (subs d slug p) a)
               (Py.replace (key p) (resolved d slug p) b).
Proof.
intros Hslug Hab.
assert (linked other d (subs d slug p) (resolved d slug p)) as Hv.
{ destruct p; cbn [subs resolved].
  - rewrite <- (append_nil_r (str_of_nat (year d))).
    apply (linked_code other d "Y" "" ""); [by left | constructor].
  - rewrite <- (append_nil_r (two_digits (month d))).
    apply (linked_code other d "m" "" ""); [by right; left | constructor].
  - rewrite <- (append_nil_r (two_digits (day d))).
    apply (linked_code other d "d" "" ""); [by right; right | constructor].
  - apply linked_plain, digits_no_percent, str_of_nat_digits.
  - apply linked_plain, digits_no_percent, str_of_nat_digits.
  - by apply linked_plain. }
destruct p; cbn [key];
  apply (linked_replace_bounded (String.length a)); auto; discriminate.
Qed.

Lemma linked_fold (order : list placeholder) (slug a b : string) :
Py.contains_char "%" slug = false ->
linked other d a b ->
linked other d
  (fold_left (fun link p => Py.replace (key p) (subs d slug p) link) order a)
  (fold_left (fun link p => Py.replace (key p) (resolved d slug p) link) order b).
Proof.
intros Hslug. revert a b.
induction order as [|p order IH]; intros a b Hab; cbn [fold_left]; [assumption|].
apply IH. by apply linked_replace.
Qed.

End Linked.

(** *** The resolved URL *)

Example post_url_default :
  _get_post_url sample_other sample_order "/<year>/<month>/<day>/<title>/"
    {| year := 2020; month := 1; day := 5 |} "hello"
  = Ok "/2020/01/05/hello/".
Proof. vm_compute. reflexivity. Qed.

Example post_url_percent :
  _get_post_url sample_other sample_order "/archive/100%/<title>/"
    {| year := 2020; month := 1; day := 5 |} "hello"
  = Ok "/archive/100%/hello/".
Proof. vm_compute. reflexivity. Qed.



(** What the escaping of line 138 achieves: when the slug has no percent
    sign and [strftime] takes the date, the resolved URL is the pattern with
    its placeholders replaced by what they stand for, every other character
    untouched, so that each percent sign of the pattern is in the URL as it
    was written. *)
Lemma post_url_keeps_percent
    (other : datetime -> string -> string) (order : list placeholder)
    (posts_url : string) (d : datetime) (slug : string) :
  Py.contains_char "%" slug = false ->
  1900 <= year d ->
  _get_post_url other order posts_url d slug = Ok (expand order posts_url d slug).
Proof.
  intros Hslug Hyear. unfold _get_post_url, strftime, expand.
  destruct (Nat.ltb_spec (year d) 1900) as [H|_]; [lia|].
  f_equal. apply linked_strftime, linked_fold; [assumption|]. apply linked_escape.
Qed.

Example post_url_keeps_percent_example :
  _get_post_url sample_other sample_order "/archive/100%/<title>/"
    {| year := 2020; month := 1; day := 5 |} "hello"
  = Ok (expand sample_order "/archive/100%/<title>/"
          {| year := 2020; month := 1; day := 5 |} "hello").
Proof.
  apply post_url_keeps_percent; [reflexivity | cbn [year]; lia].
Qed.

(** The claim's own example, and a pattern whose percent sign opens a
    [%20]. *)
Example expand_percent :
  expand sample_order "/archive/100%/<title>/"
    {| year := 2020; month := 1; day := 5 |} "hello" = "/archive/100%/hello/".
Proof. vm_compute. reflexivity. Qed.

(** C3.  The pattern is escaped before the placeholders are replaced, and
    the slug is put in as it is.  With the pattern [/<title>%Y/] and a slug
    that ends with a percent sign, that sign pairs up with the first of the
    two signs the pattern's [%] was escaped to, and the second one opens the
    conversion [%Y]: the URL is [/100%2020/], and the pattern with its
    placeholder resolved and its percent sign kept is [/100%%Y/]. *)
Theorem post_url_percent_lost :
  _get_post_url sample_other sample_order "/<title>%Y/"
    {| year := 2020; month := 1; day := 5 |} "100%" = Ok "/100%2020/" /\
  expand sample_order "/<title>%Y/"
    {| year := 2020; month := 1; day := 5 |} "100%" = "/100%%Y/" /\
  _get_post_url sample_other sample_order "/<title>%Y/"
    {| year := 2020; month := 1; day := 5 |} "100%"
  <> Ok (expand sample_order "/<title>%Y/"
           {| year := 2020; month := 1; day := 5 |} "100%").
Proof.
  split; [vm_compute; reflexivity|]. split; [vm_compute; reflexivity|].
  vm_compute. discriminate.
Qed.

(** ** Sorting *)

Section SortFacts.
Context {A : Type}.
Variable le : A -> A -> bool.
Hypothesis le_total : forall x y, le x y = true \/ le y x = true.
Hypothesis le_trans : forall x y z, le x y = true -> le y z = true -> le x z = true.

Lemma insert_sorted_perm (x : A) (l : list A) :
  Permutation (insert_sorted le x l) (x :: l).
Proof.
  induction l as [|y l IH]; cbn [insert_sorted]; [reflexivity|].
  destruct (le x y); [reflexivity|].
  rewrite IH. apply perm_swap.
Qed.

Lemma stable_sort_perm (l : list A) : Permutation (stable_sort le l) l.
Proof.
  induction l as [|x l IH]; cbn [stable_sort foldr]; [reflexivity|].
  rewrite insert_sorted_perm. by constructor.
Qed.

Lemma insert_sorted_then_by (R : A -> A -> Prop) (x : A) (l : list A) :
  Forall (R x) l ->
  StronglySorted (then_by le R) l ->
  StronglySorted (then_by le R) (insert_sorted le x l).
Proof.
  intros Hx Hl. induction Hl as [|y l Hl IH Hy]; cbn [insert_sorted].
  - repeat constructor.
  - apply Forall_cons_1 in Hx as [Hxy Hx].
    destruct (le x y) eqn:E.
    + constructor; [by constructor|].
      constructor; [by split|].
      rewrite Forall_forall in Hy, Hx |- *. intros z Hz. split.
      * destruct (Hy z Hz) as [Hyz _]. by apply (le_trans x y z).
      * intros _. by apply Hx.
    + constructor; [by apply IH|].
      rewrite (insert_sorted_perm x l). constructor; [|assumption].
      split; [|congruence]. destruct (le_total x y); congruence.
Qed.

Lemma stable_sort_then_by (R : A -> A -> Prop) (l : list A) :
  StronglySorted R l -> StronglySorted (then_by le R) (stable_sort le l).
Proof.
  induction 1 as [|x l Hl IH Hx]; cbn [stable_sort foldr]; [constructor|].
  apply insert_sorted_then_by; [|assumption].
  fold (stable_sort le l). by rewrite stable_sort_perm.
Qed.

End SortFacts.

Lemma StronglySorted_True {A : Type} (l : list A) :
  StronglySorted (fun _ _ => True) l.
Proof.
  induction l; constructor; [assumption|]. rewrite Forall_forall. auto.
Qed.

Lemma StronglySorted_weaken {A : Type} (R S : A -> A -> Prop) (l : list A) :
  (forall x y, R x y -> S x y) -> StronglySorted R l -> StronglySorted S l.
Proof.
  intros HRS. induction 1 as [|x l Hl IH Hx]; constructor; [assumption|].
  eapply Forall_impl; [exact Hx | auto].
Qed.

Lemma StronglySorted_lookup_lt {A : Type} (R : A -> A -> Prop) (l : list A)
    (i j : nat) (x y : A) :
  StronglySorted R l -> i < j -> l !! i = Some x -> l !! j = Some y -> R x y.
Proof.
  intros Hl. revert i j x y.
  induction Hl as [|a l Hl IH Ha]; intros i j x y Hij Hi Hj.
  - discriminate.
  - destruct i as [|i], j as [|j]; try lia; cbn in Hi, Hj.
    + injection Hi as <-. rewrite Forall_forall in Ha. apply Ha.
      by eapply list_elem_of_lookup_2.
    + apply (IH i j); [lia | assumption | assumption].
Qed.

Lemma lookup_map {A B : Type} (f : A -> B) (l : list A) (i : nat) :
  map f l !! i = f <$> l !! i.
Proof.
  revert i. induction l as [|x l IH]; intros [|i]; cbn; auto.
Qed.

(** *** The order of texts *)

Lemma ascii_compare_lt_trans (a b c : ascii) :
  Ascii.compare a b = Lt -> Ascii.compare b c = Lt -> Ascii.compare a c = Lt.
Proof.
  unfold Ascii.compare. rewrite !N.compare_lt_iff. lia.
Qed.

Lemma string_compare_lt_trans (a b c : string) :
  String.compare a b = Lt -> String.compare b c = Lt -> String.compare a c = Lt.
Proof.
  revert b c. induction a as [|x a IH]; intros [|y b] [|z c]; cbn [String.compare];
    try congruence.
  destruct (Ascii.compare x y) eqn:Exy; try discriminate;
    destruct (Ascii.compare y z) eqn:Eyz; try discriminate; intros H1 H2.
  - apply Ascii.compare_eq_iff in Exy, Eyz. subst.
    assert (Ascii.compare z z = Eq) as ->
      by (unfold Ascii.compare; apply N.compare_refl).
    by apply (IH b c).
  - apply Ascii.compare_eq_iff in Exy. subst. by rewrite Eyz.
  - apply Ascii.compare_eq_iff in Eyz. subst. by rewrite Exy.
  - by rewrite (ascii_compare_lt_trans x y z).
Qed.

Lemma string_compare_refl (a : string) : String.compare a a = Eq.
Proof.
  induction a as [|x a IH]; cbn [String.compare]; [reflexivity|].
  assert (Ascii.compare x x = Eq) as ->
    by (unfold Ascii.compare; apply N.compare_refl).
  exact IH.
Qed.

Lemma string_leb_trans (a b c : string) :
  String.leb a b = true -> String.leb b c = true -> String.leb a c = true.
Proof.
  unfold String.leb.
  destruct (String.compare a b) eqn:Eab; try discriminate;
    destruct (String.compare b c) eqn:Ebc; try discriminate; intros _ _.
  - apply String.compare_eq_iff in Eab, Ebc. subst. by rewrite string_compare_refl.
  - apply String.compare_eq_iff in Eab. subst. by rewrite Ebc.
  - apply String.compare_eq_iff in Ebc. subst. by rewrite Eab.
  - by rewrite (string_compare_lt_trans a b c).
Qed.

Lemma string_ltb_not_leb (a b : string) :
  String.ltb a b = true -> String.leb b a = false.
Proof.
  unfold String.ltb, String.leb. rewrite (String.compare_antisym b a).
  destruct (String.compare a b); cbn; congruence.
Qed.

Lemma sort_by_perm {A K : Type} (leb : K -> K -> bool) (key : A -> K)
    (reverse : bool) (l : list A) :
  Permutation (sort_by leb key reverse l) l.
Proof. apply stable_sort_perm. Qed.

Lemma sort_by_then_by {A K : Type} (leb : K -> K -> bool) (key : A -> K)
    (reverse : bool) (R : A -> A -> Prop) (l : list A) :
  (forall x y, leb x y = true \/ leb y x = true) ->
  (forall x y z, leb x y = true -> leb y z = true -> leb x z = true) ->
  StronglySorted R l ->
  StronglySorted (then_by (key_le leb key reverse) R) (sort_by leb key reverse l).
Proof.
  intros Htotal Htrans Hl. unfold sort_by.
  apply (stable_sort_then_by (key_le leb key reverse)); [| |assumption];
    unfold key_le; destruct reverse; eauto.
Qed.

Lemma nat_leb_total (x y : nat) : Nat.leb x y = true \/ Nat.leb y x = true.
Proof. rewrite !Nat.leb_le. lia. Qed.

Lemma nat_leb_trans (x y z : nat) :
  Nat.leb x y = true -> Nat.leb y z = true -> Nat.leb x z = true.
Proof. rewrite !Nat.leb_le. lia. Qed.

(** ** The tag collection *)

Lemma tags_get_None (name : string) (T : Tags) :
  tags_get name T = None <-> name ∉ keys T.
Proof.
  unfold tags_get, keys. induction T as [|[n v] T IH]; cbn [find map fst].
  - split; [intros _; apply not_elem_of_nil | reflexivity].
  - rewrite not_elem_of_cons. destruct (String.eqb_spec n name) as [->|Hne]; cbn.
    + split; [discriminate | intros [[] _]; reflexivity].
    + rewrite IH. split; [by split | tauto].
Qed.

Lemma tags_set_fresh (name : string) (v : tag_value) (T : Tags) :
  name ∉ keys T -> tags_set name v T = T ++ [(name, v)].
Proof.
  unfold keys. induction T as [|[n w] T IH]; cbn [tags_set map fst app];
    [reflexivity|].
  rewrite not_elem_of_cons. intros [Hne Hin].
  destruct (String.eqb_spec n name); [congruence|]. by rewrite IH.
Qed.

Lemma keys_tags_set (name : string) (v : tag_value) (T : Tags) :
  keys (tags_set name v T) = if tags_contains name T then keys T else keys T ++ [name].
Proof.
  unfold tags_contains, tags_get, keys.
  induction T as [|[n w] T IH]; cbn [tags_set find map fst app]; [reflexivity|].
  destruct (String.eqb_spec n name) as [->|Hne]; cbn; [reflexivity|].
  rewrite IH. by destruct (find _ T).
Qed.

Lemma tags_set_NoDup (name : string) (v : tag_value) (T : Tags) :
  NoDup (keys T) -> NoDup (keys (tags_set name v T)).
Proof.
  intros H. rewrite keys_tags_set. unfold tags_contains.
  destruct (tags_get name T) eqn:E; [assumption|].
  apply tags_get_None in E. apply NoDup_app. repeat split; [assumption| |].
  - intros x Hx Hx'. apply list_elem_of_singleton in Hx'. by subst.
  - apply NoDup_singleton.
Qed.

Lemma for_each_inv {A S : Type} (P : S -> Prop) (body : S -> A -> result S)
    (l : list A) (s s' : S) :
  (forall s x s', body s x = Ok s' -> P s -> P s') ->
  for_each body l s = Ok s' -> P s -> P s'.
Proof.
  intros Hbody. revert s. induction l as [|x l IH]; intros s; cbn [for_each].
  - intros [= <-]. auto.
  - destruct (body s x) as [s1|e] eqn:E; cbn; [|discriminate].
    intros H Hs. apply (IH s1 H). by apply (Hbody s x).
Qed.

Section TagFacts.
Variable B : backends.

Lemma index_tag_NoDup (d : data) (T T' : Tags) (name : string) :
  index_tag d T name = Ok T' -> NoDup (keys T) -> NoDup (keys T').
Proof.
  unfold index_tag, tags_append. intros H HT.
  set (T1 := if tags_contains name T then T else tags_set name (TagPosts []) T) in *.
  assert (NoDup (keys T1)) as H1.
  { unfold T1. destruct (tags_contains name T); [assumption|]. by apply tags_set_NoDup. }
  destruct (tags_get name T1) as [[l|t]|]; try discriminate.
  injection H as <-. by apply tags_set_NoDup.
Qed.

Lemma parse_file_NoDup (c : config) (self : Mynt) (m : gmap string node)
    (st st' : list data * Tags) (f : file) :
  parse_file B c self m st f = Ok st' ->
  NoDup (keys (snd st)) -> NoDup (keys (snd st')).
Proof.
  unfold parse_file. intros H Hst.
  repeat match type of H with
         | mbind _ ?r = Ok _ =>
             let E := fresh "E" in destruct r eqn:E; cbn in H; [|discriminate]
         end.
  injection H as <-. cbn [snd].
  eapply (for_each_inv (fun T => NoDup (keys T))); [|eassumption|assumption].
  intros T name T'. apply index_tag_NoDup.
Qed.

Lemma collect_tag_spec (c : config) (T : Tags) (acc sorting : list tag) :
  for_each (collect_tag c) T acc = Ok sorting ->
  exists l, sorting = acc ++ l /\ map tag_name l = keys T /\
            Forall (fun t => tag_count t = length (tag_posts t)) l.
Proof.
  revert acc. induction T as [|[n v] T IH]; intros acc; cbn [for_each].
  - intros [= <-]. exists []. by rewrite app_nil_r.
  - unfold collect_tag at 1. cbn [fst snd]. destruct v as [ps|t]; cbn; [|discriminate].
    intros H. destruct (IH _ H) as (l & -> & Hn & Hc).
    eexists (_ :: l). rewrite <- app_assoc. split; [reflexivity|].
    split; [cbn; by rewrite Hn | by constructor].
Qed.

Lemma store_tags_from (l : list tag) (T : Tags) :
  NoDup (keys T ++ map tag_name l) ->
  fold_left (fun T t => tags_set (tag_name t) (TagData t) T) l T = T ++ map stored l.
Proof.
  revert T. induction l as [|t l IH]; intros T H; cbn [fold_left map].
  - by rewrite app_nil_r.
  - assert (tag_name t ∉ keys T) as Hfresh.
    { apply NoDup_app in H as (_ & Hd & _). intros Hin. apply (Hd _ Hin). left. }
    rewrite (tags_set_fresh _ _ _ Hfresh), IH.
    + by rewrite <- app_assoc.
    + unfold keys in *. rewrite map_app. cbn [map fst]. by rewrite <- app_assoc.
Qed.

Lemma store_tags_spec (l : list tag) :
  NoDup (map tag_name l) -> store_tags l = map stored l.
Proof. intros H. unfold store_tags. by rewrite store_tags_from. Qed.

End TagFacts.

Lemma sort_tags_sorted (B : backends) (l : list tag) :
  StronglySorted (then_by by_count (then_by (by_name (lower B)) (fun _ _ => True)))
    (sort_tags B l).
Proof.
  unfold sort_tags.
  apply (sort_by_then_by Nat.leb tag_count true); [apply nat_leb_total | apply nat_leb_trans |].
  apply (sort_by_then_by String.leb (fun t => lower B (tag_name t)) false);
    [apply String.leb_total | apply string_leb_trans | apply StronglySorted_True].
Qed.

Lemma sort_tags_perm (B : backends) (l : list tag) : Permutation (sort_tags B l) l.
Proof. unfold sort_tags. by rewrite !sort_by_perm. Qed.

(** ** C1: the order of the final tag collection *)

(** What [_parse] leaves in [self.tags] when there is a post. *)
Lemma parse_tags_final (B : backends) (m : gmap string node) (cls cls' : class_attrs)
    (self self' : Mynt) :
  NoDup (keys (cls_tags cls)) ->
  _parse B m cls self = Ok (cls', self') ->
  cls_posts cls' <> [] ->
  exists sorting,
    cls_tags cls' = map stored (sort_tags B sorting) /\
    NoDup (map tag_name sorting) /\
    Forall (fun t => tag_count t = length (tag_posts t)) sorting.
Proof.
  intros Hnd H Hne. unfold _parse in H.
  destruct (for_each _ (listing _ m) _) as [[ps T]|e] eqn:E; cbn in H; [|discriminate].
  assert (NoDup (keys T)) as HT.
  { apply (for_each_inv (fun st => NoDup (keys (snd st))) _ _ _ _
             (fun st f st' => parse_file_NoDup B _ _ _ st st' f) E Hnd). }
  destruct ps as [|p ps].
  - injection H as <- <-. by destruct Hne.
  - destruct (for_each (collect_tag _) T []) as [sorting|e] eqn:Ec; cbn in H;
      [|discriminate].
    injection H as <- <-. cbn [with_collections cls_tags].
    destruct (collect_tag_spec _ _ _ _ Ec) as (l & -> & Hn & Hc). cbn [app] in *.
    exists l. rewrite <- Hn in HT. split; [|by split].
    apply store_tags_spec. by rewrite (sort_tags_perm B l).
Qed.

(** C1.  In the collection [_parse] leaves behind when there is a post,
    every entry is a finished tag whose count is the number of its posts,
    a tag with more posts stands before a tag with fewer, and of two tags
    with as many posts the one whose lowercased name is smaller stands
    first, the names lowered by [unicode.lower], whatever its case table. *)
Theorem tags_ordered_by_count_then_name
    (B : backends) (m : gmap string node) (cls cls' : class_attrs)
    (self self' : Mynt) (i j : nat) (ea eb : string * tag_value) :
  NoDup (map fst (cls_tags cls)) ->
  _parse B m cls self = Ok (cls', self') ->
  cls_posts cls' <> [] ->
  cls_tags cls' !! i = Some ea ->
  cls_tags cls' !! j = Some eb ->
  exists a b,
    ea = (tag_name a, TagData a) /\ eb = (tag_name b, TagData b) /\
    tag_count a = length (tag_posts a) /\ tag_count b = length (tag_posts b) /\
    (tag_count b < tag_count a -> i < j) /\
    (tag_count a = tag_count b ->
     String.ltb (lower B (tag_name a)) (lower B (tag_name b)) = true -> i < j).
Proof.
  intros Hnd H Hne Hi Hj.
  destruct (parse_tags_final B m cls cls' self self' Hnd H Hne) as (l & HT & _ & Hc).
  rewrite HT in Hi, Hj. unfold Tags in Hi, Hj. rewrite lookup_map in Hi, Hj.
  destruct (sort_tags B l !! i) as [a|] eqn:Ea; [|discriminate].
  destruct (sort_tags B l !! j) as [b|] eqn:Eb; [|discriminate].
  injection Hi as <-. injection Hj as <-. exists a, b.
  assert (forall t k, sort_tags B l !! k = Some t -> tag_count t = length (tag_posts t))
    as Hcount.
  { intros t k Hk. rewrite Forall_forall in Hc. apply Hc.
    rewrite <- (sort_tags_perm B l). by eapply list_elem_of_lookup_2. }
  repeat split; eauto.
  - intros Hlt. destruct (Nat.lt_trichotomy i j) as [?|[->|Hji]]; [assumption| |].
    + rewrite Ea in Eb. injection Eb as ->. lia.
    + destruct (StronglySorted_lookup_lt _ _ j i b a (sort_tags_sorted B l) Hji Eb Ea)
        as [Hba _].
      unfold by_count in Hba. apply Nat.leb_le in Hba. lia.
  - intros Heq Hlt. destruct (Nat.lt_trichotomy i j) as [?|[->|Hji]]; [assumption| |].
    + rewrite Ea in Eb. injection Eb as ->.
      apply string_ltb_not_leb in Hlt.
      destruct (String.leb_total (lower B (tag_name b)) (lower B (tag_name b)));
        congruence.
    + destruct (StronglySorted_lookup_lt _ _ j i b a (sort_tags_sorted B l) Hji Eb Ea)
        as [_ Hab].
      destruct Hab as [Hn _]; [unfold by_count; apply Nat.leb_le; lia|].
      unfold by_name in Hn. apply string_ltb_not_leb in Hlt. congruence.
Qed.

Lemma tags_ordered_by_count_then_name_witness :
  exists a b,
    sample_entry 0 = (tag_name a, TagData a) /\
    sample_entry 1 = (tag_name b, TagData b) /\
    tag_count a = length (tag_posts a) /\ tag_count b = length (tag_posts b) /\
    (tag_count b < tag_count a -> 0 < 1) /\
    (tag_count a = tag_count b ->
     String.ltb (Py.lower (tag_name a)) (Py.lower (tag_name b)) = true -> 0 < 1).
Proof.
  apply (tags_ordered_by_count_then_name sample_backends sample_tree
           (fst sample_started) (fst sample_parsed)
           (snd sample_started) (snd sample_parsed) 0 1).
  - vm_compute. constructor.
  - vm_compute. reflexivity.
  - vm_compute. discriminate.
  - reflexivity.
  - reflexivity.
Defined.

(** Two names outside ASCII with as many posts: the capital E with acute
    accent is lowered to code 233 and stands after the small a with grave
    accent, code 224. *)
Example latin1_names_in_order :
  map tag_name
      (sort_tags sample_backends
         [ {| tag_name := E_acute; tag_count := 1; tag_posts := []; tag_url := "" |};
           {| tag_name := a_grave; tag_count := 1; tag_posts := []; tag_url := "" |} ])
  = [a_grave; E_acute] /\
  Py.lower E_acute = String (ascii_of_nat 233) "".
Proof. split; vm_compute; reflexivity. Qed.

(** The scenario of the specification: [go] has two posts and comes first,
    [Systems] has one. *)
Example scenario_tags :
  map (fun e => (fst e, match snd e with TagData t => tag_count t | TagPosts _ => 0 end))
      (cls_tags (fst sample_parsed))
  = [("go", 2); ("Systems", 1)].
Proof. vm_compute. reflexivity. Qed.

(** ** Membership in a mapped list *)

Lemma elem_of_map {A X : Type} (f : A -> X) (l : list A) (x : X) :
  x ∈ map f l <-> exists y, x = f y /\ y ∈ l.
Proof.
  induction l as [|a l IH]; cbn [map].
  - split; [intros H; by apply elem_of_nil in H|].
    intros (y & _ & H). by apply elem_of_nil in H.
  - rewrite elem_of_cons, IH. split.
    + intros [->|(y & -> & Hy)]; [exists a | exists y]; rewrite elem_of_cons; auto.
    + intros (y & -> & Hy). apply elem_of_cons in Hy as [->|Hy]; eauto.
Qed.

(** ** The file system *)

Lemma under_refl (d : string) : under d d = true.
Proof. unfold under. by rewrite String.eqb_refl. Qed.


Lemma filter_lookup (P : string -> bool) (m : gmap string node) (p : string) :
  filter (fun e => Is_true (P (fst e))) m !! p = if P p then m !! p else None.
Proof.
  rewrite map_lookup_filter. cbn [fst].
  destruct (m !! p) as [n|]; cbn; [|by destruct (P p)].
  destruct (P p); cbn; case_guard; naive_solver.
Qed.

Lemma subtree_lookup (d p : string) (m : gmap string node) :
  subtree d m !! p = if under d p then m !! p else None.
Proof. apply filter_lookup. Qed.

Lemma rm_lookup (d p : string) (m : gmap string node) :
  rm d m !! p = if under d p then None else m !! p.
Proof.
  unfold rm. rewrite map_lookup_filter. cbn [fst].
  destruct (m !! p) as [n|]; cbn; [|by destruct (under d p)].
  destruct (under d p); cbn; case_guard; naive_solver.
Qed.

(** After the recursive delete nothing is left at or beneath the directory. *)
Lemma rm_removes (d p : string) (m : gmap string node) :
  under d p = true -> rm d m !! p = None.
Proof. intros H. by rewrite rm_lookup, H. Qed.

Lemma no_entries (m : gmap string node) :
  map_to_list m = [] <-> forall p, m !! p = None.
Proof.
  rewrite map_to_list_empty_iff. split.
  - intros -> p. apply lookup_empty.
  - intros H. by apply map_empty.
Qed.

Lemma subtree_empty (d : string) (m : gmap string node) :
  map_to_list (subtree d m) = [] <-> forall p, under d p = true -> m !! p = None.
Proof.
  rewrite no_entries. split.
  - intros H p Hp. specialize (H p). by rewrite subtree_lookup, Hp in H.
  - intros H p. rewrite subtree_lookup. destruct (under d p) eqn:Hp; [by apply H | reflexivity].
Qed.

Lemma dir_exists_false (d : string) (m : gmap string node) :
  dir_exists d m = false <->
  (exists c, m !! d = Some (File c)) \/ forall p, under d p = true -> m !! p = None.
Proof.
  unfold dir_exists. rewrite <- subtree_empty.
  destruct (m !! d) as [[|c]|] eqn:E.
  - destruct (map_to_list (subtree d m)); [tauto|].
    split; [discriminate|]. intros [[c [=]]|[=]].
  - split; [eauto | reflexivity].
  - destruct (map_to_list (subtree d m)); [tauto|].
    split; [discriminate|]. intros [[c [=]]|[=]].
Qed.



Lemma dir_exists_file (d c : string) (m : gmap string node) :
  m !! d = Some (File c) -> dir_exists d m = false.
Proof. intros H. apply dir_exists_false. eauto. Qed.

Lemma dir_exists_rm (d : string) (m : gmap string node) : dir_exists d (rm d m) = false.
Proof. apply dir_exists_false. right. intros p Hp. by apply rm_removes. Qed.

Lemma rm_absent (d : string) (m : gmap string node) :
  (forall p, under d p = true -> m !! p = None) -> rm d m = m.
Proof.
  intros H. apply map_eq. intros p. rewrite rm_lookup.
  destruct (under d p) eqn:Hp; [|reflexivity]. symmetry. by apply H.
Qed.

Lemma blocked_false (p : string) (m : gmap string node) :
  blocked p m = false <->
  forall q c, beneath q p = true -> m !! q <> Some (File c).
Proof.
  unfold blocked.
  set (t := filter _ m).
  assert (forall q, t !! q = match m !! q with
                             | Some (File c) => if beneath q p then Some (File c) else None
                             | _ => None
                             end) as Ht.
  { intros q. unfold t. rewrite map_lookup_filter. cbn [fst snd].
    destruct (m !! q) as [[|c]|]; cbn; [case_guard; naive_solver| |reflexivity].
    destruct (beneath q p); cbn; case_guard; naive_solver. }
  destruct (map_to_list t) as [|e l] eqn:E.
  - split; [|reflexivity]. intros _ q c Hq Hc.
    pose proof (proj1 (no_entries t) E q) as Hn. by rewrite Ht, Hc, Hq in Hn.
  - split; [discriminate|]. intros H.
    assert (map_to_list t = []) as E'; [|by rewrite E' in E].
    apply no_entries. intros q. rewrite Ht.
    destruct (m !! q) as [[|c]|] eqn:Eq; try reflexivity.
    destruct (beneath q p) eqn:Hq; [|reflexivity]. by destruct (H q c Hq).
Qed.

Lemma mk_raises (d : string) (m : gmap string node) (e : exn) :
  mk d m = Raise e -> io_error e.
Proof.
  unfold mk. destruct (dir_exists d m); [discriminate|].
  destruct (m !! d) as [[|c]|]; try (destruct (blocked d m));
    try discriminate; intros [= <-]; right; by eexists.
Qed.

Lemma cleared_lookup (d p : string) (m : gmap string node) :
  cleared d m !! p
  = if under d p then (if String.eqb p d then Some Dir else None) else m !! p.
Proof.
  unfold cleared. destruct (String.eqb_spec p d) as [->|Hne].
  - by rewrite lookup_insert_eq, under_refl.
  - rewrite lookup_insert_ne by congruence. apply rm_lookup.
Qed.

(** The tree in which the writing starts is the tree with the destination
    removed and made anew, whether the destination was there or not. *)
Lemma mk_start (d : string) (m t : gmap string node) :
  mk d (if dir_exists d m then rm d m else m) = Ok t -> t = cleared d m.
Proof.
  assert (mk d (rm d m) = Ok t -> t = cleared d m) as Hrm.
  { unfold mk. rewrite dir_exists_rm, (rm_removes d d m (under_refl d)).
    destruct (blocked d (rm d m)); [discriminate|]. by intros [= <-]. }
  destruct (dir_exists d m) eqn:E; [exact Hrm|].
  apply dir_exists_false in E as [[c Hc]|E].
  - unfold mk. rewrite (dir_exists_file d c m Hc), Hc. discriminate.
  - rewrite <- (rm_absent d m E) at 1. exact Hrm.
Qed.


(** *** Writing a file *)

Lemma write_file_ok (p c : string) (m m' : gmap string node) :
  write_file p c m = Ok m' ->
  m' = write p c m /\ blocked p m = false /\ dir_exists p m = false.
Proof.
  unfold write_file. destruct (blocked p m); [discriminate|].
  destruct (dir_exists p m); [discriminate|]. by intros [= <-].
Qed.

Lemma write_file_raises (p c : string) (m : gmap string node) (e : exn) :
  write_file p c m = Raise e -> io_error e.
Proof.
  unfold write_file. destruct (blocked p m); [intros [= <-]; right; by eexists|].
  destruct (dir_exists p m); [|discriminate]. intros [= <-]. left. by eexists.
Qed.

Lemma write_file_lookup (p c q : string) (m m' : gmap string node) :
  write_file p c m = Ok m' ->
  m' !! q = if String.eqb q p then Some (File c) else m !! q.
Proof.
  intros H. apply write_file_ok in H as [-> _]. unfold write.
  destruct (String.eqb_spec q p) as [->|Hne].
  - by rewrite lookup_insert_eq.
  - by rewrite lookup_insert_ne.
Qed.


Lemma page_mk_ok (pg : Page) (m m' : gmap string node) :
  page_mk m pg = Ok m' ->
  ((exists c, m !! page_path pg = Some (File c)) /\ m' = m) \/
  ((forall c, m !! page_path pg <> Some (File c)) /\
   write_file (page_path pg) (page_content pg) m = Ok m').
Proof.
  unfold page_mk. destruct (m !! page_path pg) as [[|c]|] eqn:E.
  - intros H. right. split; [congruence | assumption].
  - intros [= <-]. left. eauto.
  - intros H. right. split; [congruence | assumption].
Qed.

Lemma page_mk_raises (pg : Page) (m : gmap string node) (e : exn) :
  page_mk m pg = Raise e -> io_error e.
Proof.
  unfold page_mk. destruct (m !! page_path pg) as [[|c]|]; try discriminate;
    apply write_file_raises.
Qed.


Lemma cp_ok (a p : string) (m m' : gmap string node) :
  cp a p m = Ok m' -> exists c, m !! a = Some (File c) /\ write_file p c m = Ok m'.
Proof.
  unfold cp. destruct (m !! a) as [[|c]|]; try discriminate. intros H. eauto.
Qed.

Lemma cp_raises (a p : string) (m : gmap string node) (e : exn) :
  cp a p m = Raise e -> io_error e.
Proof.
  unfold cp. destruct (m !! a) as [[|c]|];
    try (intros [= <-]; left; by eexists). apply write_file_raises.
Qed.

(** *** The loops over the pages and over the assets *)


(** A loop invariant for the pages: what holds of the tree before the loop
    and is kept by every page that is made holds of the tree after it. *)
Lemma write_pages_inv (P : gmap string node -> Prop) (pgs : list Page)
    (m m' : gmap string node) (r : result unit) :
  (forall t t' pg, pg ∈ pgs -> P t -> page_mk t pg = Ok t' -> P t') ->
  write_pages pgs m = (m', r) -> P m -> P m'.
Proof.
  revert m. induction pgs as [|x pgs IH]; intros m Hstep; cbn [write_pages].
  - by intros [= <- _].
  - destruct (page_mk m x) as [m1|e] eqn:E; [|by intros [= <- _]].
    intros H Hm. apply (IH m1); [|assumption|].
    + intros t t' pg Hpg. apply Hstep. by apply list_elem_of_further.
    + apply (Hstep m m1 x); [apply list_elem_of_here | assumption..].
Qed.

Lemma copy_assets_inv (P : gmap string node -> Prop) (s d : string)
    (assets : list file) (m m' : gmap string node) (r : result unit) :
  (forall t t' a, a ∈ assets -> P t ->
     cp (file_path a) (Py.replace s d (file_path a)) t = Ok t' -> P t') ->
  copy_assets s d assets m = (m', r) -> P m -> P m'.
Proof.
  revert m. induction assets as [|x assets IH]; intros m Hstep; cbn [copy_assets].
  - by intros [= <- _].
  - destruct (cp _ _ m) as [m1|e] eqn:E; [|by intros [= <- _]].
    intros H Hm. apply (IH m1); [|assumption|].
    + intros t t' a Ha. apply Hstep. by apply list_elem_of_further.
    + apply (Hstep m m1 x); [apply list_elem_of_here | assumption..].
Qed.

Lemma write_pages_raises (pgs : list Page) (m m' : gmap string node) (e : exn) :
  write_pages pgs m = (m', Raise e) -> io_error e.
Proof.
  revert m. induction pgs as [|x pgs IH]; intros m; cbn [write_pages]; [discriminate|].
  destruct (page_mk m x) as [m1|e1] eqn:E; [apply IH|].
  intros [= _ <-]. exact (page_mk_raises _ _ _ E).
Qed.

Lemma copy_assets_raises (s d : string) (assets : list file) (m m' : gmap string node)
    (e : exn) :
  copy_assets s d assets m = (m', Raise e) -> io_error e.
Proof.
  revert m. induction assets as [|a assets IH]; intros m; cbn [copy_assets];
    [discriminate|].
  destruct (cp _ _ m) as [m1|e1] eqn:E; [apply IH|].
  intros [= _ <-]. exact (cp_raises _ _ _ _ E).
Qed.


Lemma assets_written (s d : string) (assets : list file) (m m' : gmap string node)
    (r : result unit) (p : string) (n : node) :
  copy_assets s d assets m = (m', r) ->
  m' !! p = Some n ->
  m !! p = Some n \/ p ∈ map (fun a => Py.replace s d (file_path a)) assets.
Proof.
  intros H.
  apply (copy_assets_inv
           (fun t => t !! p = Some n ->
                     m !! p = Some n \/
                     p ∈ map (fun a => Py.replace s d (file_path a)) assets)
           s d assets m m' r); [|assumption|tauto].
  intros t t' a Ha Ht Hcp Hn.
  destruct (cp_ok _ _ _ _ Hcp) as (c & _ & Hw).
  rewrite (write_file_lookup _ _ p _ _ Hw) in Hn.
  destruct (String.eqb_spec p (Py.replace s d (file_path a))) as [->|_]; [|tauto].
  right. apply elem_of_map. by exists a.
Qed.

(** The other places are left as they were. *)
Lemma pages_other (pgs : list Page) (m m' : gmap string node) (r : result unit)
    (p : string) :
  write_pages pgs m = (m', r) ->
  p ∉ map page_path pgs -> m' !! p = m !! p.
Proof.
  intros H Hp.
  apply (write_pages_inv (fun t => t !! p = m !! p) pgs m m' r); [|assumption|reflexivity].
  intros t t' pg Hpg Ht Hmk.
  destruct (page_mk_ok _ _ _ Hmk) as [[_ ->]|[_ Hw]]; [assumption|].
  rewrite (write_file_lookup _ _ p _ _ Hw).
  destruct (String.eqb_spec p (page_path pg)) as [->|_]; [|assumption].
  destruct Hp. apply elem_of_map. by exists pg.
Qed.

Lemma assets_other (s d : string) (assets : list file) (m m' : gmap string node)
    (r : result unit) (p : string) :
  copy_assets s d assets m = (m', r) ->
  p ∉ map (fun a => Py.replace s d (file_path a)) assets ->
  m' !! p = m !! p.
Proof.
  intros H Hp.
  apply (copy_assets_inv (fun t => t !! p = m !! p) s d assets m m' r);
    [|assumption|reflexivity].
  intros t t' a Ha Ht Hcp.
  destruct (cp_ok _ _ _ _ Hcp) as (c & _ & Hw).
  rewrite (write_file_lookup _ _ p _ _ Hw).
  destruct (String.eqb_spec p (Py.replace s d (file_path a))) as [->|_]; [|assumption].
  destruct Hp. apply elem_of_map. by exists a.
Qed.

(** A file stays a file, and a directory entry stays. *)
Lemma write_file_keeps_file (p c q : string) (m m' : gmap string node) :
  write_file p c m = Ok m' -> is_file q m -> is_file q m'.
Proof.
  intros H [c' Hq]. unfold is_file. rewrite (write_file_lookup _ _ q _ _ H).
  destruct (String.eqb q p); eauto.
Qed.

Lemma pages_keep_files (pgs : list Page) (m m' : gmap string node) (r : result unit)
    (p : string) :
  write_pages pgs m = (m', r) -> is_file p m -> is_file p m'.
Proof.
  intros H. apply (write_pages_inv (is_file p) pgs m m' r); [|assumption].
  intros t t' pg _ Ht Hmk.
  destruct (page_mk_ok _ _ _ Hmk) as [[_ ->]|[_ Hw]]; [assumption|].
  by apply (write_file_keeps_file _ _ _ _ _ Hw).
Qed.

Lemma assets_keep_files (s d : string) (assets : list file) (m m' : gmap string node)
    (r : result unit) (p : string) :
  copy_assets s d assets m = (m', r) -> is_file p m -> is_file p m'.
Proof.
  intros H. apply (copy_assets_inv (is_file p) s d assets m m' r); [|assumption].
  intros t t' a _ Ht Hcp. destruct (cp_ok _ _ _ _ Hcp) as (c & _ & Hw).
  by apply (write_file_keeps_file _ _ _ _ _ Hw).
Qed.



(** After a loop that ends well a file is at the path of every page and at
    the place of every asset. *)
Lemma pages_are_files (pgs : list Page) (m m' : gmap string node) (u : unit)
    (p : string) :
  write_pages pgs m = (m', Ok u) -> p ∈ map page_path pgs -> is_file p m'.
Proof.
  revert m. induction pgs as [|x pgs IH]; intros m; cbn [write_pages map].
  - intros _ H. by apply elem_of_nil in H.
  - destruct (page_mk m x) as [m1|e] eqn:E; [|discriminate].
    intros H Hp. apply elem_of_cons in Hp as [-> | Hp]; [|by apply (IH m1)].
    apply (pages_keep_files _ _ _ _ _ H).
    destruct (page_mk_ok _ _ _ E) as [[Hc ->]|[_ Hw]]; [exact Hc|].
    unfold is_file. rewrite (write_file_lookup _ _ (page_path x) _ _ Hw), String.eqb_refl.
    eauto.
Qed.

Lemma assets_are_files (s d : string) (assets : list file) (m m' : gmap string node)
    (u : unit) (a : file) :
  copy_assets s d assets m = (m', Ok u) ->
  a ∈ assets -> is_file (Py.replace s d (file_path a)) m'.
Proof.
  revert m. induction assets as [|x assets IH]; intros m; cbn [copy_assets].
  - intros _ H. by apply elem_of_nil in H.
  - destruct (cp _ _ m) as [m1|e] eqn:E; [|discriminate].
    intros H Ha. apply elem_of_cons in Ha as [-> | Ha]; [|by apply (IH m1)].
    apply (assets_keep_files _ _ _ _ _ _ _ H).
    destruct (cp_ok _ _ _ _ E) as (c & _ & Hw).
    unfold is_file. rewrite (write_file_lookup _ _ _ _ _ Hw), String.eqb_refl. eauto.
Qed.


(** The file at a place beneath a directory that held no file before the
    loop has the content of a page with that path. *)
Lemma pages_content (pgs : list Page) (m m' : gmap string node) (r : result unit)
    (p c : string) :
  write_pages pgs m = (m', r) ->
  m' !! p = Some (File c) ->
  m !! p = Some (File c) \/
  exists pg, pg ∈ pgs /\ page_path pg = p /\ page_content pg = c.
Proof.
  intros H.
  apply (write_pages_inv
           (fun t => t !! p = Some (File c) ->
                     m !! p = Some (File c) \/
                     exists pg, pg ∈ pgs /\ page_path pg = p /\ page_content pg = c)
           pgs m m' r); [|assumption|tauto].
  intros t t' pg Hpg Ht Hmk Hn.
  destruct (page_mk_ok _ _ _ Hmk) as [[_ ->]|[_ Hw]]; [tauto|].
  rewrite (write_file_lookup _ _ p _ _ Hw) in Hn.
  destruct (String.eqb_spec p (page_path pg)) as [->|_]; [|tauto].
  injection Hn as <-. right. by exists pg.
Qed.

(** *** Listings and trees that agree *)



Lemma subtree_agree (d : string) (m m' : gmap string node) :
  subtree d m = subtree d m' -> forall p, under d p = true -> m !! p = m' !! p.
Proof.
  intros H p Hp. apply (f_equal (fun t => t !! p)) in H.
  by rewrite !subtree_lookup, Hp in H.
Qed.

Lemma listing_elem (d : string) (m : gmap string node) (a : file) :
  a ∈ listing d m ->
  beneath d (file_path a) = true /\ m !! file_path a = Some (File (file_content a)).
Proof.
  unfold listing. destruct (dir_exists d m); [|intros H; by apply elem_of_nil in H].
  rewrite list_elem_of_omap. intros ([p n] & Hin & Ha).
  apply elem_of_map_to_list in Hin. rewrite (filter_lookup (listed d)) in Hin.
  unfold as_file in Ha. cbn [fst snd] in Ha.
  destruct n as [|c]; [discriminate|]. injection Ha as <-. cbn [file_path file_content].
  destruct (listed d p) eqn:E; [|discriminate]. split; [|assumption].
  unfold listed in E. by apply andb_true_iff in E as [E _].
Qed.

Lemma listing_absent (d : string) (m : gmap string node) :
  dir_exists d m = false -> listing d m = [].
Proof. unfold listing. by intros ->. Qed.

(** ** The file system on small trees *)

(** The listing of the sample source with a layout in [_templates]: the
    layout, the posts and the asset are passed over. *)
Example listing_passes_over_layouts :
  map file_path
      (listing "site" (<["site/_templates/post.html" := File "{{ post }}"]> sample_tree))
  = ["site/config.yml"; "site/index.html"] /\
  template_paths sample_backends (snd sample_started)
    (listing "site" (<["site/_templates/post.html" := File "{{ post }}"]> sample_tree))
  = ["out/index.html"].
Proof. split; vm_compute; reflexivity. Qed.

(** A page whose file is there is passed over; a page in the place of a
    directory, or beneath a file, is not made. *)
Example page_mk_cases :
  page_mk (<["out/a" := File "x"]> ∅) {| page_path := "out/a"; page_content := "y" |}
  = Ok (<["out/a" := File "x"]> ∅) /\
  page_mk (<["out/a/b.html" := File "x"]> ∅) {| page_path := "out/a"; page_content := "y" |}
  = Raise (IOError ["Is a directory"; "out/a"]) /\
  page_mk (<["out/a" := File "x"]> ∅) {| page_path := "out/a/b.html"; page_content := "y" |}
  = Raise (OSError ["Not a directory"; "out/a/b.html"]).
Proof. repeat split; vm_compute; reflexivity. Qed.

(** ** The instance through [_parse] and [_render] *)

Section InstanceFacts.
Variable B : backends.

Lemma parse_keeps_self (m : gmap string node) (cls cls' : class_attrs)
    (self self' : Mynt) :
  _parse B m cls self = Ok (cls', self') ->
  opts self' = opts self /\ src self' = src self /\ dest self' = dest self /\
  self_registered self' = self_registered self /\
  cls_config cls' = cls_config cls /\ cls_pages cls' = cls_pages cls /\
  cls_archives cls' = cls_archives cls.
Proof.
  unfold _parse. destruct (for_each _ _ _) as [[ps T]|e]; cbn; [|discriminate].
  destruct ps as [|p ps].
  - intros [= <- <-]. by repeat split.
  - destruct (for_each _ T []) as [sorting|e]; cbn; [|discriminate].
    intros [= <- <-]. by repeat split.
Qed.

Lemma render_keeps_self (m : gmap string node) (cls cls' : class_attrs)
    (self self' : Mynt) :
  _render B m cls self = Ok (cls', self') ->
  opts self' = opts self /\ src self' = src self /\ dest self' = dest self /\
  cls_config cls' = cls_config cls /\ cls_archives cls' = cls_archives cls.
Proof.
  unfold _render. destruct (_parse B m cls self) as [[cls0 self0]|e] eqn:E; cbn;
    [|discriminate].
  destruct (parse_keeps_self _ _ _ _ _ E) as (Ho & Hs & Hd & _ & Hc & _ & Ha).
  destruct (for_each _ (cls_posts cls0) _) as [pg1|e]; cbn; [|discriminate].
  destruct (for_each _ (listing _ m) pg1) as [pg2|e]; cbn; [|discriminate].
  match goal with |- context [mbind _ ?r] => destruct r as [pg3|e] end; cbn;
    [|discriminate].
  intros [= <- <-]. by repeat split.
Qed.

(** What the body of the loop over the posts returns. *)
Lemma render_post_ok (c : config) (self : Mynt) (m : gmap string node)
    (pg pg' : list Page) (p : data) :
  render_post B c self m pg p = Ok pg' ->
  exists html,
    pg' = pg ++ [{| page_path := _get_path (normpath B) (dest self) (data_url p);
                    page_content := html |}].
Proof.
  unfold render_post.
  destruct (required "layout" (data_layout p)) as [layout|e];
    cbn [mbind result_bind]; [|discriminate].
  match goal with
  | |- match ?r with _ => _ end = _ -> _ => destruct r as [html|[]]
  end; try discriminate.
  - intros [= <-]. eauto.
  - destruct (required "title" (data_title p)); discriminate.
Qed.

(** *** The writing part *)


Lemma materialize_other (m : gmap string node) (cls : class_attrs) (self : Mynt)
    (p : string) :
  p ∉ written B m cls self -> fst (materialize B m cls self) !! p = m !! p.
Proof.
  unfold materialize, written, copied. rewrite not_elem_of_app.
  destruct (write_pages (cls_pages cls) m) as [m1 [u|e]] eqn:Ep; cbn [fst];
    intros [Hp Ha]; [|by apply (pages_other _ _ _ _ _ Ep)].
  rewrite <- (pages_other _ _ _ _ _ Ep Hp).
  destruct (dir_exists _ m1); [|reflexivity].
  destruct (copy_assets _ _ _ m1) as [m2 r] eqn:E.
  rewrite <- (assets_other _ _ _ _ _ _ _ E Ha). by destruct r.
Qed.

Lemma materialize_raises (m m' : gmap string node) (cls : class_attrs) (self : Mynt)
    (e : exn) :
  materialize B m cls self = (m', Raise e) -> io_error e.
Proof.
  unfold materialize.
  destruct (write_pages (cls_pages cls) m) as [m1 [u|e1]] eqn:Ep.
  - destruct (dir_exists _ m1); [|discriminate].
    destruct (copy_assets _ _ _ m1) as [m2 [u2|e2]] eqn:E; [discriminate|].
    intros [= _ <-]. exact (copy_assets_raises _ _ _ _ _ _ E).
  - intros [= _ <-]. exact (write_pages_raises _ _ _ _ Ep).
Qed.

(** What a writing part that ends well leaves: the state it was given, a
    file at every path it writes, and at a place that held no file before
    the content of a page with that path, unless an asset was copied
    there. *)
Lemma materialize_ok (m m' : gmap string node) (cls : class_attrs) (self : Mynt)
    (st : class_attrs * Mynt) :
  materialize B m cls self = (m', Ok st) ->
  st = (cls, self) /\
  write_pages (cls_pages cls) m = (fst (write_pages (cls_pages cls) m), Ok tt) /\
  (forall p, p ∈ written B m cls self -> is_file p m') /\
  (forall p c, m' !! p = Some (File c) ->
     m !! p = Some (File c) \/
     (exists pg, pg ∈ cls_pages cls /\ page_path pg = p /\ page_content pg = c) \/
     p ∈ copied B m cls self).
Proof.
  unfold materialize, written, copied.
  destruct (write_pages (cls_pages cls) m) as [m1 [[]|e]] eqn:Ep; [|discriminate].
  cbn [fst].
  set (s := normpath B [src self; "_assets"]).
  set (d := normpath B (dest self :: Py.split "/" (assets_url (cls_config cls)))).
  destruct (dir_exists s m1) eqn:Ed.
  - destruct (copy_assets s d (listing s m1) m1) as [m2 [u|e]] eqn:E; [|discriminate].
    intros [= <- <-]. split; [reflexivity|]. split; [reflexivity|]. split.
    + intros p Hp. apply elem_of_app in Hp as [Hp|Hp].
      * apply (assets_keep_files _ _ _ _ _ _ _ E), (pages_are_files _ _ _ _ _ Ep Hp).
      * apply elem_of_map in Hp as (a & -> & Ha).
        apply (assets_are_files _ _ _ _ _ _ _ E Ha).
    + intros p c Hc.
      destruct (assets_written _ _ _ _ _ _ _ _ E Hc) as [H1|H1]; [|tauto].
      destruct (pages_content _ _ _ _ _ _ Ep H1); tauto.
  - intros [= <- <-]. split; [reflexivity|]. split; [reflexivity|]. split.
    + intros p Hp. rewrite (listing_absent _ _ Ed) in Hp. cbn [map] in Hp.
      rewrite app_nil_r in Hp. apply (pages_are_files _ _ _ _ _ Ep Hp).
    + intros p c Hc. destruct (pages_content _ _ _ _ _ _ Ep Hc); tauto.
Qed.

(** How [generate] goes on once [_render] has returned. *)
Lemma generate_runs (m : gmap string node) (cls cls1 : class_attrs)
    (self self1 : Mynt) :
  _render B m cls self = Ok (cls1, self1) ->
  generate B m cls self
  = if dir_exists (dest self) m && negb (opt_force (opts self))
    then (m, Raise (OptionException
                      ["Destination already exists.";
                       "the -f option must be used to force generation by deleting the destination"]))
    else let t := if dir_exists (dest self) m then rm (dest self) m else m in
         match mk (dest self) t with
         | Ok t' => materialize B t' cls1 self1
         | Raise e => (t, Raise e)
         end.
Proof.
  intros Hr. destruct (render_keeps_self _ _ _ _ _ Hr) as (Ho & _ & Hd & _).
  unfold generate. rewrite Hr. cbn [fst snd]. by rewrite Hd, Ho.
Qed.

(** A [generate] that ends well has rendered, and has written from the tree
    in which the destination is removed and made anew. *)
Lemma generate_ok (m m' : gmap string node) (cls : class_attrs) (self : Mynt)
    (st : class_attrs * Mynt) :
  generate B m cls self = (m', Ok st) ->
  _render B m cls self = Ok st /\
  dir_exists (dest self) m && negb (opt_force (opts self)) = false /\
  mk (dest self) (if dir_exists (dest self) m then rm (dest self) m else m)
    = Ok (cleared (dest self) m) /\
  materialize B (cleared (dest self) m) (fst st) (snd st) = (m', Ok st).
Proof.
  intros H.
  destruct (_render B m cls self) as [[cls1 self1]|e] eqn:Hr;
    [|unfold generate in H; rewrite Hr in H; discriminate].
  rewrite (generate_runs _ _ _ _ _ Hr) in H.
  destruct (_ && _); [discriminate|]. cbn zeta in H.
  destruct (mk _ _) as [t|e] eqn:Em; [|discriminate].
  pose proof (mk_start _ _ _ Em) as ->.
  destruct (materialize_ok _ _ _ _ _ H) as [-> _]. by repeat split.
Qed.

(** ** C2: the overwrite policy *)


End InstanceFacts.

(** ** What a run reads *)



Section RunFacts.
Variable B : backends.




Lemma init_self (m : gmap string node) (cls cls' : class_attrs) (o : options)
    (self : Mynt) :
  __init__ B m cls o = Ok (cls', self) ->
  opts self = o /\ src self = opt_src o /\ dest self = opt_dest o /\
  self_archives self = None /\
  cls_pages cls' = cls_pages cls /\ cls_posts cls' = cls_posts cls /\
  cls_tags cls' = cls_tags cls /\ cls_archives cls' = cls_archives cls.
Proof.
  unfold __init__. destruct (String.eqb _ _); [discriminate|].
  destruct (is_root _ || is_root _); [discriminate|].
  destruct (load_config _ _ _ _ _) as [c|e]; cbn; [|discriminate].
  intros [= <- <-]. by repeat split.
Qed.





End RunFacts.

(** ** C10: what a second instance finds *)

Section SharingFacts.
Variable B : backends.

Lemma parse_appends_posts (m : gmap string node) (cls cls' : class_attrs)
    (self self' : Mynt) :
  _parse B m cls self = Ok (cls', self') ->
  (exists new, Permutation (cls_posts cls') (cls_posts cls ++ new)) /\
  (cls_posts cls' <> [] -> self_archives self' = Some {| archived := cls_posts cls' |}).
Proof.
  unfold _parse.
  destruct (for_each _ (listing _ m) _) as [[ps T]|e] eqn:E; cbn; [|discriminate].
  assert (exists new, ps = cls_posts cls ++ new) as [new ->].
  { apply (for_each_inv (fun st => exists new, fst st = cls_posts cls ++ new) _ _ _ _)
      with (2 := E); [|exists []; by rewrite app_nil_r].
    intros st f st' Hf [new Hnew]. unfold parse_file in Hf.
    repeat match type of Hf with
           | mbind _ ?r = Ok _ =>
               let E := fresh "E" in destruct r eqn:E; cbn in Hf; [|discriminate]
           end.
    injection Hf as <-. cbn [fst]. rewrite Hnew, <- app_assoc. eauto. }
  destruct (cls_posts cls ++ new) as [|p ps] eqn:Eps.
  - intros [= <- <-]. cbn. split; [exists new; by rewrite Eps | congruence].
  - destruct (for_each _ T []) as [sorting|e]; cbn; [|discriminate].
    intros [= <- <-]. cbn. split; [|reflexivity].
    exists new. rewrite Eps. exact (sort_by_perm Z.leb data_timestamp true (p :: ps)).
Qed.

Lemma for_each_appends {A X : Type} (body : list X -> A -> result (list X))
    (l : list A) (s s' : list X) :
  (forall pg x pg', body pg x = Ok pg' -> exists new, pg' = pg ++ new) ->
  for_each body l s = Ok s' -> exists new, s' = s ++ new.
Proof.
  intros Hbody H.
  apply (for_each_inv (fun pg => exists new, pg = s ++ new) body l s s');
    [|assumption|exists []; by rewrite app_nil_r].
  intros pg x pg' Hx [new ->]. destruct (Hbody _ _ _ Hx) as [new' ->].
  exists (new ++ new'). by rewrite app_assoc.
Qed.

Lemma render_appends_pages (m : gmap string node) (cls cls' : class_attrs)
    (self self' : Mynt) :
  _render B m cls self = Ok (cls', self') ->
  exists cls0 self0,
    _parse B m cls self = Ok (cls0, self0) /\
    cls_posts cls' = cls_posts cls0 /\ cls_tags cls' = cls_tags cls0 /\
    self_archives self' = self_archives self0 /\
    exists new, cls_pages cls' = cls_pages cls ++ new.
Proof.
  unfold _render. destruct (_parse B m cls self) as [[cls0 self0]|e] eqn:E; cbn;
    [|discriminate].
  destruct (parse_keeps_self _ _ _ _ _ _ E) as (_ & _ & _ & _ & _ & Hpg & _).
  destruct (for_each _ (cls_posts cls0) _) as [pg1|e] eqn:E1; cbn; [|discriminate].
  destruct (for_each _ (listing _ m) pg1) as [pg2|e] eqn:E2; cbn; [|discriminate].
  match goal with |- context [mbind _ ?r] => destruct r as [pg3|e] eqn:E3 end; cbn;
    [|discriminate].
  intros [= <- <-]. exists cls0, self0. repeat split; try reflexivity.
  cbn [with_collections cls_pages].
  apply for_each_appends in E1 as [n1 ->].
  2:{ intros pg x pg' Hx. destruct (render_post_ok _ _ _ _ _ _ _ Hx) as [html ->].
      eauto. }
  apply for_each_appends in E2 as [n2 ->].
  2:{ intros pg x pg' Hx. unfold render_template in Hx.
      destruct (negb _); [injection Hx as <-; exists []; by rewrite app_nil_r|].
      step_bind Hx. injection Hx as <-. eauto. }
  assert (exists n3, pg3 = ((cls_pages cls0 ++ n1) ++ n2) ++ n3) as [n3 ->].
  { destruct (tag_pages_wanted _ _); [|injection E3 as <-; exists []; by rewrite app_nil_r].
    apply for_each_appends in E3; [assumption|].
    intros pg x pg' Hx. unfold render_tag in Hx. destruct (snd x); [discriminate|].
    step_bind Hx. injection Hx as <-. eauto. }
  rewrite Hpg, <- !app_assoc. eauto.
Qed.

(** C10 (as amended).  After a first [_render], an instance made afterwards
    finds in [posts], [pages] and [tags] what the first instance left there,
    and its own [_render] adds its posts and pages to them.  [archives] is
    different: the first instance holds its archives itself, and the new
    instance finds the list of the class, which no run changes. *)
Theorem collections_shared_archives_not
    (m m' : gmap string node) (cls cls1 cls2 : class_attrs)
    (self self1 self2 : Mynt) (o2 : options) :
  _render B m cls self = Ok (cls1, self1) ->
  __init__ B m' cls1 o2 = Ok (cls2, self2) ->
  posts cls2 self2 = posts cls1 self1 /\
  pages cls2 self2 = pages cls1 self1 /\
  tags cls2 self2 = tags cls1 self1 /\
  archives cls2 self2 = ClassArchives (cls_archives cls) /\
  (posts cls1 self1 <> [] ->
   archives cls1 self1 = OwnArchives {| archived := posts cls1 self1 |}) /\
  (forall cls3 self3,
     _render B m' cls2 self2 = Ok (cls3, self3) ->
     (exists new, Permutation (posts cls3 self3) (posts cls1 self1 ++ new)) /\
     (exists new, pages cls3 self3 = pages cls1 self1 ++ new)).
Proof.
  intros Hr Hi. unfold posts, pages, tags, archives.
  destruct (init_self _ _ _ _ _ _ Hi) as (_ & _ & _ & Ha & Hpg & Hps & HT & Hca).
  destruct (render_keeps_self _ _ _ _ _ _ Hr) as (_ & _ & _ & _ & Hca1).
  rewrite Ha, Hpg, Hps, HT, Hca, Hca1. repeat split.
  - intros Hne.
    destruct (render_appends_pages _ _ _ _ _ Hr) as (cls0 & self0 & Hp & Hps0 & _ & Ha0 & _).
    destruct (parse_appends_posts _ _ _ _ _ Hp) as [_ Harch].
    rewrite Ha0, Hps0, Harch; [reflexivity | by rewrite <- Hps0].
  - destruct (render_appends_pages _ _ _ _ _ H) as (cls0 & self0 & Hp & Hps0 & _).
    destruct (parse_appends_posts _ _ _ _ _ Hp) as [[new Hnew] _].
    exists new. by rewrite Hps0, Hnew, Hps.
  - destruct (render_appends_pages _ _ _ _ _ H) as (_ & _ & _ & _ & _ & _ & new & Hnew).
    exists new. by rewrite Hnew, Hpg.
Qed.

End SharingFacts.

(** ** The sample site through two runs *)

Example first_run :
  run sample_backends plain_tree Mynt_class (sample_options true)
  = (first_tree, Ok first_state).
Proof. vm_compute. reflexivity. Qed.



(** A second run in the process of the first reads the post again and
    renders every page again, on top of the posts and the pages of the first
    run; the pages of the first run come first in the list, their files are
    written first, and the later pages of the same paths are passed over. *)
Example second_run_in_process :
  exists st2,
    run sample_backends first_tree (fst first_state) (sample_options true)
    = (first_tree, Ok st2) /\
    length (cls_posts (fst first_state)) = 1 /\ length (cls_posts (fst st2)) = 2 /\
    length (cls_pages (fst first_state)) = 2 /\ length (cls_pages (fst st2)) = 5.
Proof. eexists. vm_compute. repeat split; reflexivity. Qed.

(** ** The sample site and an existing destination *)

Example unforced_run_refuses :
  generate sample_backends stale_tree (fst (stale_started false)) (snd (stale_started false))
  = (stale_tree,
     Raise (OptionException
              ["Destination already exists.";
               "the -f option must be used to force generation by deleting the destination"])).
Proof. vm_compute. reflexivity. Qed.

Example forced_run_replaces :
  let m := fst (generate sample_backends stale_tree
                  (fst (stale_started true)) (snd (stale_started true))) in
  stale_tree !! "out/old.html" = Some (File "old") /\
  m !! "out/old.html" = None /\
  m !! "out/index.html" = Some (File "/index.html posts=1").
Proof. vm_compute. repeat split; reflexivity. Qed.



(** ** The sample site and a second instance *)

Example second_instance :
  __init__ sample_backends first_tree (fst first_state) (sample_options true)
  = Ok second_started.
Proof. vm_compute. reflexivity. Qed.

Lemma collections_shared_archives_not_witness :
  posts (fst second_started) (snd second_started)
    = posts (fst first_state) (snd first_state) /\
  pages (fst second_started) (snd second_started)
    = pages (fst first_state) (snd first_state) /\
  tags (fst second_started) (snd second_started)
    = tags (fst first_state) (snd first_state) /\
  archives (fst second_started) (snd second_started)
    = ClassArchives (cls_archives (fst plain_started)) /\
  (posts (fst first_state) (snd first_state) <> [] ->
   archives (fst first_state) (snd first_state)
   = OwnArchives {| archived := posts (fst first_state) (snd first_state) |}) /\
  (forall cls3 self3,
     _render sample_backends first_tree (fst second_started) (snd second_started)
       = Ok (cls3, self3) ->
     (exists new, Permutation (posts cls3 self3)
                    (posts (fst first_state) (snd first_state) ++ new)) /\
     (exists new, pages cls3 self3
                  = pages (fst first_state) (snd first_state) ++ new)).
Proof.
  apply (collections_shared_archives_not sample_backends plain_tree first_tree
           (fst plain_started) (fst first_state) (fst second_started)
           (snd plain_started) (snd first_state) (snd second_started)
           (sample_options true)).
  - vm_compute. reflexivity.
  - vm_compute. reflexivity.
Defined.

(** The second [_render] does go through on this site, and the collections
    then hold the post twice and the pages of both runs. *)
Example second_render_appends :
  exists cls3 self3,
    _render sample_backends first_tree (fst second_started) (snd second_started)
      = Ok (cls3, self3) /\
    length (posts (fst first_state) (snd first_state)) = 1 /\
    length (posts cls3 self3) = 2 /\
    length (pages (fst first_state) (snd first_state)) = 2 /\
    length (pages cls3 self3) = 5.
Proof. eexists _, _. vm_compute. repeat split; reflexivity. Qed.

(** C10 (as stated) fails for [archives]: the instance made after the run
    does not find the archives of the run. *)
Lemma archives_not_shared :
  run sample_backends plain_tree Mynt_class (sample_options true)
    = (first_tree, Ok first_state) /\
  __init__ sample_backends first_tree (fst first_state) (sample_options true)
    = Ok second_started /\
  posts (fst first_state) (snd first_state) <> [] /\
  archives (fst second_started) (snd second_started) = ClassArchives [] /\
  archives (fst second_started) (snd second_started)
  <> archives (fst first_state) (snd first_state).
Proof.
  split; [vm_compute; reflexivity|]. split; [vm_compute; reflexivity|].
  split; [vm_compute; discriminate|]. split; [vm_compute; reflexivity|].
  vm_compute. discriminate.
Qed.

(** On the site with tags a second [_parse] in the same process stops at
    the first tag it meets again: what the class holds under the name is the
    dictionary of the finished tag, not a list. *)
Example second_parse_meets_finished_tag :
  _parse sample_backends sample_tree (fst sample_parsed) (snd sample_started)
  = Raise (AttributeError ["'dict' object has no attribute 'append'"]).
Proof. vm_compute. reflexivity. Qed.

(** ** Further properties of [_parse] *)

Lemma z_leb_total (x y : Z) : Z.leb x y = true \/ Z.leb y x = true.
Proof. rewrite !Z.leb_le. lia. Qed.

Lemma z_leb_trans (x y z : Z) :
  Z.leb x y = true -> Z.leb y z = true -> Z.leb x z = true.
Proof. rewrite !Z.leb_le. lia. Qed.

Lemma sort_by_timestamp_sorted (l : list data) :
  StronglySorted newest_first (sort_by Z.leb data_timestamp true l).
Proof.
  apply (StronglySorted_weaken
           (then_by (key_le Z.leb data_timestamp true) (fun _ _ => True))).
  - intros a b [H _]. unfold key_le in H. unfold newest_first. by apply Z.leb_le.
  - apply sort_by_then_by; [apply z_leb_total | apply z_leb_trans | apply StronglySorted_True].
Qed.

Lemma sort_by_lower_sorted (lower : string -> string) (l : list string) :
  StronglySorted (lower_le lower) (sort_by String.leb lower false l).
Proof.
  apply (StronglySorted_weaken
           (then_by (key_le String.leb lower false) (fun _ _ => True))).
  - intros a b [H _]. exact H.
  - apply sort_by_then_by;
      [apply String.leb_total | apply string_leb_trans | apply StronglySorted_True].
Qed.

Lemma tags_get_set (name n : string) (v : tag_value) (T : Tags) :
  tags_get n (tags_set name v T) = if String.eqb name n then Some v else tags_get n T.
Proof.
  unfold tags_get. induction T as [|[k w] T IH]; cbn [tags_set find fst].
  - destruct (String.eqb_spec name n); reflexivity.
  - destruct (String.eqb_spec k name) as [->|Hk]; cbn [find fst].
    + destruct (String.eqb_spec name n); reflexivity.
    + destruct (String.eqb_spec k n) as [->|Hn].
      * destruct (String.eqb_spec name n); [congruence | reflexivity].
      * exact IH.
Qed.

Lemma tags_get_elem (n : string) (v : tag_value) (T : Tags) :
  tags_get n T = Some v -> (n, v) ∈ T.
Proof.
  unfold tags_get. induction T as [|[k w] T IH]; cbn [find fst]; [discriminate|].
  destruct (String.eqb_spec k n) as [->|Hn].
  - intros [= <-]. apply list_elem_of_here.
  - intros H. apply list_elem_of_further. by apply IH.
Qed.

Lemma elem_tags_get (n : string) (v : tag_value) (T : Tags) :
  NoDup (keys T) -> (n, v) ∈ T -> tags_get n T = Some v.
Proof.
  unfold tags_get, keys. induction T as [|[k w] T IH]; cbn [find fst map].
  - intros _ H. by apply elem_of_nil in H.
  - intros Hnd H. apply NoDup_cons in Hnd as [Hk Hnd].
    apply elem_of_cons in H as [[= -> ->]|H].
    + by rewrite String.eqb_refl.
    + destruct (String.eqb_spec k n) as [->|Hn]; [|by apply IH].
      destruct Hk. apply (list_elem_of_fmap_2 fst) in H. exact H.
Qed.

(** A loop invariant that knows which elements the loop has passed. *)
Lemma for_each_inv_seen {A S : Type} (P : list A -> S -> Prop)
    (body : S -> A -> result S) (l : list A) (s s' : S) :
  (forall seen x s s', P seen s -> body s x = Ok s' -> P (seen ++ [x]) s') ->
  P [] s -> for_each body l s = Ok s' -> P l s'.
Proof.
  intros Hbody. 
  assert (forall seen s, P seen s -> for_each body l s = Ok s' -> P (seen ++ l) s') as H.
  { induction l as [|x l IH]; intros seen s0 Hs; cbn [for_each].
    - intros [= <-]. by rewrite app_nil_r.
    - destruct (body s0 x) as [s1|e] eqn:E; cbn; [|discriminate].
      intros H. rewrite (cons_middle x seen l), app_assoc.
      apply (IH _ s1); [|assumption]. by apply (Hbody seen x s0). }
  intros Hs Hl. exact (H [] s Hs Hl).
Qed.

Section ParseFacts.
Variable B : backends.

(** What [parse_file] appends: one dictionary, its tags in order. *)
Lemma parse_file_appends (c : config) (self : Mynt) (m : gmap string node)
    (st st' : list data * Tags) (f : file) :
  parse_file B c self m st f = Ok st' ->
  exists d, fst st' = fst st ++ [d] /\
            StronglySorted (lower_le (lower B)) (data_tags d) /\
            for_each (index_tag d) (data_tags d) (snd st) = Ok (snd st').
Proof.
  unfold parse_file. intros H. step_bind H. injection H as <-.
  eexists. cbn [fst snd data_tags]. split; [reflexivity|].
  split; [apply sort_by_lower_sorted | eassumption].
Qed.

Lemma parse_loop_result (m : gmap string node) (cls cls' : class_attrs)
    (self self' : Mynt) :
  _parse B m cls self = Ok (cls', self') ->
  exists ps T,
    for_each (parse_file B (cls_config cls) self m)
      (listing (normpath B [src self; "_posts"]) m) (cls_posts cls, cls_tags cls)
    = Ok (ps, T) /\
    ((ps = [] /\ cls_posts cls' = [] /\ cls_tags cls' = T /\ self' = self) \/
     (ps <> [] /\ cls_posts cls' = sort_by Z.leb data_timestamp true ps /\
      self' = set_archives self {| archived := cls_posts cls' |} /\
      exists sorting,
        for_each (collect_tag (cls_config cls)) T [] = Ok sorting /\
        cls_tags cls' = store_tags (sort_tags B sorting))).
Proof.
  unfold _parse. intros H.
  destruct (for_each _ (listing _ m) _) as [[ps T]|e] eqn:E;
    cbn [mbind result_bind fst snd] in H; [|discriminate].
  exists ps, T. split; [reflexivity|].
  destruct ps as [|p ps].
  - injection H as <- <-. left. by repeat split.
  - destruct (for_each _ T []) as [sorting|e] eqn:Ec;
      cbn [mbind result_bind] in H; [|discriminate].
    injection H as <- <-. right. split; [discriminate|].
    cbn [with_collections cls_posts cls_tags].
    split; [reflexivity|]. split; [reflexivity|]. by exists sorting.
Qed.

(** After [_parse] the posts are in the order of their timestamps, the
    newest first. *)
Theorem parse_posts_newest_first (m : gmap string node) (cls cls' : class_attrs)
    (self self' : Mynt) :
  _parse B m cls self = Ok (cls', self') ->
  StronglySorted newest_first (cls_posts cls').
Proof.
  intros H. destruct (parse_loop_result _ _ _ _ _ H) as (ps & T & _ & [Hc|Hc]).
  - destruct Hc as (_ & -> & _). constructor.
  - destruct Hc as (_ & -> & _). apply sort_by_timestamp_sorted.
Qed.

End ParseFacts.

Lemma tags_set_elem (name : string) (v : tag_value) (T : Tags) (e : string * tag_value) :
  e ∈ tags_set name v T -> e ∈ T \/ e = (name, v).
Proof.
  induction T as [|[k w] T IH]; cbn [tags_set fst].
  - intros H. apply list_elem_of_singleton in H. by right.
  - destruct (String.eqb k name).
    + intros H. apply elem_of_cons in H as [->|H]; [by right|].
      left. by apply list_elem_of_further.
    + intros H. apply elem_of_cons in H as [->|H]; [left; apply list_elem_of_here|].
      destruct (IH H) as [H'|H']; [left; by apply list_elem_of_further | by right].
Qed.

Lemma store_tags_elem (l : list tag) (e : string * tag_value) :
  e ∈ store_tags l -> exists t, t ∈ l /\ e = stored t.
Proof.
  unfold store_tags.
  assert (forall T, e ∈ fold_left (fun T t => tags_set (tag_name t) (TagData t) T) l T ->
                    e ∈ T \/ exists t, t ∈ l /\ e = stored t) as H.
  { induction l as [|t l IH]; intros T; cbn [fold_left]; [by left|].
    intros H. destruct (IH _ H) as [H'|(t' & Ht' & ->)].
    - destruct (tags_set_elem _ _ _ _ H') as [H''| ->]; [by left|].
      right. exists t. split; [apply list_elem_of_here | reflexivity].
    - right. exists t'. split; [by apply list_elem_of_further | reflexivity]. }
  intros He. destruct (H [] He) as [H'|H']; [by apply elem_of_nil in H' | exact H'].
Qed.

Lemma store_tags_NoDup (l : list tag) : NoDup (keys (store_tags l)).
Proof.
  unfold store_tags.
  assert (forall T, NoDup (keys T) ->
            NoDup (keys (fold_left (fun T t => tags_set (tag_name t) (TagData t) T) l T)))
    as H.
  { induction l as [|t l IH]; intros T HT; cbn [fold_left]; [assumption|].
    apply IH. by apply tags_set_NoDup. }
  apply H. constructor.
Qed.

Lemma collect_tag_rel (c : config) (T : Tags) (acc sorting : list tag) :
  for_each (collect_tag c) T acc = Ok sorting ->
  exists l, sorting = acc ++ l /\ Forall2 (collected c) T l.
Proof.
  revert acc. induction T as [|[n v] T IH]; intros acc; cbn [for_each].
  - intros [= <-]. exists []. split; [by rewrite app_nil_r | constructor].
  - unfold collect_tag at 1. cbn [fst snd]. destruct v as [ps|t];
      cbn [mbind result_bind]; [|discriminate].
    intros H. destruct (IH _ H) as (l & -> & Hl).
    eexists (_ :: l). rewrite <- app_assoc. split; [reflexivity|].
    constructor; [|assumption]. exists ps. cbn. by repeat split.
Qed.

Section ParseFacts2.
Variable B : backends.

(** Every entry of the collection [_parse] leaves behind, when there is a
    post, is a finished tag: its count is the number of its posts, its posts
    are in the order of their timestamps, the newest first, and its URL is the
    tag URL of its name. *)
Theorem parse_tags_finished (m : gmap string node) (cls cls' : class_attrs)
    (self self' : Mynt) (e : string * tag_value) :
  _parse B m cls self = Ok (cls', self') ->
  cls_posts cls' <> [] ->
  e ∈ cls_tags cls' ->
  exists t, e = (tag_name t, TagData t) /\
            tag_count t = length (tag_posts t) /\
            StronglySorted newest_first (tag_posts t) /\
            tag_url t = _get_tag_url (tags_url (cls_config cls)) (tag_name t).
Proof.
  intros H Hne He.
  destruct (parse_loop_result B _ _ _ _ _ H) as (ps & T & _ & [Hc|Hc]).
  - destruct Hc as (_ & Hp & _). contradiction.
  - destruct Hc as (_ & _ & _ & sorting & Hs & HT). rewrite HT in He.
    destruct (store_tags_elem _ _ He) as (t & Ht & ->). exists t.
    split; [reflexivity|]. rewrite (sort_tags_perm B sorting) in Ht.
    destruct (collect_tag_rel _ _ _ _ Hs) as (l & -> & Hl). cbn [app] in Ht.
    destruct (proj1 (list_elem_of_lookup l t) Ht) as [i Hi].
    destruct (Forall2_lookup_r _ _ _ _ _ Hl Hi) as (e0 & _ & (l0 & _ & Hps & Hcount & Hurl)).
    repeat split; [assumption| |assumption].
    rewrite Hps. apply sort_by_timestamp_sorted.
Qed.

(** The collection never comes to hold a name twice. *)
Theorem parse_tag_names_unique (m : gmap string node) (cls cls' : class_attrs)
    (self self' : Mynt) :
  NoDup (map fst (cls_tags cls)) ->
  _parse B m cls self = Ok (cls', self') ->
  NoDup (map fst (cls_tags cls')).
Proof.
  intros Hnd H.
  destruct (parse_loop_result B _ _ _ _ _ H) as (ps & T & E & [Hc|Hc]).
  - destruct Hc as (_ & _ & -> & _).
    apply (for_each_inv (fun st => NoDup (keys (snd st))) _ _ _ _
             (fun st f st' => parse_file_NoDup B _ _ _ st st' f) E Hnd).
  - destruct Hc as (_ & _ & _ & sorting & _ & ->). apply store_tags_NoDup.
Qed.

(** No post file and no post in the class: [_parse] raises nothing, assigns
    no archives to the instance and leaves the collections as they are. *)
Theorem parse_without_posts (m : gmap string node) (cls : class_attrs) (self : Mynt) :
  listing (normpath B [src self; "_posts"]) m = [] ->
  cls_posts cls = [] ->
  _parse B m cls self
  = Ok (with_collections cls (cls_pages cls) [] (cls_tags cls), self) /\
  archives (with_collections cls (cls_pages cls) [] (cls_tags cls)) self
  = archives cls self.
Proof.
  intros Hl Hp. unfold _parse. rewrite Hl, Hp. cbn. split; reflexivity.
Qed.

End ParseFacts2.

Lemma collect_tag_lists (c : config) (T : Tags) (acc sorting : list tag)
    (n : string) (t : tag) :
  for_each (collect_tag c) T acc = Ok sorting -> (n, TagData t) ∉ T.
Proof.
  intros H Hin. destruct (collect_tag_rel _ _ _ _ H) as (l & _ & Hl).
  destruct (proj1 (list_elem_of_lookup T _) Hin) as [i Hi].
  destruct (Forall2_lookup_l _ _ _ _ _ Hl Hi) as (t' & _ & (l0 & [=] & _)).
Qed.

Lemma index_tag_keeps_finished (d : data) (T T' : Tags) (name n : string) (t : tag) :
  index_tag d T name = Ok T' ->
  tags_get n T = Some (TagData t) -> tags_get n T' = Some (TagData t).
Proof.
  unfold index_tag, tags_append, tags_contains. intros H Hn.
  destruct (String.eqb_spec name n) as [->|Hne].
  - rewrite Hn in H. rewrite Hn in H. discriminate.
  - destruct (tags_get name T) as [v|] eqn:E.
    + rewrite E in H. destruct v as [l|t']; [|discriminate].
      injection H as <-. rewrite tags_get_set.
      by destruct (String.eqb_spec name n).
    + rewrite tags_get_set, String.eqb_refl in H. injection H as <-.
      rewrite !tags_get_set. by destruct (String.eqb_spec name n).
Qed.

Section ParseFacts3.
Variable B : backends.

(** A finished tag in the class stops [_parse] as soon as there is a post:
    the loop over the posts cannot replace the dictionary, and the loop over
    the collection cannot sort it. *)
Theorem parse_stops_at_finished_tag (m : gmap string node) (cls cls' : class_attrs)
    (self self' : Mynt) (n : string) (t : tag) :
  tags_get n (cls_tags cls) = Some (TagData t) ->
  _parse B m cls self = Ok (cls', self') ->
  cls_posts cls' = [] /\ cls_posts cls = [] /\
  tags_get n (cls_tags cls') = Some (TagData t).
Proof.
  intros Hn H.
  destruct (parse_loop_result B _ _ _ _ _ H) as (ps & T & E & Hc).
  assert (tags_get n T = Some (TagData t) /\ exists new, ps = cls_posts cls ++ new)
    as [HT [new Hps]].
  { apply (for_each_inv
             (fun st => tags_get n (snd st) = Some (TagData t) /\
                        exists new, fst st = cls_posts cls ++ new) _ _ _ _)
      with (2 := E); [|split; [assumption | exists []; by rewrite app_nil_r]].
    intros st f st' Hf [Hst [nw Hnw]].
    destruct (parse_file_appends B _ _ _ _ _ _ Hf) as (d & Hd & _ & Hi). split.
    - apply (for_each_inv (fun T => tags_get n T = Some (TagData t)) _ _ _ _)
        with (2 := Hi); [|assumption].
      intros T0 x T1. apply index_tag_keeps_finished.
    - exists (nw ++ [d]). by rewrite Hd, Hnw, app_assoc. }
  destruct Hc as [(-> & Hp & -> & _)|(_ & _ & _ & sorting & Hs & _)].
  - split; [assumption|]. split; [|assumption].
    symmetry in Hps. by apply app_eq_nil in Hps as [-> _].
  - destruct (collect_tag_lists _ _ _ _ n t Hs). by apply tags_get_elem.
Qed.

(** Every post of the class has its tags in the order of their lowercased
    names, once that holds for the posts the class starts with. *)
Theorem parse_post_tags_in_order (m : gmap string node) (cls cls' : class_attrs)
    (self self' : Mynt) (d : data) :
  Forall (fun p => StronglySorted (lower_le (lower B)) (data_tags p)) (cls_posts cls) ->
  _parse B m cls self = Ok (cls', self') ->
  d ∈ cls_posts cls' ->
  StronglySorted (lower_le (lower B)) (data_tags d).
Proof.
  intros H0 H Hd.
  destruct (parse_loop_result B _ _ _ _ _ H) as (ps & T & E & Hc).
  assert (Forall (fun p => StronglySorted (lower_le (lower B)) (data_tags p)) ps) as Hps.
  { apply (for_each_inv
             (fun st => Forall (fun p => StronglySorted (lower_le (lower B)) (data_tags p)) (fst st))
             _ _ _ _) with (2 := E); [|assumption].
    intros st f st' Hf Hst.
    destruct (parse_file_appends B _ _ _ _ _ _ Hf) as (d0 & -> & Hd0 & _).
    apply Forall_app. split; [assumption | by constructor]. }
  rewrite Forall_forall in Hps. apply Hps.
  destruct Hc as [(_ & Hp & _)|(_ & Hp & _)]; rewrite Hp in Hd.
  - by apply elem_of_nil in Hd.
  - by rewrite sort_by_perm in Hd.
Qed.

End ParseFacts3.

(** *** The index of the tags *)

Lemma index_tag_get (d : data) (T T' : Tags) (name : string) :
  index_tag d T name = Ok T' ->
  exists l0,
    (tags_get name T = Some (TagPosts l0) \/ (tags_get name T = None /\ l0 = [])) /\
    forall n, tags_get n T'
              = if String.eqb name n then Some (TagPosts (l0 ++ [d])) else tags_get n T.
Proof.
  unfold index_tag, tags_append, tags_contains. intros H.
  destruct (tags_get name T) as [v|] eqn:E.
  - rewrite E in H. destruct v as [l|t]; [|discriminate]. injection H as <-.
    exists l. split; [by left|]. intros n. apply tags_get_set.
  - rewrite tags_get_set, String.eqb_refl in H. injection H as <-.
    exists []. split; [by right|]. intros n. rewrite !tags_get_set.
    by destruct (String.eqb name n).
Qed.

Lemma index_tag_step (ps : list data) (d : data) (seen : list string)
    (T T' : Tags) (name : string) :
  index_during ps d seen T ->
  index_tag d T name = Ok T' ->
  index_during ps d (seen ++ [name]) T'.
Proof.
  intros (Hi & Hii & Hs & Hnd) H.
  destruct (index_tag_get _ _ _ _ H) as (l0 & Hl0 & Hget).
  repeat split.
  - intros n v. rewrite Hget. destruct (String.eqb_spec name n) as [<-|Hne].
    + intros [= <-]. eexists. split; [reflexivity|]. intros p.
      rewrite elem_of_app, list_elem_of_singleton, elem_of_app, list_elem_of_singleton.
      destruct Hl0 as [E|[E ->]].
      * destruct (Hi _ _ E) as (l & [= <-] & Hl). rewrite Hl. tauto.
      * split.
        -- intros [Hp| ->]; [by apply elem_of_nil in Hp | tauto].
        -- intros [[Hp Hn]|[-> [Hn|_]]].
           ++ destruct (Hii _ _ Hp Hn E).
           ++ destruct (Hs _ Hn E).
           ++ by right.
    + intros Hv. destruct (Hi _ _ Hv) as (l & -> & Hl). exists l.
      split; [reflexivity|]. intros p. rewrite Hl, elem_of_app, list_elem_of_singleton.
      split; [tauto|]. intros [?|[-> [?|?]]]; [tauto|tauto|congruence].
  - intros p n Hp Hn. rewrite Hget. destruct (String.eqb name n); [discriminate|].
    by apply (Hii p).
  - intros n Hn. rewrite Hget. destruct (String.eqb_spec name n) as [|Hne];
      [discriminate|].
    apply elem_of_app in Hn as [Hn|Hn]; [by apply Hs|].
    apply list_elem_of_singleton in Hn. congruence.
  - by apply (index_tag_NoDup d T T' name).
Qed.

Lemma index_of_during (ps : list data) (d : data) (T : Tags) :
  index_of ps T -> index_during ps d [] T.
Proof.
  intros (Hi & Hii & Hnd). repeat split; try assumption.
  - intros n v Hv. destruct (Hi _ _ Hv) as (l & -> & Hl). exists l.
    split; [reflexivity|]. intros p. rewrite Hl. split; [tauto|].
    intros [?|[_ Hn]]; [assumption | by apply elem_of_nil in Hn].
  - intros n Hn. by apply elem_of_nil in Hn.
Qed.

Lemma index_during_of (ps : list data) (d : data) (T : Tags) :
  index_during ps d (data_tags d) T -> index_of (ps ++ [d]) T.
Proof.
  intros (Hi & Hii & Hs & Hnd). repeat split; try assumption.
  - intros n v Hv. destruct (Hi _ _ Hv) as (l & -> & Hl). exists l.
    split; [reflexivity|]. intros p.
    rewrite Hl, elem_of_app, list_elem_of_singleton. split.
    + intros [[? ?]|[-> ?]]; tauto.
    + intros [[?| ->] ?]; tauto.
  - intros p n Hp Hn. apply elem_of_app in Hp as [Hp|Hp]; [by apply (Hii p)|].
    apply list_elem_of_singleton in Hp as ->. by apply Hs.
Qed.

Section IndexFacts.
Variable B : backends.

Lemma parse_file_index (c : config) (self : Mynt) (m : gmap string node)
    (st st' : list data * Tags) (f : file) :
  parse_file B c self m st f = Ok st' ->
  index_of (fst st) (snd st) -> index_of (fst st') (snd st').
Proof.
  intros H Hst. destruct (parse_file_appends B _ _ _ _ _ _ H) as (d & -> & _ & Hi).
  apply index_during_of.
  apply (for_each_inv_seen (index_during (fst st) d) (index_tag d)
           (data_tags d) (snd st) (snd st')); [|by apply index_of_during|assumption].
  intros seen x T T' HT Hx. by apply (index_tag_step _ _ _ T).
Qed.

(** From a class without posts and tags, [_parse] leaves an index that is
    complete and exact: a post is among the posts of every tag it carries,
    and the posts of a tag are posts of the collection that carry its name. *)
Theorem parse_index_exact (m : gmap string node) (cls cls' : class_attrs)
    (self self' : Mynt) :
  cls_posts cls = [] ->
  cls_tags cls = [] ->
  _parse B m cls self = Ok (cls', self') ->
  (forall p n, p ∈ cls_posts cls' -> n ∈ data_tags p ->
     exists t, (n, TagData t) ∈ cls_tags cls' /\ p ∈ tag_posts t) /\
  (forall n t p, (n, TagData t) ∈ cls_tags cls' -> p ∈ tag_posts t ->
     tag_name t = n /\ p ∈ cls_posts cls' /\ n ∈ data_tags p).
Proof.
  intros Hp0 HT0 H.
  destruct (parse_loop_result B _ _ _ _ _ H) as (ps & T & E & Hc).
  assert (index_of ps T) as (Hi & Hii & Hnd).
  { apply (for_each_inv (fun st => index_of (fst st) (snd st)) _ _ _ _
             (fun st f st' Hf => parse_file_index _ _ _ st st' f Hf) E).
    rewrite Hp0, HT0. repeat split.
    - discriminate.
    - intros p n Hp. by apply elem_of_nil in Hp.
    - constructor. }
  destruct Hc as [(-> & Hps & -> & _)|(_ & Hps & _ & sorting & Hs & HT)].
  - rewrite Hps. split.
    + intros p n Hp. by apply elem_of_nil in Hp.
    + intros n t p Hin. apply (elem_tags_get _ _ _ Hnd) in Hin.
      destruct (Hi _ _ Hin) as (l & [=] & _).
  - destruct (collect_tag_rel _ _ _ _ Hs) as (l & -> & Hl). cbn [app] in *.
    assert (map tag_name l = keys T) as Hnames.
    { clear -Hl. induction Hl as [|e t T l (l0 & -> & _) _ IH]; [reflexivity|].
      cbn. by rewrite IH. }
    assert (cls_tags cls' = map stored (sort_tags B l)) as HT'.
    { rewrite HT. apply store_tags_spec. by rewrite (sort_tags_perm B l), Hnames. }
    assert (forall t, stored t ∈ cls_tags cls' <-> t ∈ l) as Hstored.
    { intros t. rewrite HT', elem_of_map. split.
      - intros (t' & Heq & Hin). injection Heq as _ <-.
        by rewrite (sort_tags_perm B l) in Hin.
      - intros Hin. exists t. split; [reflexivity|]. by rewrite (sort_tags_perm B l). }
    rewrite Hps. split.
    + intros p n Hp Hn. rewrite sort_by_perm in Hp.
      destruct (tags_get n T) as [v|] eqn:Ev; [|by destruct (Hii _ _ Hp Hn)].
      destruct (Hi _ _ Ev) as (l0 & -> & Hl0).
      apply tags_get_elem in Ev.
      destruct (proj1 (list_elem_of_lookup T _) Ev) as [i Hi'].
      destruct (Forall2_lookup_l _ _ _ _ _ Hl Hi') as (t & Ht & (l1 & [= -> <-] & Hps1 & _)).
      exists t. split.
      * apply Hstored. by eapply list_elem_of_lookup_2.
      * rewrite Hps1, sort_by_perm. apply Hl0. by split.
    + intros n t p Hin Hp.
      assert (tag_name t = n /\ t ∈ l) as [<- Ht].
      { rewrite HT' in Hin. apply elem_of_map in Hin as (t' & [= -> ->] & Hin).
        split; [reflexivity|]. by rewrite (sort_tags_perm B l) in Hin. }
      split; [reflexivity|].
      destruct (proj1 (list_elem_of_lookup l _) Ht) as [i Hi'].
      destruct (Forall2_lookup_r _ _ _ _ _ Hl Hi') as (e & He & (l1 & -> & Hps1 & _)).
      apply list_elem_of_lookup_2 in He. apply (elem_tags_get _ _ _ Hnd) in He.
      destruct (Hi _ _ He) as (l2 & [= <-] & Hl2).
      rewrite Hps1, sort_by_perm in Hp. apply Hl2 in Hp as [Hp Hn].
      split; [by rewrite sort_by_perm | assumption].
Qed.

End IndexFacts.

(** ** Further properties of [_render] *)

Lemma for_each_paths {A : Type} (body : list Page -> A -> result (list Page))
    (g : A -> list string) (l : list A) (s s' : list Page) :
  (forall pg x pg', body pg x = Ok pg' -> map page_path pg' = map page_path pg ++ g x) ->
  for_each body l s = Ok s' ->
  map page_path s' = map page_path s ++ flat_map g l.
Proof.
  intros Hbody. revert s. induction l as [|x l IH]; intros s; cbn [for_each flat_map].
  - intros [= <-]. by rewrite app_nil_r.
  - destruct (body s x) as [s1|e] eqn:E; cbn [mbind result_bind]; [|discriminate].
    intros H. rewrite (IH _ H), (Hbody _ _ _ E). by rewrite <- app_assoc.
Qed.

Section RenderFacts.
Variable B : backends.

Lemma render_paths (m : gmap string node) (cls cls' : class_attrs)
    (self self' : Mynt) :
  _render B m cls self = Ok (cls', self') ->
  map page_path (cls_pages cls')
  = map page_path (cls_pages cls)
    ++ post_paths B self (cls_posts cls')
    ++ template_paths B self (listing (src self) m)
    ++ match tag_pages_wanted (cls_config cls) (cls_tags cls') with
       | Some _ => tag_paths B self (cls_tags cls')
       | None => []
       end.
Proof.
  unfold _render. intros H.
  destruct (_parse B m cls self) as [[cls0 self0]|e] eqn:E;
    cbn [mbind result_bind fst snd] in H; [|discriminate].
  destruct (parse_keeps_self _ _ _ _ _ _ E) as (_ & Hs & Hd & _ & Hc & Hpg & _).
  set (self1 := register_index self0 (cls_posts cls0) (cls_tags cls0)) in *.
  assert (src self1 = src self /\ dest self1 = dest self) as [Hs1 Hd1] by by split.
  destruct (for_each _ (cls_posts cls0) _) as [pg1|e] eqn:E1;
    cbn [mbind result_bind] in H; [|discriminate].
  destruct (for_each _ (listing _ m) pg1) as [pg2|e] eqn:E2;
    cbn [mbind result_bind] in H; [|discriminate].
  match type of H with mbind _ ?r = _ => destruct r as [pg3|e] eqn:E3 end;
    cbn [mbind result_bind] in H; [|discriminate].
  injection H as <- <-. cbn [with_collections cls_pages cls_posts cls_tags].
  apply (for_each_paths _
           (fun p => [_get_path (normpath B) (dest self) (data_url p)])) in E1.
  2:{ intros pg x pg' Hx. destruct (render_post_ok _ _ _ _ _ _ _ Hx) as [html ->].
      rewrite map_app. cbn [map page_path]. by rewrite ?Hd1, ?Hd. }
  apply (for_each_paths _
           (fun f => if is_template (extension B (file_path f))
                     then [normpath B [dest self; Py.replace (src self) "" (file_path f)]]
                     else [])) in E2.
  2:{ intros pg x pg' Hx. unfold render_template in Hx.
      destruct (is_template _); cbn [negb] in Hx.
      - step_bind Hx. injection Hx as <-. rewrite map_app. cbn [map page_path].
        by rewrite ?Hd1, ?Hd, ?Hs1, ?Hs.
      - injection Hx as <-. by rewrite app_nil_r. }
  rewrite Hs1 in E2. rewrite Hc in E3.
  assert (map page_path pg3
          = map page_path pg2
            ++ match tag_pages_wanted (cls_config cls) (cls_tags cls0) with
               | Some _ => tag_paths B self (cls_tags cls0)
               | None => []
               end) as E3'.
  { destruct (tag_pages_wanted _ _) as [layout|];
      [|injection E3 as <-; by rewrite app_nil_r].
    apply (for_each_paths _
             (fun e => match snd e with
                       | TagData t => [_get_path (normpath B) (dest self) (tag_url t)]
                       | TagPosts _ => []
                       end)) in E3; [exact E3|].
    intros pg x pg' Hx. unfold render_tag in Hx. destruct (snd x); [discriminate|].
    step_bind Hx. injection Hx as <-. rewrite map_app. cbn [map page_path]. by rewrite ?Hd1, ?Hd. }
  rewrite E3', E2, E1, Hpg. unfold post_paths, template_paths.
  by rewrite <- !app_assoc.
Qed.

(** The pages [_render] adds, by their paths and in their order: one for
    every post, one for every file the listing of the source yields with a
    template extension, and, when a tag layout is configured and there is a
    tag, one for every tag. *)
Theorem render_page_paths (m : gmap string node) (cls cls' : class_attrs)
    (self self' : Mynt) :
  _render B m cls self = Ok (cls', self') ->
  map page_path (cls_pages cls')
  = map page_path (cls_pages cls)
    ++ post_paths B self (cls_posts cls')
    ++ template_paths B self (listing (src self) m)
    ++ match tag_pages_wanted (cls_config cls) (cls_tags cls') with
       | Some _ => tag_paths B self (cls_tags cls')
       | None => []
       end.
Proof. exact (render_paths m cls cls' self self'). Qed.

End RenderFacts.

(** ** Further properties of [generate] *)

Section GenerateFacts.
Variable B : backends.

(** [generate] changes nothing outside the destination except at the paths
    it writes a page or an asset to. *)
Theorem generate_leaves_rest (m : gmap string node) (cls : class_attrs)
    (self : Mynt) (p : string) :
  under (dest self) p = false ->
  (forall cls1 self1, _render B m cls self = Ok (cls1, self1) ->
     p ∉ written B (cleared (dest self) m) cls1 self1) ->
  fst (generate B m cls self) !! p = m !! p.
Proof.
  intros Hu Hw.
  destruct (_render B m cls self) as [[cls1 self1]|e] eqn:Hr;
    [|unfold generate; by rewrite Hr].
  rewrite (generate_runs _ _ _ _ _ _ Hr). specialize (Hw _ _ eq_refl).
  destruct (_ && _); [reflexivity|]. cbn zeta.
  assert ((if dir_exists (dest self) m then rm (dest self) m else m) !! p = m !! p)
    as Hstart.
  { destruct (dir_exists (dest self) m); [|reflexivity]. by rewrite rm_lookup, Hu. }
  destruct (mk _ _) as [t|e] eqn:Em; [|exact Hstart].
  pose proof (mk_start _ _ _ Em) as ->.
  rewrite (materialize_other _ _ _ _ _ Hw). by rewrite cleared_lookup, Hu.
Qed.

(** Whatever [generate] raises that is no error of the file system, it
    raises with the tree untouched: the posts are parsed, the pages rendered
    and the destination checked before anything is removed or written. *)
Theorem generate_fails_clean (m : gmap string node) (cls : class_attrs)
    (self : Mynt) (e : exn) :
  snd (generate B m cls self) = Raise e ->
  fst (generate B m cls self) = m \/
  (exists args, e = IOError args) \/ (exists args, e = OSError args).
Proof.
  destruct (_render B m cls self) as [[cls1 self1]|e'] eqn:Hr;
    [|unfold generate; rewrite Hr; by left].
  rewrite (generate_runs _ _ _ _ _ _ Hr).
  destruct (_ && _); [by left|]. cbn zeta.
  destruct (mk _ _) as [t|e'] eqn:Em.
  - destruct (materialize B t cls1 self1) as [m' [st|e']] eqn:E; [discriminate|].
    intros [= <-]. right. exact (materialize_raises _ _ _ _ _ _ E).
  - intros [= <-]. right. exact (mk_raises _ _ _ Em).
Qed.

(** After a [generate] that ends well there is a file at every path the run
    writes: at the path of every page and at the place of every asset. *)
Theorem generate_writes_all (m m' : gmap string node) (cls cls1 : class_attrs)
    (self self1 : Mynt) (p : string) :
  generate B m cls self = (m', Ok (cls1, self1)) ->
  p ∈ written B (cleared (dest self) m) cls1 self1 ->
  exists c, m' !! p = Some (File c).
Proof.
  intros H Hp. destruct (generate_ok _ _ _ _ _ _ H) as (_ & _ & _ & Hm).
  cbn [fst snd] in Hm. destruct (materialize_ok _ _ _ _ _ _ Hm) as (_ & _ & Hfiles & _).
  by apply Hfiles.
Qed.

End GenerateFacts.

(** ** C8: running twice *)


(** *** A collection never gets empty again *)







Section TwiceFacts.
Variable B : backends.

(** *** The loop over the post files, from two states of the class *)





(** *** A second [_render] on what the first left in the class *)



(** *** The writing part, twice *)






End TwiceFacts.


(** On the site with tags the second run in the process of the first stops
    in [_parse], at the first tag it meets again, and the tree stays as the
    first run left it. *)
Example second_run_with_tags :
  let first := run sample_backends sample_tree Mynt_class (sample_options true) in
  run sample_backends (fst first)
    (fst (or_blank (sample_options true) (snd first))) (sample_options true)
  = (fst first, Raise (AttributeError ["'dict' object has no attribute 'append'"])).
Proof. vm_compute. reflexivity. Qed.

(** ** Further properties of [__init__] *)

Section InitFacts.
Variable B : backends.

(** When [config.yml] is there, [config.yaml] is not looked at: the instance
    and the configuration depend on the tree through [config.yml] alone. *)
Theorem init_prefers_yml (m m' : gmap string node) (cls : class_attrs) (o : options)
    (content : string) :
  m !! normpath B [opt_src o; "config.yml"] = Some (File content) ->
  m' !! normpath B [opt_src o; "config.yml"] = Some (File content) ->
  __init__ B m cls o = __init__ B m' cls o.
Proof.
  intros H H'. unfold __init__. cbn [load_config String.append]. by rewrite H, H'.
Qed.

(** A base URL on the command line wins over the configuration file, and
    what the renderer is given as [site] is the configuration of the class. *)
Theorem init_base_url (m : gmap string node) (cls cls' : class_attrs) (o : options)
    (self : Mynt) :
  __init__ B m cls o = Ok (cls', self) ->
  reg_site (self_registered self) = Some (cls_config cls') /\
  (forall u, opt_base_url o = Some u -> base_url (cls_config cls') = u) /\
  (opt_base_url o = None ->
   load_config B [".yml"; ".yaml"] (opt_src o) m (cls_config cls) = Ok (cls_config cls')).
Proof.
  unfold __init__. destruct (String.eqb _ _); [discriminate|].
  destruct (is_root _ || is_root _); [discriminate|].
  destruct (load_config _ _ _ _ _) as [c|e]; cbn [mbind result_bind]; [|discriminate].
  intros [= <- <-]. cbn. split; [reflexivity|]. split.
  - intros u ->. reflexivity.
  - intros ->. reflexivity.
Qed.

End InitFacts.

(** ** Further properties of the URL resolvers *)




Lemma endswith_slash_app (a b : string) :
  b <> "" -> Py.endswith (a +:+ b) "/" = Py.endswith b "/".
Proof.
  intros Hb. induction a as [|c a IH]; cbn [String.append]; [reflexivity|].
  cbn [Py.endswith]. rewrite IH.
  assert (String.eqb (String c (a +:+ b)) "/" = false) as ->; [|reflexivity].
  apply String.eqb_neq. intros [= _ H]. destruct a; [contradiction | discriminate].
Qed.

(** The page of a tag: [index.html] in a directory of its own when
    [tags_url] ends with ["/"], a file [name.html] otherwise. *)
Theorem tag_page_path (normpath : list string -> string)
    (dest_path tags_url name : string) :
  ((exists a, tags_url = a +:+ "/") /\
   _get_path normpath dest_path (_get_tag_url tags_url name)
   = normpath (dest_path :: Py.split "/" tags_url ++ Py.split "/" name
               ++ [""; "index.html"]))
  \/
  ((~ exists a, tags_url = a +:+ "/") /\
   _get_path normpath dest_path (_get_tag_url tags_url name)
   = normpath (dest_path :: Py.split "/" tags_url ++ Py.split "/" (name +:+ ".html"))).
Proof.
  unfold _get_path, _get_tag_url.
  destruct (Py.endswith tags_url "/") eqn:E.
  - left. split; [by apply endswith_spec|].
    change (tags_url +:+ "/" +:+ name +:+ "/")
      with (tags_url +:+ String "/" (name +:+ String "/" "")).
    rewrite !split_app.
    assert (Py.endswith (tags_url +:+ String "/" (name +:+ String "/" "")) "/" = true)
      as ->.
    { apply endswith_spec. exists (tags_url +:+ "/" +:+ name).
      by rewrite !append_assoc. }
    cbn [app]. by rewrite <- !app_assoc.
  - right. split; [by apply endswith_false_spec|].
    change (tags_url +:+ "/" +:+ name +:+ ".html")
      with (tags_url +:+ String "/" (name +:+ ".html")).
    rewrite split_app.
    assert (Py.endswith (tags_url +:+ String "/" (name +:+ ".html")) "/" = false) as ->.
    { change (tags_url +:+ String "/" (name +:+ ".html"))
        with (tags_url +:+ "/" +:+ name +:+ ".html").
      rewrite <- !append_assoc. by rewrite endswith_slash_app. }
    reflexivity.
Qed.

(** ** Unescaping what was escaped *)

Lemma escape_is_escape_only (s : string) : escape s = escape_only (fun _ => true) s.
Proof.
  induction s as [|c s IH]; [reflexivity|].
  cbn [escape escape_only]. unfold entity_of. rewrite IH.
  repeat (destruct (Ascii.eqb c _); [reflexivity|]). reflexivity.
Qed.

Lemma escape_only_none (s : string) : escape_only (fun _ => false) s = s.
Proof.
  induction s as [|c s IH]; [reflexivity|].
  cbn [escape_only]. rewrite IH. by destruct (entity_of c).
Qed.

Ltac replace_step :=
  cbn [String.append];
  repeat (rewrite replace_cons;
          cbn [Py.startswith Ascii.eqb Bool.eqb String.length Py.drop String.append]).

(** Replacing the entity of [x] in a text in which no [&] stands for itself:
    afterwards [x] is no longer escaped, the rest is as before. *)
Lemma replace_entity (x : ascii) (ent : string) (which : ascii -> bool) (s : string) :
  (x, ent) ∈ [("&"%char, "&amp;"); (">"%char, "&gt;"); ("<"%char, "&lt;");
              (ascii_of_nat 34, "&quot;")] ->
  Py.contains_char "&" s = false ->
  Py.replace ent (String x "") (escape_only which s)
  = escape_only (fun c => which c && negb (Ascii.eqb c x)) s.
Proof.
  intros Hx. induction s as [|c s IH]; cbn [Py.contains_char]; intros H.
  - repeat (apply elem_of_cons in Hx as [[= -> ->]|Hx]; [reflexivity|]).
    by apply elem_of_nil in Hx.
  - apply orb_false_iff in H as [Hc Hs]. specialize (IH Hs).
    cbn [escape_only]. unfold entity_of. rewrite Hc.
    destruct (Ascii.eqb_spec c ">") as [->|H1];
      [|destruct (Ascii.eqb_spec c "<") as [->|H2];
        [|destruct (Ascii.eqb_spec c (ascii_of_nat 34)) as [->|H3]]].
    + repeat (apply elem_of_cons in Hx as [[= -> ->]|Hx];
              [destruct (which _); cbn [andb negb Ascii.eqb Bool.eqb];
               replace_step; by rewrite IH|]).
      by apply elem_of_nil in Hx.
    + repeat (apply elem_of_cons in Hx as [[= -> ->]|Hx];
              [destruct (which _); cbn [andb negb Ascii.eqb Bool.eqb];
               replace_step; by rewrite IH|]).
      by apply elem_of_nil in Hx.
    + repeat (apply elem_of_cons in Hx as [[= -> ->]|Hx];
              [destruct (which _); cbn [andb negb Ascii.eqb Bool.eqb];
               replace_step; by rewrite IH|]).
      by apply elem_of_nil in Hx.
    + assert (Ascii.eqb "&" c = false) as Hc' by (by rewrite Ascii.eqb_sym).
      repeat (apply elem_of_cons in Hx as [[= -> ->]|Hx];
              [rewrite replace_cons; cbn [Py.startswith]; rewrite Hc'; by rewrite IH|]).
      by apply elem_of_nil in Hx.
Qed.

(** A text without [&] comes back from [escape] and [unescape] as it was. *)
Theorem unescape_escape (s : string) :
  Py.contains_char "&" s = false -> unescape (escape s) = s.
Proof.
  intros H. unfold unescape, entities. cbn [fold_left fst snd].
  rewrite escape_is_escape_only.
  rewrite (replace_entity "&" "&amp;") by (assumption || set_solver).
  rewrite (replace_entity ">" "&gt;") by (assumption || set_solver).
  rewrite (replace_entity "<" "&lt;") by (assumption || set_solver).
  unfold dquote.
  rewrite (replace_entity (ascii_of_nat 34) "&quot;") by (assumption || set_solver).
  rewrite <- (escape_only_none s) at 2.
  clear H. induction s as [|c s IH]; [reflexivity|].
  cbn [escape_only]. rewrite IH. unfold entity_of.
  destruct (Ascii.eqb_spec c "&") as [->|H0]; [reflexivity|].
  destruct (Ascii.eqb_spec c ">") as [->|H1]; [reflexivity|].
  destruct (Ascii.eqb_spec c "<") as [->|H2]; [reflexivity|].
  destruct (Ascii.eqb_spec c (ascii_of_nat 34)) as [->|H3]; reflexivity.
Qed.

(** ** The matcher *)

Lemma rep_answer (greedy : bool) (cls : ascii -> bool) (pos : nat) (s : string)
    (k : nat -> string -> option Re.answer) (a : Re.answer) :
  Re.rep greedy cls pos s k = Some a -> exists p' t, k p' t = Some a.
Proof.
  unfold Re.rep. destruct greedy.
  - revert pos. induction s as [|c s IH]; intros pos; cbn [Re.rep_greedy]; [by eauto|].
    destruct (cls c); [|by eauto].
    destruct (Re.rep_greedy cls (S pos) s k) eqn:E; [|by eauto].
    intros [= <-]. by apply (IH (S pos)).
  - revert pos. induction s as [|c s IH]; intros pos; cbn [Re.rep_lazy].
    + destruct (k pos "") eqn:E; [|discriminate]. intros [= <-]. by eauto.
    + destruct (k pos (String c s)) eqn:E; [intros [= <-]; by eauto|].
      destruct (cls c); [|discriminate]. apply IH.
Qed.

Lemma group_app_l (n : nat) (e1 e2 : Re.captures) :
  is_Some (Re.group n e1) -> is_Some (Re.group n (e1 ++ e2)).
Proof.
  unfold Re.group. induction e1 as [|[k v] e1 IH]; cbn [find app fst].
  - intros [x Hx]. discriminate.
  - destruct (Nat.eqb k n); [intros _; by eexists | exact IH].
Qed.

Lemma group_app_r (n : nat) (e1 e2 : Re.captures) :
  is_Some (Re.group n e2) -> is_Some (Re.group n (e1 ++ e2)).
Proof.
  unfold Re.group. intros H. induction e1 as [|[k v] e1 IH]; cbn [find app fst];
    [exact H|].
  destruct (Nat.eqb k n); [by eexists | exact IH].
Qed.

(** Whatever way a pattern matches, the continuation is reached with the
    groups of [always_captured] set. *)
Lemma run_captures (r : Re.regex) (pos : nat) (s : string) (caps : Re.captures)
    (k : nat -> string -> Re.captures -> option Re.answer) (a : Re.answer) :
  Re.run r pos s caps k = Some a ->
  exists p' s' extra,
    k p' s' (extra ++ caps) = Some a /\
    forall n, n ∈ always_captured r -> is_Some (Re.group n extra).
Proof.
  revert pos s caps k.
  induction r as [|t|greedy plus cls|r1 IH1 r2 IH2|r IH|n r IH];
    intros pos s caps k; cbn [Re.run always_captured].
  - destruct (Nat.eqb pos 0); [|discriminate]. intros H.
    exists pos, s, []. split; [exact H|]. intros n Hn. by apply elem_of_nil in Hn.
  - destruct (Py.startswith s t); [|discriminate]. intros H.
    eexists _, _, []. split; [exact H|]. intros n Hn. by apply elem_of_nil in Hn.
  - intros H.
    assert (exists p' t, k p' t caps = Some a) as (p' & t & Hk).
    { destruct plus.
      - destruct s as [|c s]; [discriminate|]. destruct (cls c); [|discriminate].
        by apply rep_answer in H.
      - by apply rep_answer in H. }
    exists p', t, []. split; [exact Hk|]. intros n Hn. by apply elem_of_nil in Hn.
  - intros H. destruct (IH1 _ _ _ _ H) as (p1 & s1 & e1 & H1 & He1).
    destruct (IH2 _ _ _ _ H1) as (p2 & s2 & e2 & H2 & He2).
    exists p2, s2, (e2 ++ e1). rewrite <- app_assoc. split; [exact H2|].
    intros n Hn. apply elem_of_app in Hn as [Hn|Hn].
    + apply group_app_r. by apply He1.
    + apply group_app_l. by apply He2.
  - destruct (Re.run r pos s caps k) eqn:E.
    + intros [= <-]. destruct (IH _ _ _ _ E) as (p1 & s1 & e1 & H1 & _).
      exists p1, s1, e1. split; [exact H1|]. intros n Hn. by apply elem_of_nil in Hn.
    + intros H. exists pos, s, []. split; [exact H|].
      intros n Hn. by apply elem_of_nil in Hn.
  - intros H. destruct (IH _ _ _ _ H) as (p1 & s1 & e1 & H1 & He1).
    eexists p1, s1, (_ :: e1). split; [exact H1|].
    intros n' Hn. apply elem_of_cons in Hn as [-> | Hn].
    + unfold Re.group. cbn [find fst]. rewrite Nat.eqb_refl. by eexists.
    + apply (group_app_r n' [_]). by apply He1.
Qed.

Lemma match_at_captures (r : Re.regex) (pos stop : nat) (s : string)
    (caps : Re.captures) (n : nat) :
  Re.match_at r pos s = Some (stop, caps) ->
  n ∈ always_captured r -> is_Some (Re.group n caps).
Proof.
  unfold Re.match_at. intros H Hn.
  destruct (run_captures _ _ _ _ _ _ H) as (p' & s' & extra & [= _ <-] & He).
  rewrite app_nil_r. by apply He.
Qed.

(** ** Further properties of the highlight pass *)

Lemma pre_code_needs_pre (pos : nat) (s : string) :
  Py.startswith s "<pre" = false -> Re.match_at pre_code_re pos s = None.
Proof.
  intros H. unfold Re.match_at, pre_code_re, Re.seq. cbn [foldr Re.run]. by rewrite H.
Qed.

Section HighlightFacts.
Variable lexer : Type.
Variable get_lexer_by_name : string -> result lexer.
Variable highlight : string -> lexer -> HtmlFormatter -> string.

(** A document in which [<pre] does not occur goes through the pass
    unchanged. *)
Theorem pygmentize_leaves_plain (flag : bool) (html : string) :
  occurs "<pre" html = false ->
  _pygmentize lexer get_lexer_by_name highlight flag html = Ok html.
Proof.
  intros H. unfold _pygmentize. destruct (negb flag); [reflexivity|].
  unfold Re.sub.
  assert (forall pos,
            Re.sub_from 0 pre_code_re (_highlight lexer get_lexer_by_name highlight)
              pos html = Ok html) as Hsub; [|apply Hsub].
  induction html as [|c html IH]; intros pos; [reflexivity|].
  cbn [occurs] in H. apply orb_false_iff in H as [H1 H2].
  cbn [Re.sub_from]. rewrite (pre_code_needs_pre pos _ H1), (IH H2). reflexivity.
Qed.

(** With a lexer registered as ["text"] and a registry that raises nothing
    but [ClassNotFound], the pass raises on no document. *)
Theorem pygmentize_never_raises (flag : bool) (html : string) :
  (forall name, (exists lx, get_lexer_by_name name = Ok lx) \/
                (exists args, get_lexer_by_name name = Raise (ClassNotFound args))) ->
  (exists lx, get_lexer_by_name "text" = Ok lx) ->
  exists out, _pygmentize lexer get_lexer_by_name highlight flag html = Ok out.
Proof.
  intros Hreg [tx Htx]. unfold _pygmentize. destruct (negb flag); [by eauto|].
  assert (forall caps pos stop s,
            Re.match_at pre_code_re pos s = Some (stop, caps) ->
            exists out, _highlight lexer get_lexer_by_name highlight caps = Ok out)
    as Hrepl.
  { intros caps pos stop s Hm. unfold _highlight.
    destruct (match_at_captures _ _ _ _ _ 1 Hm) as [language ->];
      [cbn; set_solver|].
    destruct (match_at_captures _ _ _ _ _ 2 Hm) as [code ->];
      [cbn; set_solver|].
    unfold _highlight_groups.
    destruct (Hreg language) as [[lx ->]|[args ->]]; cbn; [by eauto|].
    rewrite Htx. cbn. by eauto. }
  unfold Re.sub.
  assert (forall skip pos,
            exists out,
              Re.sub_from skip pre_code_re (_highlight lexer get_lexer_by_name highlight)
                pos html = Ok out) as Hsub; [|apply Hsub].
  induction html as [|c html IH]; intros skip pos; cbn [Re.sub_from]; [by eauto|].
  destruct skip as [|skip]; [|apply IH].
  destruct (Re.match_at pre_code_re pos (String c html)) as [[stop caps]|] eqn:Hm.
  - destruct (stop <=? pos).
    + destruct (IH 0 (S pos)) as [out ->]. cbn. by eauto.
    + destruct (Hrepl _ _ _ _ Hm) as [out ->].
      destruct (IH (stop - pos - 1) (S pos)) as [out' ->]. cbn. by eauto.
  - destruct (IH 0 (S pos)) as [out ->]. cbn. by eauto.
Qed.

End HighlightFacts.

(** ** The excerpt of a content that starts with a paragraph *)

Lemma substring_prefix (x y : string) :
  String.substring 0 (String.length x) (x +:+ y) = x.
Proof.
  induction x as [|c x IH]; cbn [String.length String.append String.substring].
  - by destruct y.
  - by rewrite IH.
Qed.

Lemma startswith_app (p s : string) : Py.startswith (p +:+ s) p = true.
Proof.
  induction p as [|c p IH]; cbn [String.append Py.startswith]; [reflexivity|].
  by rewrite Ascii.eqb_refl.
Qed.

Lemma drop_app (p s : string) : Py.drop (String.length p) (p +:+ s) = s.
Proof. induction p as [|c p IH]; cbn [String.length String.append Py.drop]; auto. Qed.

(** The lazy [.+?] before [</p>]: over a text without ["<"] it stops at the
    first [</p>] after it. *)
Lemma lazy_to_close (body rest : string) (pos : nat)
    (k : nat -> string -> option Re.answer) (a : Re.answer) :
  Py.contains_char "<" body = false ->
  (forall p t, Py.startswith t "</p>" = false -> k p t = None) ->
  k (pos + String.length body) ("</p>" +:+ rest) = Some a ->
  Re.rep_lazy Re.any pos (body +:+ "</p>" +:+ rest) k = Some a.
Proof.
  intros Hb Hk. revert pos. induction body as [|c body IH]; intros pos Ha.
  - cbn [String.length String.append] in *. rewrite Nat.add_0_r in Ha.
    cbn [Re.rep_lazy]. by rewrite Ha.
  - cbn [Py.contains_char] in Hb. apply orb_false_iff in Hb as [Hc Hb].
    cbn [String.append Re.rep_lazy]. rewrite Hk.
    + cbn [Re.any]. apply (IH Hb).
      cbn [String.length] in Ha. by rewrite Nat.add_succ_comm.
    + cbn [Py.startswith]. by rewrite Ascii.eqb_sym, Hc.
Qed.

Lemma rep_lazy_first (cls : ascii -> bool) (pos : nat) (s : string)
    (k : nat -> string -> option Re.answer) (a : Re.answer) :
  k pos s = Some a -> Re.rep_lazy cls pos s k = Some a.
Proof. intros H. destruct s; cbn [Re.rep_lazy]; by rewrite H. Qed.

(** A content that starts with a paragraph of plain text has that paragraph
    as its excerpt. *)
Theorem excerpt_of_leading_paragraph (body rest : string) :
  body <> "" ->
  Py.contains_char "<" body = false ->
  excerpt_of ("<p>" +:+ body +:+ "</p>" +:+ rest)
  = Ok (Some ("<p>" +:+ body +:+ "</p>")).
Proof.
  intros Hne Hb. destruct body as [|c body]; [contradiction|].
  cbn [Py.contains_char] in Hb. apply orb_false_iff in Hb as [Hc Hb].
  unfold excerpt_of, Re.search.
  set (para := "<p>" +:+ String c body +:+ "</p>").
  assert (Re.match_at excerpt_re 0 ("<p>" +:+ String c body +:+ "</p>" +:+ rest)
          = Some (String.length para, [(1, para)])) as Hm.
  { unfold Re.match_at, excerpt_re, Re.seq. cbn [foldr].
    cbn [Re.run Nat.eqb]. unfold Re.rep at 1. apply rep_lazy_first.
    rewrite (startswith_app "<p>"), (drop_app "<p>").
    change (String c body +:+ "</p>" +:+ rest)
      with (String c (body +:+ "</p>" +:+ rest)) at 1.
    cbv beta iota. cbn [Re.any]. unfold Re.rep.
    erewrite (lazy_to_close body rest _ _ (String.length para, [(1, para)]) Hb).
    - reflexivity.
    - intros p t Ht. by rewrite Ht.
    - rewrite (startswith_app "</p>"), (drop_app "</p>").
      cbn [Py.startswith String.length Py.drop].
      assert (("<p>" +:+ String c body +:+ "</p>" +:+ rest) = para +:+ rest) as ->
        by (unfold para; cbn [String.append]; by rewrite !append_assoc).
      assert (S (0 + 3) + String.length body + 4 + 0 - 0 = String.length para) as ->.
      { unfold para. cbn [String.append String.length]. rewrite !append_length.
        cbn [String.length]. lia. }
      rewrite substring_prefix.
      assert (S (0 + 3) + String.length body + 4 + 0 + 0 = String.length para) as ->.
      { unfold para. cbn [String.append String.length]. rewrite !append_length.
        cbn [String.length]. lia. }
      reflexivity. }
  destruct ("<p>" +:+ String c body +:+ "</p>" +:+ rest) as [|c0 content0] eqn:Ec;
    cbn [Re.search_from]; by rewrite Hm.
Qed.

(** ** The further properties on the sample site *)

Lemma parse_posts_newest_first_witness :
  StronglySorted newest_first (cls_posts (fst sample_parsed)).
Proof.
  apply (parse_posts_newest_first sample_backends sample_tree
           (fst sample_started) (fst sample_parsed)
           (snd sample_started) (snd sample_parsed)).
  vm_compute. reflexivity.
Defined.

Lemma parse_tags_finished_witness :
  exists t, sample_entry 0 = (tag_name t, TagData t) /\
            tag_count t = length (tag_posts t) /\
            StronglySorted newest_first (tag_posts t) /\
            tag_url t = _get_tag_url (tags_url (cls_config (fst sample_started)))
                          (tag_name t).
Proof.
  apply (parse_tags_finished sample_backends sample_tree
           (fst sample_started) (fst sample_parsed)
           (snd sample_started) (snd sample_parsed)).
  - vm_compute. reflexivity.
  - vm_compute. discriminate.
  - vm_compute. apply list_elem_of_here.
Defined.

Lemma parse_tag_names_unique_witness :
  NoDup (map fst (cls_tags (fst sample_parsed))).
Proof.
  apply (parse_tag_names_unique sample_backends sample_tree
           (fst sample_started) (fst sample_parsed)
           (snd sample_started) (snd sample_parsed)).
  - vm_compute. constructor.
  - vm_compute. reflexivity.
Defined.

Lemma parse_without_posts_witness :
  _parse sample_backends empty_site Mynt_class (blank_self (sample_options true))
  = Ok (with_collections Mynt_class (cls_pages Mynt_class) [] (cls_tags Mynt_class),
        blank_self (sample_options true)) /\
  archives (with_collections Mynt_class (cls_pages Mynt_class) [] (cls_tags Mynt_class))
    (blank_self (sample_options true))
  = archives Mynt_class (blank_self (sample_options true)).
Proof.
  apply (parse_without_posts sample_backends empty_site Mynt_class
           (blank_self (sample_options true))).
  - vm_compute. reflexivity.
  - reflexivity.
Defined.

Lemma parse_stops_at_finished_tag_witness :
  cls_posts (with_collections tagged_class [] [] (cls_tags tagged_class)) = [] /\
  cls_posts tagged_class = [] /\
  tags_get "go" (cls_tags (with_collections tagged_class [] [] (cls_tags tagged_class)))
  = Some (TagData {| tag_name := "go"; tag_count := 0; tag_posts := [];
                     tag_url := "//go/" |}).
Proof.
  apply (parse_stops_at_finished_tag sample_backends empty_site tagged_class
           (with_collections tagged_class [] [] (cls_tags tagged_class))
           (blank_self (sample_options true)) (blank_self (sample_options true))).
  - reflexivity.
  - vm_compute. reflexivity.
Defined.

Lemma parse_post_tags_in_order_witness :
  StronglySorted (lower_le Py.lower) (data_tags sample_post).
Proof.
  apply (parse_post_tags_in_order sample_backends sample_tree
           (fst sample_started) (fst sample_parsed)
           (snd sample_started) (snd sample_parsed) sample_post).
  - vm_compute. constructor.
  - vm_compute. reflexivity.
  - vm_compute. apply list_elem_of_here.
Defined.

Lemma parse_index_exact_witness :
  (forall p n, p ∈ cls_posts (fst sample_parsed) -> n ∈ data_tags p ->
     exists t, (n, TagData t) ∈ cls_tags (fst sample_parsed) /\ p ∈ tag_posts t) /\
  (forall n t p, (n, TagData t) ∈ cls_tags (fst sample_parsed) -> p ∈ tag_posts t ->
     tag_name t = n /\ p ∈ cls_posts (fst sample_parsed) /\ n ∈ data_tags p).
Proof.
  apply (parse_index_exact sample_backends sample_tree
           (fst sample_started) (fst sample_parsed)
           (snd sample_started) (snd sample_parsed)).
  - reflexivity.
  - reflexivity.
  - vm_compute. reflexivity.
Defined.

Lemma render_page_paths_witness :
  map page_path (cls_pages (fst first_state))
  = map page_path (cls_pages (fst plain_started))
    ++ post_paths sample_backends (snd plain_started) (cls_posts (fst first_state))
    ++ template_paths sample_backends (snd plain_started)
         (listing (src (snd plain_started)) plain_tree)
    ++ match tag_pages_wanted (cls_config (fst plain_started))
               (cls_tags (fst first_state)) with
       | Some _ => tag_paths sample_backends (snd plain_started)
                     (cls_tags (fst first_state))
       | None => []
       end.
Proof.
  apply (render_page_paths sample_backends plain_tree
           (fst plain_started) (fst first_state)
           (snd plain_started) (snd first_state)).
  vm_compute. reflexivity.
Defined.

Lemma generate_leaves_rest_witness :
  fst (generate sample_backends stale_tree (fst (stale_started true))
         (snd (stale_started true))) !! "site/index.html"
  = stale_tree !! "site/index.html".
Proof.
  apply (generate_leaves_rest sample_backends stale_tree (fst (stale_started true))
           (snd (stale_started true)) "site/index.html").
  - vm_compute. reflexivity.
  - intros cls1 self1 H. vm_compute in H. injection H as <- <-.
    intros Hin. vm_compute in Hin.
    repeat (apply elem_of_cons in Hin as [Hin|Hin]; [discriminate|]).
    by apply elem_of_nil in Hin.
Defined.

Lemma generate_fails_clean_witness :
  fst (generate sample_backends stale_tree (fst (stale_started false))
         (snd (stale_started false))) = stale_tree \/
  (exists args,
     OptionException
       ["Destination already exists.";
        "the -f option must be used to force generation by deleting the destination"]
     = IOError args) \/
  (exists args,
     OptionException
       ["Destination already exists.";
        "the -f option must be used to force generation by deleting the destination"]
     = OSError args).
Proof.
  apply (generate_fails_clean sample_backends stale_tree (fst (stale_started false))
           (snd (stale_started false))).
  vm_compute. reflexivity.
Defined.

Lemma init_prefers_yml_witness :
  __init__ sample_backends sample_tree Mynt_class (sample_options true)
  = __init__ sample_backends yaml_tree Mynt_class (sample_options true).
Proof.
  apply (init_prefers_yml sample_backends sample_tree yaml_tree Mynt_class
           (sample_options true) "tag.html").
  - vm_compute. reflexivity.
  - vm_compute. reflexivity.
Defined.

Lemma init_base_url_witness :
  reg_site (self_registered (snd sample_started))
  = Some (cls_config (fst sample_started)) /\
  (forall u, opt_base_url (sample_options true) = Some u ->
     base_url (cls_config (fst sample_started)) = u) /\
  (opt_base_url (sample_options true) = None ->
   load_config sample_backends [".yml"; ".yaml"] (opt_src (sample_options true))
     sample_tree (cls_config Mynt_class)
   = Ok (cls_config (fst sample_started))).
Proof.
  apply (init_base_url sample_backends sample_tree Mynt_class (fst sample_started)
           (sample_options true) (snd sample_started)).
  vm_compute. reflexivity.
Defined.


Lemma unescape_escape_witness :
  unescape (escape "if a < b: print(x > 1)") = "if a < b: print(x > 1)".
Proof. apply unescape_escape. reflexivity. Defined.

Lemma pygmentize_leaves_plain_witness :
  _pygmentize string sample_get_lexer_by_name sample_highlight true
    "<p>no code here</p>"
  = Ok "<p>no code here</p>".
Proof. apply pygmentize_leaves_plain. reflexivity. Defined.

Lemma pygmentize_never_raises_witness :
  exists out,
    _pygmentize string sample_get_lexer_by_name sample_highlight true
      ("<pre lang=" +:+ dquote +:+ "cobol" +:+ dquote +:+ "><code>x</code></pre>")
    = Ok out.
Proof.
  apply pygmentize_never_raises.
  - intros name. unfold sample_get_lexer_by_name.
    destruct (_ || _); [left | right]; by eexists.
  - by exists "text".
Defined.

Lemma excerpt_of_leading_paragraph_witness :
  excerpt_of ("<p>" +:+ "Hello" +:+ "</p>" +:+ "<p>World</p>")
  = Ok (Some ("<p>" +:+ "Hello" +:+ "</p>")).
Proof. apply excerpt_of_leading_paragraph; [discriminate | reflexivity]. Defined.

(** ** One post for every file *)

Section CountFacts.
Variable B : backends.

(** [_parse] adds one post for every file of the posts directory. *)
Theorem parse_reads_every_file (m : gmap string node) (cls cls' : class_attrs)
    (self self' : Mynt) :
  _parse B m cls self = Ok (cls', self') ->
  length (cls_posts cls')
  = length (cls_posts cls) + length (listing (normpath B [src self; "_posts"]) m).
Proof.
  intros H. destruct (parse_loop_result B _ _ _ _ _ H) as (ps & T & E & Hc).
  assert (length ps = length (cls_posts cls)
                      + length (listing (normpath B [src self; "_posts"]) m)) as Hlen.
  { revert E. generalize (cls_tags cls). generalize (cls_posts cls).
    induction (listing (normpath B [src self; "_posts"]) m) as [|f l IH];
      intros ps0 T0; cbn [for_each].
    - intros [= <- _]. cbn. lia.
    - destruct (parse_file B _ self m (ps0, T0) f) as [[ps1 T1]|e] eqn:Ef;
        cbn [mbind result_bind]; [|discriminate].
      destruct (parse_file_appends B _ _ _ _ _ _ Ef) as (d & Hd & _).
      cbn [fst] in Hd. subst ps1. intros E. rewrite (IH _ _ E).
      rewrite length_app. cbn. lia. }
  destruct Hc as [(-> & -> & _)|(_ & -> & _)].
  - exact Hlen.
  - by rewrite (Permutation_length (sort_by_perm _ _ _ ps)).
Qed.

(** ** What the post loop of [_render] raises *)

(** A [RendererException] that leaves the loop over the posts has two
    arguments: the message, and the layout and the title of a post of the
    loop. *)
Theorem render_error_names_post (c : config) (self : Mynt) (m : gmap string node)
    (ps : list data) (pg : list Page) (args : list string) :
  for_each (render_post B c self m) ps pg = Raise (RendererException args) ->
  exists p layout title msg,
    p ∈ ps /\ data_layout p = Some layout /\ data_title p = Some title /\
    args = [msg; layout +:+ " in post '" +:+ title +:+ "'"].
Proof.
  revert pg. induction ps as [|p ps IH]; intros pg; cbn [for_each]; [discriminate|].
  destruct (render_post B c self m pg p) as [pg1|e] eqn:E; cbn [mbind result_bind].
  - intros H. destruct (IH _ H) as (p' & layout & title & msg & Hp & Hrest).
    exists p', layout, title, msg. split; [by apply list_elem_of_further | exact Hrest].
  - intros [= ->]. unfold render_post in E.
    destruct (data_layout p) as [layout|] eqn:El; cbn [required mbind result_bind] in E;
      [|discriminate].
    match type of E with
    | match ?r with _ => _ end = _ => destruct r as [html|[]]
    end; try discriminate.
    destruct (data_title p) as [title|] eqn:Et; cbn [required mbind result_bind] in E;
      [|discriminate].
    injection E as <-. exists p, layout, title, (hd "" args0).
    split; [apply list_elem_of_here | by repeat split].
Qed.

End CountFacts.

Lemma parse_reads_every_file_witness :
  length (cls_posts (fst sample_parsed))
  = length (cls_posts (fst sample_started))
    + length (listing (normpath sample_backends [src (snd sample_started); "_posts"])
                sample_tree).
Proof.
  apply (parse_reads_every_file sample_backends sample_tree
           (fst sample_started) (fst sample_parsed)
           (snd sample_started) (snd sample_parsed)).
  vm_compute. reflexivity.
Defined.

Lemma generate_writes_all_witness :
  exists c, first_tree !! page_path first_page = Some (File c).
Proof.
  apply (generate_writes_all sample_backends plain_tree first_tree
           (fst plain_started) (fst first_state)
           (snd plain_started) (snd first_state) (page_path first_page)).
  - vm_compute. reflexivity.
  - vm_compute. apply list_elem_of_here.
Defined.

Lemma render_error_names_post_witness :
  exists p layout title msg,
    p ∈ [broken_post] /\ data_layout p = Some layout /\ data_title p = Some title /\
    ["unexpected end of template"; "broken.html in post 'Draft'"]
    = [msg; layout +:+ " in post '" +:+ title +:+ "'"].
Proof.
  apply (render_error_names_post sample_backends (cls_config Mynt_class)
           (snd sample_started) sample_tree [broken_post] []).
  vm_compute. reflexivity.
Defined.

